(** * Parallel flashcard generation: planner, workers, orchestrator,
      progress tracker and progress stream

    A shallow embedding of
      - [src/agents/multi_agent_flashcards.py]
        ([FlashcardBatch], [FlashcardAgent], [MultiAgentFlashcardGenerator]),
      - [src/services/ai_service.py]
        ([ProgressTracker], [start_flashcard_generation], [stream_progress]),
      - [src/services/openai_utils.py] ([create_chat_completion]),
    followed by the properties of the batch planner, the workers, the
    aggregation, the progress counter and the progress stream.

    Python integers are [Z]; [//] and [%] with a positive divisor are
    [Z.div] and [Z.modulo]; strings are [string]; dictionaries keyed by
    operation id or worker index are [gmap]s; JSON objects keep their
    insertion order and are association lists. *)

From Stdlib Require Import ZArith List Ascii String Lia.
From stdpp Require Import base gmap list strings pretty sorting.

Set Warnings "-register-all,-clear-no-such-hyp".

Open Scope Z_scope.

(** ** Python values and control *)

(** The exception classes the handlers of the two modules tell apart.
    [OtherException] stands for every other subclass of [Exception]
    ([AttributeError], [TypeError], [IndexError], provider errors, ...).
    The string is the text [str] gives for the exception, which is what
    the handlers report; the [KeyError] of the tracker, which no handler
    reports, carries the name of its class. *)
Inductive exn :=
  | JSONDecodeError (msg : string)
  | RuntimeError (msg : string)
  | OtherException (msg : string).

(** [str(exc)] *)
Definition str_exn (e : exn) : string :=
  match e with
  | JSONDecodeError msg | RuntimeError msg | OtherException msg => msg
  end.

(** A call returns, raises, or has not come back within the iterations
    or scheduling steps given to it. *)
Inductive py (A : Type) :=
  | Return (a : A)
  | Raise (e : exn)
  | Unfinished.
Arguments Return {A} a.
Arguments Raise {A} e.
Arguments Unfinished {A}.

#[global] Instance py_ret : MRet py := @Return.
#[global] Instance py_bind : MBind py := fun A B f c =>
  match c with
  | Return a => f a
  | Raise e => Raise e
  | Unfinished => Unfinished
  end.
#[global] Instance py_fmap : FMap py := fun A B f c =>
  match c with
  | Return a => Return (f a)
  | Raise e => Raise e
  | Unfinished => Unfinished
  end.

(** Values produced by [json.loads].  A number that is not an integer
    behaves like [JNum] in every operation used here (it has no [get]
    and no length, is not iterable and supports no item assignment);
    the messages of the exceptions it causes name the type [float]. *)
Inductive json :=
  | JNull
  | JBool (b : bool)
  | JNum (n : Z)
  | JStr (s : string)
  | JArr (items : list json)
  | JObj (fields : list (string * json)).

(** The name of the type of a value in the messages of Python. *)
Definition type_name (value : json) : string :=
  match value with
  | JNull => "NoneType"
  | JBool _ => "bool"
  | JNum _ => "int"
  | JStr _ => "str"
  | JArr _ => "list"
  | JObj _ => "dict"
  end.

(** [d.get(key)] on the fields of a dict. *)
Fixpoint dict_get (key : string) (fields : list (string * json)) : option json :=
  match fields with
  | [] => None
  | (k, v) :: rest => if decide (k = key) then Some v else dict_get key rest
  end.

(** [d[key] = value]: an existing key keeps its position, a new key is
    appended. *)
Fixpoint dict_set (key : string) (value : json) (fields : list (string * json))
  : list (string * json) :=
  match fields with
  | [] => [(key, value)]
  | (k, v) :: rest =>
      if decide (k = key) then (k, value) :: rest
      else (k, v) :: dict_set key value rest
  end.

(** [iter(value)]: lists yield their elements, dicts their keys, strings
    their characters; anything else raises [TypeError]. *)
Definition py_iter (value : json) : py (list json) :=
  match value with
  | JArr items => Return items
  | JObj fields => Return (JStr ∘ fst <$> fields)
  | JStr s => Return ((fun c => JStr (String c EmptyString)) <$> list_ascii_of_string s)
  | _ => Raise (OtherException ("'" +:+ type_name value +:+ "' object is not iterable"))
  end.

(** [l[:stop]] *)
Definition slice_to {A} (l : list A) (stop : Z) : list A :=
  if bool_decide (0 ≤ stop) then take (Z.to_nat stop) l
  else take (length l - Z.to_nat (- stop)) l.

(** [l[i]] *)
Definition list_index {A} (l : list A) (i : Z) : py A :=
  let position :=
    if bool_decide (0 ≤ i) then Some (Z.to_nat i)
    else if bool_decide (- i ≤ Z.of_nat (length l))
         then Some (length l - Z.to_nat (- i))%nat
         else None in
  match position ≫= (l !!.) with
  | Some x => Return x
  | None => Raise (OtherException "list index out of range")
  end.

(** The sum of a list of integers. *)
Definition sum_Z (l : list Z) : Z := foldr Z.add 0 l.

(** Library and clock functions the code calls but does not define. *)
Class PythonRuntime := {
  (** [json.loads]: the decoded value, or the text of the
      [JSONDecodeError] *)
  json_loads : string → string + json;
  (** [str.strip] *)
  str_strip : string → string;
  (** [str.replace(old, new)] *)
  str_replace : string → string → string → string;
  (** the n-th identifier drawn from [uuid.uuid4()] in one operation *)
  uuid4 : nat → string;
  (** [datetime.now().isoformat()] when worker [agent] tags its item
      number [index] *)
  isoformat_now : Z → Z → string;
  (** the characters of a string, in order: [len], slicing and indexing
      count code points *)
  str_chars : string → list string;
  (** what pydantic makes of a value that is not a [str] given for a
      field annotated [str]: the string it is turned into, or the text
      of the [ValidationError]; this depends on the version installed *)
  pydantic_str : json → string + string;
  (** the text of the exception a dict raises for the key
      [slice(None, stop)]: a [TypeError] for an unhashable key up to
      Python 3.11, a [KeyError] from 3.12 *)
  dict_slice_message : Z → string;
}.

(** ** [multi_agent_flashcards.py] *)

Record FlashcardBatch := {
  batch_id : string;
  topic : string;
  subtopic : string;
  count : Z;
  difficulty : string;
  agent_id : Z;
  flashcards : json;            (* default: the empty list *)
  status : string;              (* pending, processing, completed, error *)
  error_message : option string;
}.

Record MultiAgentFlashcardState := {
  st_topic : string;
  total_count : Z;
  st_difficulty : string;
  subject : option string;
  user_id : string;
  batches : list FlashcardBatch;
  completed_flashcards : list json;
  st_status : string;           (* initializing, processing, completed, error *)
  agents_count : Z;
}.

(** One call [progress_callback(agent_id, status, subtopic, progress,
    total_batches)]. *)
Record progress_call := {
  pc_agent : Z;
  pc_status : string;
  pc_subtopic : string;
  pc_progress : Z;
  pc_total : option Z;
}.

(** What the outside world hands back to a request: a value, or an
    exception raised while obtaining it. *)
Inductive reply (A : Type) :=
  | Replied (a : A)
  | Failed (e : exn).
Arguments Replied {A} a.
Arguments Failed {A} e.

(** One provider request: [create_chat_completion] on a configured
    client followed by [response.choices[0].message.content].  The
    prompt is built from the batch and plays no part in what the caller
    does next; it is left out. *)
Definition provider_outcome : Type := reply string.

(** [openai_utils.create_chat_completion], up to the content text. *)
Definition create_chat_completion (configured : bool) (remote : provider_outcome)
  : py string :=
  if negb configured then Raise (RuntimeError "OpenAI client not configured")
  else match remote with
       | Replied content => Return content
       | Failed e => Raise e
       end.

(** *** [FlashcardAgent] *)

Section Agents.
Context `{rt : !PythonRuntime}.

(** Lines 116-121 of [generate_flashcards_batch]: strip the text and
    remove a surrounding code fence. *)
Definition strip_code_fence (raw : string) : string :=
  let content := str_strip raw in
  if String.prefix "```json" content then
    str_strip (str_replace "```" EmptyString (str_replace "```json" EmptyString content))
  else if String.prefix "```" content then
    str_strip (str_replace "```" EmptyString content)
  else content.

(** The local function [emit]; [progress_callback] tells whether the
    optional callable was supplied, and a supplied callable is
    represented by the list of its calls, oldest first. *)
Definition emit (progress_callback : bool) (self_agent_id : Z)
    (batch : FlashcardBatch) (total_batches : Z)
    (st : string) (progress : Z) : list progress_call :=
  if progress_callback then
    [ {| pc_agent := self_agent_id; pc_status := st;
         pc_subtopic := subtopic batch; pc_progress := progress;
         pc_total := Some total_batches |} ]
  else [].

(** The four assignments made to one flashcard (lines 127-130).  Item
    assignment with a string key needs a dict. *)
Definition tag_flashcard (self_agent_id : Z) (batch : FlashcardBatch)
    (index : Z) (flashcard : json) : py json :=
  match flashcard with
  | JObj fields =>
      Return (JObj
        (dict_set "created_at" (JStr (isoformat_now self_agent_id index))
        (dict_set "agent_id" (JNum self_agent_id)
        (dict_set "batch_id" (JStr (batch_id batch))
        (dict_set "id" (JStr (batch_id batch +:+ "_" +:+ pretty (index + 1)))
           fields)))))
  | JArr _ =>
      Raise (OtherException "list indices must be integers or slices, not str")
  | _ =>
      Raise (OtherException
               ("'" +:+ type_name flashcard +:+ "' object does not support item assignment"))
  end.

(** [for index, flashcard in enumerate(flashcards)] from position
    [index] on. *)
Fixpoint tag_flashcards (self_agent_id : Z) (batch : FlashcardBatch)
    (index : Z) (flashcards : list json) : py (list json) :=
  match flashcards with
  | [] => Return []
  | flashcard :: rest =>
      tagged ← tag_flashcard self_agent_id batch index flashcard;
      others ← tag_flashcards self_agent_id batch (index + 1) rest;
      Return (tagged :: others)
  end.

(** The value bound to [flashcards] after the loop: a list has had its
    dicts tagged in place; any other iterable survives the loop only when
    it is empty, since its elements are strings. *)
Definition tagged_value (self_agent_id : Z) (batch : FlashcardBatch)
    (flashcards : json) : py json :=
  match flashcards with
  | JArr items => JArr <$> tag_flashcards self_agent_id batch 0 items
  | _ =>
      elements ← py_iter flashcards;
      _ ← tag_flashcards self_agent_id batch 0 elements;
      Return flashcards
  end.

(** The body of the [try] block (lines 111-134) up to the assignment of
    [batch.flashcards]. *)
Definition try_generate (configured : bool) (remote : provider_outcome)
    (self_agent_id : Z) (batch : FlashcardBatch) : py json :=
  raw ← create_chat_completion configured remote;
  let content := strip_code_fence raw in
  flashcards_data ←
    match json_loads content with
    | inl msg => Raise (JSONDecodeError msg)
    | inr value => Return value
    end;
  flashcards ←
    match flashcards_data with
    | JObj fields => Return (default (JArr []) (dict_get "flashcards" fields))
    | _ =>
        Raise (OtherException
                 ("'" +:+ type_name flashcards_data +:+ "' object has no attribute 'get'"))
    end;
  tagged_value self_agent_id batch flashcards.

Definition set_error (batch : FlashcardBatch) (message : string) : FlashcardBatch :=
  {| batch_id := batch_id batch; topic := topic batch;
     subtopic := subtopic batch; count := count batch;
     difficulty := difficulty batch; agent_id := agent_id batch;
     flashcards := flashcards batch;
     status := "error"; error_message := Some message |}.

Definition set_completed (batch : FlashcardBatch) (cards : json) : FlashcardBatch :=
  {| batch_id := batch_id batch; topic := topic batch;
     subtopic := subtopic batch; count := count batch;
     difficulty := difficulty batch; agent_id := agent_id batch;
     flashcards := cards;
     status := "completed"; error_message := error_message batch |}.

(** The part of [generate_flashcards_batch] that runs once the provider
    request is over: the rest of the [try] block and the three handlers.
    The result is the returned batch (or the exception that leaves the
    method) and the calls made to the callback. *)
Definition finish_batch (configured : bool) (remote : provider_outcome)
    (progress_callback : bool) (self_agent_id : Z) (batch : FlashcardBatch)
    (total_batches : Z) : py FlashcardBatch * list progress_call :=
  match try_generate configured remote self_agent_id batch with
  | Return cards =>
      let batch := set_completed batch cards in
      (Return batch, emit progress_callback self_agent_id batch total_batches "completed" 100)
  | Raise (JSONDecodeError msg) =>
      let batch := set_error batch ("Erro ao parsear resposta JSON: " +:+ msg) in
      (Return batch, emit progress_callback self_agent_id batch total_batches "error" 100)
  | Raise (RuntimeError msg) =>
      let batch := set_error batch msg in
      (Return batch, emit progress_callback self_agent_id batch total_batches "error" 100)
  | Raise (OtherException msg) =>
      let batch := set_error batch msg in
      (Return batch, emit progress_callback self_agent_id batch total_batches "error" 100)
  | Unfinished => (Unfinished, [])
  end.

(** [FlashcardAgent.generate_flashcards_batch]: the first call to the
    callback, then the request and what follows it. *)
Definition generate_flashcards_batch (configured : bool) (remote : provider_outcome)
    (progress_callback : bool) (self_agent_id : Z) (batch : FlashcardBatch)
    (total_batches : Z) : py FlashcardBatch * list progress_call :=
  let started := emit progress_callback self_agent_id batch total_batches "processing" 5 in
  let '(outcome, calls) :=
    finish_batch configured remote progress_callback self_agent_id batch total_batches in
  (outcome, started ++ calls).

(** *** [MultiAgentFlashcardGenerator] *)

(** [f"{main_topic} - Parte {i}"] *)
Definition part_label (main_topic : string) (i : Z) : string :=
  main_topic +:+ " - Parte " +:+ pretty i.

(** [len(value)]; the keys of a decoded object are distinct. *)
Definition py_len (value : json) : py Z :=
  match value with
  | JArr items => Return (Z.of_nat (length items))
  | JObj fields => Return (Z.of_nat (length fields))
  | JStr s => Return (Z.of_nat (length (str_chars s)))
  | _ =>
      Raise (OtherException ("object of type '" +:+ type_name value +:+ "' has no len()"))
  end.

(** [value.append(item)] *)
Definition py_append (value item : json) : py json :=
  match value with
  | JArr items => Return (JArr (items ++ [item]))
  | _ =>
      Raise (OtherException
               ("'" +:+ type_name value +:+ "' object has no attribute 'append'"))
  end.

(** [value[:stop]]; a dict takes the slice for a key and rejects it. *)
Definition py_slice_to (value : json) (stop : Z) : py json :=
  match value with
  | JArr items => Return (JArr (slice_to items stop))
  | JStr s => Return (JStr (String.concat EmptyString (slice_to (str_chars s) stop)))
  | JObj _ => Raise (OtherException (dict_slice_message stop))
  | _ =>
      Raise (OtherException ("'" +:+ type_name value +:+ "' object is not subscriptable"))
  end.

(** [value[index]] for an integer [index]; the keys of a decoded object
    are strings. *)
Definition py_index (value : json) (index : Z) : py json :=
  match value with
  | JArr items => list_index items index
  | JStr s =>
      match list_index (str_chars s) index with
      | Return c => Return (JStr c)
      | Raise _ => Raise (OtherException "string index out of range")
      | Unfinished => Unfinished
      end
  | JObj _ => Raise (OtherException (pretty index))
  | _ =>
      Raise (OtherException ("'" +:+ type_name value +:+ "' object is not subscriptable"))
  end.

(** The validation pydantic applies to a value given for a field
    annotated [str]. *)
Definition validate_str (value : json) : py string :=
  match value with
  | JStr s => Return s
  | _ =>
      match pydantic_str value with
      | inr s => Return s
      | inl message => Raise (OtherException message)
      end
  end.

(** The [while len(subtopics) < count] loop of [_generate_subtopics],
    with at most [fuel] iterations. *)
Fixpoint pad_subtopics (fuel : nat) (main_topic : string) (count : Z)
    (subtopics : json) : py json :=
  n ← py_len subtopics;
  if bool_decide (n < count) then
    match fuel with
    | O => Unfinished
    | S fuel =>
        subtopics ← py_append subtopics (JStr (part_label main_topic (n + 1)));
        pad_subtopics fuel main_topic count subtopics
    end
  else Return subtopics.

(** The [try] block of [_generate_subtopics] with its handler (lines
    180-198): the value of [json.loads], whatever it is, or the empty
    list when anything in the block raises. *)
Definition try_decompose (configured : bool) (decomposition : provider_outcome)
  : json :=
  match create_chat_completion configured decomposition with
  | Return raw =>
      match json_loads (strip_code_fence raw) with
      | inr subtopics => subtopics
      | inl _ => JArr []
      end
  | _ => JArr []
  end.

(** [_generate_subtopics].  [decomposition] is the outcome of the
    provider request.  The loop and the slice (lines 200-202) are outside
    the [try] block and work on whatever was decoded; the loop runs with
    [count] iterations allowed. *)
Definition _generate_subtopics (configured : bool)
    (decomposition : provider_outcome) (main_topic : string) (count : Z)
  : py json :=
  if negb configured then
    Return (JArr ((fun i => JStr (part_label main_topic (i + 1))) <$> seqZ 0 count))
  else
    let subtopics := try_decompose configured decomposition in
    subtopics ← pad_subtopics (Z.to_nat count) main_topic count subtopics;
    py_slice_to subtopics count.

(** The loop of [_create_batches] over the remaining values of [index].
    [FlashcardBatch(...)] validates its arguments: [subtopics[index]]
    has to pass for a [str]; the other arguments come from the validated
    state and from integers. *)
Fixpoint plan_batches (state : MultiAgentFlashcardState) (subtopics : json)
    (flashcards_per_agent remaining : Z) (indices : list Z)
    (batches : list FlashcardBatch) : py (list FlashcardBatch) :=
  match indices with
  | [] => Return batches
  | index :: rest =>
      let count_for_agent :=
        flashcards_per_agent + (if bool_decide (index < remaining) then 1 else 0) in
      if bool_decide (count_for_agent ≤ 0) then
        plan_batches state subtopics flashcards_per_agent remaining rest batches
      else
        label ← py_index subtopics index;
        subtopic_ ← validate_str label;
        plan_batches state subtopics flashcards_per_agent remaining rest
          (batches ++
           [ {| batch_id := uuid4 (length batches);
                topic := st_topic state;
                subtopic := subtopic_;
                count := count_for_agent;
                difficulty := st_difficulty state;
                agent_id := index + 1;
                flashcards := JArr [];
                status := "pending";
                error_message := None |} ])
  end.

Definition set_agents_count (state : MultiAgentFlashcardState) (n : Z)
  : MultiAgentFlashcardState :=
  {| st_topic := st_topic state; total_count := total_count state;
     st_difficulty := st_difficulty state; subject := subject state;
     user_id := user_id state; batches := batches state;
     completed_flashcards := completed_flashcards state;
     st_status := st_status state; agents_count := n |}.

(** [_create_batches]: the state with [agents_count] set, and the
    batches. *)
Definition _create_batches (configured : bool) (decomposition : provider_outcome)
    (max_agents : Z) (state : MultiAgentFlashcardState)
  : py (MultiAgentFlashcardState * list FlashcardBatch) :=
  let agents_to_use := Z.max 1 (Z.min max_agents (total_count state)) in
  let state := set_agents_count state agents_to_use in
  subtopics ← _generate_subtopics configured decomposition (st_topic state) agents_to_use;
  let flashcards_per_agent := Z.max 1 (total_count state / agents_to_use) in
  let remaining := total_count state mod agents_to_use in
  batches ← plan_batches state subtopics flashcards_per_agent remaining
               (seqZ 0 agents_to_use) [];
  Return (state, batches).

(** [estimate_batches] *)
Definition estimate_batches (max_agents : Z) (requested_count : Z) : Z :=
  if bool_decide (requested_count ≤ 0) then 1
  else Z.min max_agents requested_count.


(** [self.agents]: agent number [i + 1] sits at position [i]; an agent is
    identified by its [agent_id]. *)
Definition agents (max_agents : Z) : list Z :=
  (fun i => i + 1) <$> seqZ 0 max_agents.

(** The dict returned by [generate_flashcards_parallel]; an absent key is
    [None].  The key [processing_time], a difference of two clock
    readings in seconds, is left out. *)
Record generation_result := {
  success : bool;
  error : option string;
  res_flashcards : option (list json);
  res_topic : option string;
  res_count : option Z;
  res_difficulty : option string;
  agents_used : option Z;
  batches_completed : option Z;
  batches_failed : option Z;
  failed_batches : option Z;
  details : option (list string);
}.

Definition failure (message : string) : generation_result := {|
  success := false; error := Some message;
  res_flashcards := None; res_topic := None; res_count := None;
  res_difficulty := None; agents_used := None; batches_completed := None;
  batches_failed := None; failed_batches := None; details := None;
|}.

(** One entry of [tasks]: the coroutine of agent [task_agent] on
    [task_batch]. *)
Record task := { task_agent : Z; task_batch : FlashcardBatch }.

(** A task has not run yet, waits for its provider request, or is done
    with the value or exception [asyncio.gather] will report for it. *)
Inductive task_state :=
  | Created
  | Awaiting
  | Done (outcome : reply FlashcardBatch).

(** The event loop resumes task number [i]: a new task runs up to its
    provider request, a waiting task runs to its end.  The outcome of a
    task is stored at the position of the task. *)
Definition resume_task (configured : bool) (remote : Z → provider_outcome)
    (progress_callback : bool) (total_batches : Z) (tasks : list task)
    (now : list task_state * list progress_call) (i : nat)
  : list task_state * list progress_call :=
  let '(states, calls) := now in
  match tasks !! i, states !! i with
  | Some t, Some Created =>
      (<[i := Awaiting]> states,
       calls ++ emit progress_callback (task_agent t) (task_batch t) total_batches
                  "processing" 5)
  | Some t, Some Awaiting =>
      match finish_batch configured (remote (task_agent t)) progress_callback
              (task_agent t) (task_batch t) total_batches with
      | (Return batch, made) => (<[i := Done (Replied batch)]> states, calls ++ made)
      | (Raise e, made) => (<[i := Done (Failed e)]> states, calls ++ made)
      | (Unfinished, made) => (states, calls ++ made)
      end
  | _, _ => now
  end.

(** The tasks under a schedule: the list of task positions in the order
    in which the event loop resumes them. *)
Definition run_tasks (configured : bool) (remote : Z → provider_outcome)
    (progress_callback : bool) (total_batches : Z) (tasks : list task)
    (schedule : list nat) : list task_state * list progress_call :=
  foldl (resume_task configured remote progress_callback total_batches tasks)
        (replicate (length tasks) Created, []) schedule.

(** [asyncio.gather] over the tasks with [return_exceptions=True]: once every
    task is done, the outcomes in the order of [tasks]. *)
Definition gather (states : list task_state) : py (list (reply FlashcardBatch)) :=
  mapM (fun s => match s with
                 | Done outcome => Return outcome
                 | _ => Unfinished
                 end) states.

Definition set_batches (state : MultiAgentFlashcardState) (bs : list FlashcardBatch)
  : MultiAgentFlashcardState :=
  {| st_topic := st_topic state; total_count := total_count state;
     st_difficulty := st_difficulty state; subject := subject state;
     user_id := user_id state; batches := bs;
     completed_flashcards := completed_flashcards state;
     st_status := st_status state; agents_count := agents_count state |}.

Definition extend_completed (state : MultiAgentFlashcardState) (cards : list json)
  : MultiAgentFlashcardState :=
  {| st_topic := st_topic state; total_count := total_count state;
     st_difficulty := st_difficulty state; subject := subject state;
     user_id := user_id state; batches := batches state;
     completed_flashcards := completed_flashcards state ++ cards;
     st_status := st_status state; agents_count := agents_count state |}.

Definition set_status (state : MultiAgentFlashcardState) (s : string)
  : MultiAgentFlashcardState :=
  {| st_topic := st_topic state; total_count := total_count state;
     st_difficulty := st_difficulty state; subject := subject state;
     user_id := user_id state; batches := batches state;
     completed_flashcards := completed_flashcards state;
     st_status := s; agents_count := agents_count state |}.

(** The loop over [zip(state.batches, results)] (lines 307-330):
    [completed_batches] grows by one batch per pair and
    [state.completed_flashcards] by the flashcards of every result whose
    status is completed. *)
Fixpoint collect (progress_callback : bool) (total_batches : Z)
    (pairs : list (FlashcardBatch * reply FlashcardBatch))
    (completed_batches : list FlashcardBatch) (state : MultiAgentFlashcardState)
    (calls : list progress_call)
  : py (list FlashcardBatch) * MultiAgentFlashcardState * list progress_call :=
  match pairs with
  | [] => (Return completed_batches, state, calls)
  | (batch, Failed e) :: rest =>
      let batch := set_error batch (str_exn e) in
      collect progress_callback total_batches rest (completed_batches ++ [batch]) state
        (calls ++ emit progress_callback (agent_id batch) batch total_batches "error" 100)
  | (_, Replied result) :: rest =>
      if decide (status result = "completed") then
        match py_iter (flashcards result) with
        | Return cards =>
            collect progress_callback total_batches rest (completed_batches ++ [result])
              (extend_completed state cards) calls
        | Raise e => (Raise e, state, calls)
        | Unfinished => (Unfinished, state, calls)
        end
      else
        collect progress_callback total_batches rest (completed_batches ++ [result])
          state calls
  end.

(** [b.error_message] when it is truthy: neither [None] nor empty. *)
Definition truthy_message (b : FlashcardBatch) : option string :=
  match error_message b with
  | Some message => if decide (message = EmptyString) then None else Some message
  | None => None
  end.

(** What one call of [generate_flashcards_parallel] leaves behind: the
    value returned (or the fact that the call has not returned), the
    state object when one was built, and the calls made to the callback. *)
Record run_outcome := {
  returned : py generation_result;
  final_state : option MultiAgentFlashcardState;
  calls_made : list progress_call;
}.

(** Lines 307-376: the loop over the results, then the dict built from
    the batches and the aggregated flashcards. *)
Definition conclude (progress_callback : bool) (total_batches : Z)
    (topic_ difficulty_ : string) (planned_batches : list FlashcardBatch)
    (results : list (reply FlashcardBatch)) (state : MultiAgentFlashcardState)
    (calls : list progress_call)
  : py generation_result * MultiAgentFlashcardState * list progress_call :=
  match collect progress_callback total_batches (zip planned_batches results) []
          state calls with
  | (Raise e, state, calls) => (Raise e, state, calls)
  | (Unfinished, state, calls) => (Unfinished, state, calls)
  | (Return completed_batches, state, calls) =>
      let state := set_batches state completed_batches in
      let successful_batches :=
        filter (fun b => status b = "completed") (batches state) in
      let failed_batches_ :=
        filter (fun b => status b = "error") (batches state) in
      match completed_flashcards state with
      | _ :: _ =>
          (Return {|
             success := true; error := None;
             res_flashcards := Some (completed_flashcards state);
             res_topic := Some topic_;
             res_count := Some (Z.of_nat (length (completed_flashcards state)));
             res_difficulty := Some difficulty_;
             agents_used := Some (Z.of_nat (length successful_batches));
             batches_completed := Some (Z.of_nat (length successful_batches));
             batches_failed := Some (Z.of_nat (length failed_batches_));
             failed_batches := None; details := None |},
           set_status state "completed", calls)
      | [] =>
          (Return {|
             success := false;
             error := Some "Falha na geração de flashcards";
             res_flashcards := None; res_topic := None; res_count := None;
             res_difficulty := None; agents_used := None;
             batches_completed := None; batches_failed := None;
             failed_batches := Some (Z.of_nat (length failed_batches_));
             details := Some (omap truthy_message failed_batches_) |},
           set_status state "error", calls)
      end
  end.

(** Lines 294-303: one task per batch, run by the agent at position
    [batch.agent_id - 1] of [self.agents]. *)
Definition create_tasks (max_agents : Z) (planned_batches : list FlashcardBatch)
  : py (list task) :=
  mapM (fun batch =>
          agent ← list_index (agents max_agents) (agent_id batch - 1);
          Return {| task_agent := agent; task_batch := batch |})
       planned_batches.

(** The state object built by [generate_flashcards_parallel] (lines
    260-266). *)
Definition new_state (topic_ : string) (count_ : Z) (difficulty_ : string)
    (subject_ : option string) (user_id_ : string) : MultiAgentFlashcardState :=
  {| st_topic := topic_; total_count := count_; st_difficulty := difficulty_;
     subject := subject_; user_id := user_id_; batches := [];
     completed_flashcards := []; st_status := "initializing"; agents_count := 1 |}.

(** The [try] block of [generate_flashcards_parallel] (lines 275-376).  A
    planner that raises has already stored [agents_count] in the state. *)
Definition parallel_body (configured : bool) (decomposition : provider_outcome)
    (remote : Z → provider_outcome) (schedule : list nat) (max_agents : Z)
    (topic_ difficulty_ : string) (progress_callback : bool)
    (state : MultiAgentFlashcardState)
  : py generation_result * MultiAgentFlashcardState * list progress_call :=
  match _create_batches configured decomposition max_agents state with
  | Raise e =>
      (Raise e,
       set_agents_count state (Z.max 1 (Z.min max_agents (total_count state))), [])
  | Unfinished => (Unfinished, state, [])
  | Return (state, []) =>
      (Return (failure "Não foi possível criar lotes de flashcards"),
       set_batches state [], [])
  | Return (state, planned_batches) =>
      let state := set_batches state planned_batches in
      let total_batches := Z.of_nat (length planned_batches) in
      let queued :=
        planned_batches ≫= fun batch =>
          emit progress_callback (agent_id batch) batch total_batches "queued" 0 in
      match create_tasks max_agents planned_batches with
      | Raise e => (Raise e, state, queued)
      | Unfinished => (Unfinished, state, queued)
      | Return tasks =>
          let '(states, made) :=
            run_tasks configured remote progress_callback total_batches tasks schedule in
          match gather states with
          | Raise e => (Raise e, state, queued ++ made)
          | Unfinished => (Unfinished, state, queued ++ made)
          | Return results =>
              conclude progress_callback total_batches topic_ difficulty_
                planned_batches results state (queued ++ made)
          end
      end
  end.

(** [generate_flashcards_parallel] *)
Definition generate_flashcards_parallel (configured : bool)
    (decomposition : provider_outcome) (remote : Z → provider_outcome)
    (schedule : list nat) (max_agents : Z)
    (topic_ : string) (count_ : Z) (difficulty_ : string)
    (subject_ : option string) (user_id_ : string) (progress_callback : bool)
  : run_outcome :=
  if negb configured then
    {| returned := Return (failure "Serviço de IA indisponível no momento");
       final_state := None; calls_made := [] |}
  else if bool_decide (count_ ≤ 0) then
    {| returned := Return (failure "Quantidade de flashcards deve ser positiva");
       final_state := None; calls_made := [] |}
  else
    let state := new_state topic_ count_ difficulty_ subject_ user_id_ in
    match parallel_body configured decomposition remote schedule max_agents
            topic_ difficulty_ progress_callback state with
    | (Raise (RuntimeError _), state, calls) =>
        {| returned := Return (failure "Serviço de IA indisponível no momento");
           final_state := Some state; calls_made := calls |}
    | (Raise e, state, calls) =>
        {| returned := Return {|
             success := false; error := Some ("Erro crítico: " +:+ str_exn e);
             res_flashcards := None; res_topic := Some topic_; res_count := Some 0;
             res_difficulty := None; agents_used := None; batches_completed := None;
             batches_failed := None; failed_batches := None; details := None |};
           final_state := Some state; calls_made := calls |}
    | (other, state, calls) =>
        {| returned := other; final_state := Some state; calls_made := calls |}
    end.

End Agents.

(** ** [ai_service.py]: the progress tracker *)

(** One value of [agents_status]; [completed_at] is a clock reading. *)
Record agent_slot := {
  slot_status : string;     (* waiting, queued, processing, completed, error *)
  slot_subtopic : string;
  slot_progress : Z;
  completed_at : option Z;
}.

Record ProgressTracker := {
  operation_id : string;
  total_agents : Z;
  start_time : Z;
  completed_agents : Z;
  agents_status : gmap Z agent_slot;
}.

Definition waiting_slot : agent_slot :=
  {| slot_status := "waiting"; slot_subtopic := EmptyString; slot_progress := 0;
     completed_at := None |}.

(** [status in {"completed", "error"}] *)
Definition is_terminal (st : string) : bool :=
  bool_decide (st = "completed") || bool_decide (st = "error").

(** [_ensure_agent_slots] on the dict *)
Definition _ensure_agent_slots (total : Z) (slots : gmap Z agent_slot)
  : gmap Z agent_slot :=
  foldl (fun slots i =>
           match slots !! i with
           | Some _ => slots
           | None => <[i := waiting_slot]> slots
           end)
        slots (seqZ 1 total).

(** The object built by [ProgressTracker.__init__] at clock reading
    [now]; its registration in the table is part of [new_tracker]
    below. *)
Definition init_tracker (op : string) (total : Z) (now : Z) : ProgressTracker :=
  {| operation_id := op;
     total_agents := Z.max 1 total;
     start_time := now;
     completed_agents := 0;
     agents_status := _ensure_agent_slots (Z.max 1 total) ∅ |}.

(** [set_total_agents] *)
Definition set_total_agents (total : Z) (self : ProgressTracker) : ProgressTracker :=
  if bool_decide (total ≤ 0) then self
  else if bool_decide (total ≠ total_agents self) then
    {| operation_id := operation_id self;
       total_agents := total;
       start_time := start_time self;
       completed_agents := completed_agents self;
       agents_status := _ensure_agent_slots total (agents_status self) |}
  else self.

(** [update_agent_status] at clock reading [now];
    [self.agents_status[agent_id]] raises [KeyError] when the slot is
    still missing after [_ensure_agent_slots(agent_id)]. *)
Definition update_agent_status (agent : Z) (st subtopic_ : string) (progress now : Z)
    (self : ProgressTracker) : py ProgressTracker :=
  let slots :=
    match agents_status self !! agent with
    | Some _ => agents_status self
    | None => _ensure_agent_slots agent (agents_status self)
    end in
  match slots !! agent with
  | None => Raise (OtherException "KeyError")
  | Some slot =>
      let previous_status := slot_status slot in
      let slots :=
        <[agent := {| slot_status := st; slot_subtopic := subtopic_;
                      slot_progress := progress;
                      completed_at := if is_terminal st then Some now else None |}]>
          slots in
      Return
        {| operation_id := operation_id self;
           total_agents := total_agents self;
           start_time := start_time self;
           completed_agents :=
             if is_terminal st && negb (is_terminal previous_status)
             then Z.min (total_agents self) (completed_agents self + 1)
             else completed_agents self;
           agents_status := slots |}
  end.

(** The dict of [get_progress_data] without its three float entries
    ([progress_percentage], [elapsed_time], [estimated_remaining]). *)
Record progress_data := {
  pd_operation_id : string;
  pd_total_agents : Z;
  pd_completed_agents : Z;
  pd_agents_status : gmap Z agent_slot;
  pd_status : string;
  pd_type : option string;
}.

Definition get_progress_data (self : ProgressTracker) : progress_data :=
  {| pd_operation_id := operation_id self;
     pd_total_agents := total_agents self;
     pd_completed_agents := completed_agents self;
     pd_agents_status := agents_status self;
     pd_status := if bool_decide (completed_agents self = total_agents self)
                  then "completed" else "in_progress";
     pd_type := None |}.

(** One call of [update_agent_status] with its clock reading. *)
Record update_call := {
  uc_agent : Z;
  uc_status : string;
  uc_subtopic : string;
  uc_progress : Z;
  uc_now : Z;
}.

(** The tracker after a call; a call that raises leaves it as it was. *)
Definition after_call (self : ProgressTracker) (c : update_call) : ProgressTracker :=
  match update_agent_status (uc_agent c) (uc_status c) (uc_subtopic c)
          (uc_progress c) (uc_now c) self with
  | Return self' => self'
  | _ => self
  end.

(** The tracker after a sequence of calls. *)
Definition after_calls (self : ProgressTracker) (calls : list update_call)
  : ProgressTracker :=
  foldl after_call self calls.

(** ** [ai_service.py]: the progress table, the service entry point and
       the progress stream *)

(** The module-level dict [progress_store] holds references to tracker
    objects; an object stays alive, and can still be updated and read,
    after its entry has left the dict. *)
Record world := {
  progress_store : gmap string nat;
  objects : nat → ProgressTracker;
  next_object : nat;
}.

Definition set_object (l : nat) (tracker : ProgressTracker) (w : world) : world :=
  {| progress_store := progress_store w;
     objects := fun l' => if decide (l' = l) then tracker else objects w l';
     next_object := next_object w |}.

(** [ProgressTracker(operation_id, total_agents)]: a new object,
    registered under its operation id by the last line of [__init__]. *)
Definition new_tracker (op : string) (total now : Z) (w : world) : nat * world :=
  let l := next_object w in
  (l, {| progress_store := <[op := l]> (progress_store w);
         objects := fun l' => if decide (l' = l) then init_tracker op total now
                              else objects w l';
         next_object := S l |}).

Record FlashcardRequest := {
  rq_topic : string;
  rq_subject : string;
  rq_user_id : string;
  rq_difficulty : string;
  rq_count : Z;
}.

(** The closure [handle_progress] of [start_flashcard_generation] on the
    tracker object [l].  The generator calls it with worker numbers from
    1, for which [update_agent_status] returns; [after_call] leaves the
    tracker alone otherwise. *)
Definition handle_progress (l : nat) (now : Z) (w : world) (call : progress_call)
  : world :=
  let tracker := objects w l in
  let tracker :=
    match pc_total call with
    | Some total => set_total_agents total tracker
    | None => tracker
    end in
  set_object l
    (after_call tracker
       {| uc_agent := pc_agent call; uc_status := pc_status call;
          uc_subtopic := pc_subtopic call; uc_progress := pc_progress call;
          uc_now := now |}) w.

(** The closure [finalize_agents]. *)
Definition finalize_agents (l : nat) (now : Z) (request : FlashcardRequest)
    (st : string) (progress : Z) (w : world) : world :=
  set_object l
    (foldl (fun tracker agent_index =>
              after_call tracker
                {| uc_agent := agent_index; uc_status := st;
                   uc_subtopic := rq_topic request; uc_progress := progress;
                   uc_now := now |})
           (objects w l) (seqZ 1 (total_agents (objects w l)))) w.

(** What [start_flashcard_generation] returns: the dict built from a
    successful parallel run, the dict of the single-agent routine with
    its success flag, or the failure dict of the handler; each carries
    the operation id. *)
Inductive service_result :=
  | FromParallel (r : generation_result) (op : string)
  | FromSingleAgent (ok : bool) (op : string)
  | ServiceFailure (op : string).

Section Service.
Context `{rt : !PythonRuntime}.

(** [start_flashcard_generation].  [generator] is the pool size of the
    generator when [get_multi_agent_generator()] yields one, [op] the
    operation id drawn for this call, [single_agent] the outcome of
    [generate_flashcards_single_agent], [now] the clock reading used for
    the tracker. *)
Definition start_flashcard_generation (generator : option Z) (configured : bool)
    (decomposition : provider_outcome) (remote : Z → provider_outcome)
    (schedule : list nat) (single_agent : reply bool) (op : string) (now : Z)
    (request : FlashcardRequest) (w : world) : py service_result * world :=
  let estimated_agents :=
    match generator with
    | Some max_agents => estimate_batches max_agents (rq_count request)
    | None => 1
    end in
  let '(l, w) := new_tracker op estimated_agents now w in
  match generator with
  | None =>
      let w := handle_progress l now w
                 {| pc_agent := 1; pc_status := "processing";
                    pc_subtopic := rq_topic request; pc_progress := 10;
                    pc_total := Some 1 |} in
      match single_agent with
      | Failed e => (Raise e, w)
      | Replied ok =>
          let final_status := if ok then "completed" else "error" in
          (Return (FromSingleAgent ok op),
           finalize_agents l now request final_status 100 w)
      end
  | Some max_agents =>
      let run :=
        generate_flashcards_parallel configured decomposition remote schedule
          max_agents (rq_topic request) (rq_count request) (rq_difficulty request)
          (Some (rq_subject request)) (rq_user_id request) true in
      let w := foldl (handle_progress l now) w (calls_made run) in
      match returned run with
      | Unfinished => (Unfinished, w)
      | Raise _ =>
          (Return (ServiceFailure op), finalize_agents l now request "error" 100 w)
      | Return result =>
          if success result then (Return (FromParallel result op), w)
          else
            let w := finalize_agents l now request "processing" 10 w in
            match single_agent with
            | Failed _ =>
                (Return (ServiceFailure op),
                 finalize_agents l now request "error" 100 w)
            | Replied ok =>
                let final_status := if ok then "completed" else "error" in
                (Return (FromSingleAgent ok op),
                 finalize_agents l now request final_status 100 w)
            end
      end
  end.

(** [models/requests.py]: the constraint [Field(default=5, ge=1, le=30)]
    on [FlashcardRequest.count]; a body that violates it is refused with
    a validation error. *)
Definition validate_flashcard_request (body : FlashcardRequest) : py FlashcardRequest :=
  if bool_decide (1 ≤ rq_count body ≤ 30) then Return body
  else Raise (OtherException "ValidationError: count").

(** [routers/content_generation.py], [generate_flashcards_endpoint]: the
    body is validated against [FlashcardRequest] before the handler
    runs. *)
Definition generate_flashcards_endpoint (generator : option Z) (configured : bool)
    (decomposition : provider_outcome) (remote : Z → provider_outcome)
    (schedule : list nat) (single_agent : reply bool) (op : string) (now : Z)
    (body : FlashcardRequest) (w : world) : py service_result * world :=
  match validate_flashcard_request body with
  | Return request =>
      start_flashcard_generation generator configured decomposition remote
        schedule single_agent op now request w
  | Raise e => (Raise e, w)
  | Unfinished => (Unfinished, w)
  end.

End Service.

(** *** The progress stream *)

(** The events of the stream. *)
Inductive sse_event :=
  | Connected (op : string)
  | TimedOut
  | Progress (data : progress_data)
  | StreamError (message : string).

(** [json.dumps] of the progress dict: a [datetime] under
    [completed_at] is not serializable. *)
Definition json_dumps (data : progress_data) : py progress_data :=
  if forallb (fun entry => bool_decide (completed_at entry.2 = None))
             (map_to_list (pd_agents_status data))
  then Return data
  else Raise (OtherException "Object of type datetime is not JSON serializable").

Definition set_type (data : progress_data) (type : string) : progress_data :=
  {| pd_operation_id := pd_operation_id data;
     pd_total_agents := pd_total_agents data;
     pd_completed_agents := pd_completed_agents data;
     pd_agents_status := pd_agents_status data;
     pd_status := pd_status data;
     pd_type := Some type |}.

(** How far the generator got: it has ended, having removed the table
    entry or not, or it is still in its polling loop. *)
Inductive stream_end :=
  | Ended (released : bool)
  | StillPolling.

(** The events with the number of [asyncio.sleep(1)] calls completed
    when each is yielded. *)
Record stream := {
  emitted : list (nat * sse_event);
  ending : stream_end;
}.

Definition max_wait : Z := 30.

Section Stream.
(** [env n] is the table and the objects as the generator finds them
    after its [n]-th sleep: the other tasks run while it sleeps. *)
Variable env : nat → world.
Variable op : string.

(** The first loop of [generate_progress_events], with at most [fuel]
    iterations; the result is [wait_count] at the exit. *)
Fixpoint wait_for_operation (fuel : nat) (wait_count : Z) : py Z :=
  if bool_decide (progress_store (env (Z.to_nat wait_count)) !! op = None)
     && bool_decide (wait_count < max_wait)
  then
    match fuel with
    | O => Unfinished
    | S fuel => wait_for_operation fuel (wait_count + 1)
    end
  else Return wait_count.

(** The second loop and the final event, from the moment [slept] sleeps
    are over, on the tracker object [l], with at most [fuel]
    iterations. *)
Fixpoint poll (l : nat) (fuel : nat) (slept : nat) : stream :=
  let tracker := objects (env slept) l in
  if bool_decide (completed_agents tracker < total_agents tracker) then
    match fuel with
    | O => {| emitted := []; ending := StillPolling |}
    | S fuel =>
        let slept := S slept in
        match json_dumps (get_progress_data (objects (env slept) l)) with
        | Return data =>
            let rest := poll l fuel slept in
            {| emitted := (slept, Progress data) :: emitted rest;
               ending := ending rest |}
        | Raise e =>
            {| emitted := [(slept, StreamError (str_exn e))];
               ending := Ended false |}
        | Unfinished => {| emitted := []; ending := StillPolling |}
        end
    end
  else
    match json_dumps (set_type (get_progress_data tracker) "completed") with
    | Return data =>
        {| emitted := [(slept, Progress data)];
           ending := Ended (bool_decide (is_Some (progress_store (env slept) !! op))) |}
    | Raise e =>
        {| emitted := [(slept, StreamError (str_exn e))]; ending := Ended false |}
    | Unfinished => {| emitted := []; ending := StillPolling |}
    end.

(** [stream_progress]: the events of [generate_progress_events]; the
    first loop never needs more than [max_wait] iterations, the second is
    given [fuel]. *)
Definition stream_progress (fuel : nat) : stream :=
  let connected := (0%nat, Connected op) in
  match wait_for_operation (Z.to_nat max_wait) 0 with
  | Return wait_count =>
      let slept := Z.to_nat wait_count in
      match progress_store (env slept) !! op with
      | None =>
          {| emitted := [connected; (slept, TimedOut)]; ending := Ended false |}
      | Some l =>
          let rest := poll l fuel slept in
          {| emitted := connected :: emitted rest; ending := ending rest |}
      end
  | _ => {| emitted := [connected]; ending := StillPolling |}
  end.

End Stream.

(** ** Notions used in the statements *)

(** The planner as the specification words it: [base] items for every
    batch, one more for the first [remainder] batches. *)
Definition spec_share (total_count workers_used index : Z) : Z :=
  let base := total_count / workers_used in
  let remainder := total_count mod workers_used in
  if bool_decide (index < remainder) then base + 1 else base.

Section Notions.
Context `{rt : !PythonRuntime}.

(** What [_create_batches] puts into the batch planned for [index]. *)
Definition planned (state : MultiAgentFlashcardState) (subtopics : json)
    (flashcards_per_agent remaining : Z) (index : Z) (batch : FlashcardBatch) : Prop :=
  count batch = flashcards_per_agent + (if bool_decide (index < remaining) then 1 else 0)
  ∧ agent_id batch = index + 1
  ∧ (py_index subtopics index ≫= validate_str) = Return (subtopic batch)
  ∧ topic batch = st_topic state
  ∧ difficulty batch = st_difficulty state
  ∧ status batch = "pending"
  ∧ flashcards batch = JArr []
  ∧ error_message batch = None.

(** The decomposition yields the labels [labels]: the provider is not
    configured, the request or the decoding fails (no label), or the
    reply decodes to a list of strings. *)
Definition yields_labels (configured : bool) (decomposition : provider_outcome)
    (labels : list string) : Prop :=
  if configured then try_decompose configured decomposition = JArr (JStr <$> labels)
  else labels = [].


(** The batch task [t] hands back. *)
Definition batch_after (configured : bool) (remote : Z → provider_outcome)
    (progress_callback : bool) (total_batches : Z) (t : task) : FlashcardBatch :=
  match (finish_batch configured (remote (task_agent t)) progress_callback
           (task_agent t) (task_batch t) total_batches).1 with
  | Return batch => batch
  | _ => task_batch t
  end.

(** The flashcards a returned batch contributes to the aggregate. *)
Definition cards_of (batch : FlashcardBatch) : list json :=
  if decide (status batch = "completed") then
    match py_iter (flashcards batch) with
    | Return cards => cards
    | _ => []
    end
  else [].

End Notions.

(** The tasks of the batches: each batch is run by the agent whose
    number it carries. *)
Definition tasks_of (planned_batches : list FlashcardBatch) : list task :=
  (fun batch => {| task_agent := agent_id batch; task_batch := batch |})
    <$> planned_batches.

(** A schedule that resumes each of the first [n] tasks at least twice:
    once to start it, once when its provider request is over. *)
Definition resumed_twice (n : nat) (schedule : list nat) : Prop :=
  ∀ i : nat, (i < n)%nat → (2 ≤ length (filter (fun j => j = i) schedule))%nat.

(** How the returned dict [r] and the final state [st] relate to the
    batches [rs] handed back by the workers. *)
Definition concluded (rs : list FlashcardBatch) (r : generation_result)
    (st : MultiAgentFlashcardState) : Prop :=
  batches st = rs
  ∧ completed_flashcards st = rs ≫= cards_of
  ∧ (success r = true ↔ completed_flashcards st ≠ [])
  ∧ (success r = true →
       res_flashcards r = Some (completed_flashcards st)
       ∧ batches_completed r
         = Some (Z.of_nat (length (filter (fun b => status b = "completed") rs)))
       ∧ batches_failed r
         = Some (Z.of_nat (length (filter (fun b => status b = "error") rs))))
  ∧ (success r = false →
       failed_batches r
       = Some (Z.of_nat (length (filter (fun b => status b = "error") rs)))).

(** The status the tracker holds for a worker; a worker without a slot
    gets the waiting slot as soon as it is looked at. *)
Definition status_of (self : ProgressTracker) (agent : Z) : string :=
  match agents_status self !! agent with
  | Some slot => slot_status slot
  | None => "waiting"
  end.

(** The workers some call of the sequence reports as completed or in
    error. *)
Definition terminal_workers (calls : list update_call) : gset Z :=
  list_to_set (uc_agent <$> filter (fun c => is_terminal (uc_status c) = true) calls).

(** Once a worker has been reported as completed or in error, every
    later call for that worker reports completed or error again. *)
Definition never_reopened (calls : list update_call) : Prop :=
  ∀ (i j : nat) ci cj,
    (i < j)%nat → calls !! i = Some ci → calls !! j = Some cj →
    uc_agent ci = uc_agent cj →
    is_terminal (uc_status ci) = true → is_terminal (uc_status cj) = true.

(** The claim that the counter counts every worker once, whatever the
    sequence of calls. *)
Definition counted_once_per_worker (total : Z) (calls : list update_call) : Prop :=
  completed_agents (after_calls (init_tracker "op" total 0) calls)
  = Z.of_nat (size (terminal_workers calls)).

(** Worker 1 completes, is set back to processing, and completes again. *)
Definition reopening_calls : list update_call :=
  [ {| uc_agent := 1; uc_status := "completed"; uc_subtopic := "Light";
       uc_progress := 100; uc_now := 10 |};
    {| uc_agent := 1; uc_status := "processing"; uc_subtopic := "Light";
       uc_progress := 10; uc_now := 11 |};
    {| uc_agent := 1; uc_status := "completed"; uc_subtopic := "Light";
       uc_progress := 100; uc_now := 12 |} ].

(** Three workers report in turn; worker 2 reports its error twice. *)
Definition forward_calls : list update_call :=
  [ {| uc_agent := 1; uc_status := "processing"; uc_subtopic := "Light";
       uc_progress := 5; uc_now := 1 |};
    {| uc_agent := 2; uc_status := "error"; uc_subtopic := "Dark";
       uc_progress := 100; uc_now := 2 |};
    {| uc_agent := 1; uc_status := "completed"; uc_subtopic := "Light";
       uc_progress := 100; uc_now := 3 |};
    {| uc_agent := 2; uc_status := "error"; uc_subtopic := "Dark";
       uc_progress := 100; uc_now := 4 |};
    {| uc_agent := 3; uc_status := "queued"; uc_subtopic := "Stomata";
       uc_progress := 0; uc_now := 5 |} ].

(** A flashcard that carries the number of the worker that made it. *)
Definition tagged_by (item : json) (worker : Z) : Prop :=
  ∃ fields, item = JObj fields ∧ dict_get "agent_id" fields = Some (JNum worker).

(** ** Concrete scenarios *)

(** A stand-in for the library functions: the provider texts named here
    decode to JSON (objects with and without flashcards, lists of labels,
    an object holding labels, the number 7 and the empty object, the last
    two under their own JSON text), every other text is rejected by
    [json.loads]. *)
Definition scenario_runtime : PythonRuntime := {|
  json_loads := fun content =>
    if decide (content = "two cards") then
      inr (JObj [("flashcards",
                  JArr [JObj [("front", JStr "Q1"); ("back", JStr "A1")];
                        JObj [("front", JStr "Q2"); ("back", JStr "A2")]])])
    else if decide (content = "one card") then
      inr (JObj [("flashcards", JArr [JObj [("front", JStr "Q"); ("back", JStr "A")]])])
    else if decide (content = "no cards") then
      inr (JObj [("note", JStr "nothing to report")])
    else if decide (content = "two labels") then
      inr (JArr [JStr "Light reactions"; JStr "Calvin cycle"])
    else if decide (content = "five labels") then
      inr (JArr [JStr "Light reactions"; JStr "Calvin cycle"; JStr "Stomata";
                 JStr "Pigments"; JStr "C4"])
    else if decide (content = "labels in an object") then
      inr (JObj [("subtopics", JArr [JStr "Light reactions"; JStr "Calvin cycle"])])
    else if decide (content = "7") then inr (JNum 7)
    else if decide (content = "{}") then inr (JObj [])
    else inl "Expecting value: line 1 column 1 (char 0)";
  str_strip := fun s => s;
  str_replace := fun _ _ s => s;
  uuid4 := fun n => "batch-" +:+ pretty (Z.of_nat n);
  isoformat_now := fun _ _ => "2024-01-01T00:00:00";
  str_chars := fun s => (fun c => String c EmptyString) <$> list_ascii_of_string s;
  pydantic_str := fun _ => inl "Input should be a valid string";
  dict_slice_message := fun _ => "unhashable type: 'slice'";
|}.

(** [Generate(topic="Photosynthesis", totalCount=10, ...)] just after
    the state object is built. *)
Definition photosynthesis_state : MultiAgentFlashcardState := {|
  st_topic := "Photosynthesis"; total_count := 10; st_difficulty := "medium";
  subject := None; user_id := "default"; batches := [];
  completed_flashcards := []; st_status := "initializing"; agents_count := 1;
|}.

(** Three flashcards over a pool of four workers; the provider fails for
    worker 2 and sends one card to each of the others. *)
Definition scenario_remote (agent : Z) : provider_outcome :=
  if decide (agent = 2) then Failed (OtherException "provider fault")
  else Replied "one card".

Definition scenario_run (schedule : list nat) : run_outcome :=
  generate_flashcards_parallel (rt := scenario_runtime) true
    (Failed (RuntimeError "down")) scenario_remote schedule 4
    "Photosynthesis" 3 "medium" None "default" true.

(** The three tasks start in order; the last one finishes first. *)
Definition last_finishes_first : list nat := [0; 1; 2; 2; 1; 0]%nat.

(** The plan of that run: the state and the three batches the planner
    returns. *)
Definition scenario_plan : MultiAgentFlashcardState * list FlashcardBatch :=
  Eval vm_compute in
    match _create_batches (rt := scenario_runtime) true (Failed (RuntimeError "down")) 4
            (new_state "Photosynthesis" 3 "medium" None "default") with
    | Return plan => plan
    | _ => (new_state "Photosynthesis" 3 "medium" None "default", [])
    end.

Definition scenario_result : generation_result :=
  Eval vm_compute in
    match returned (scenario_run last_finishes_first) with
    | Return r => r
    | _ => failure EmptyString
    end.


(** The batch of worker 2 in that run, as planned. *)
Definition scenario_batch : FlashcardBatch := {|
  batch_id := "batch-1"; topic := "Photosynthesis";
  subtopic := "Photosynthesis - Parte 2"; count := 1; difficulty := "medium";
  agent_id := 2; flashcards := JArr []; status := "pending";
  error_message := None;
|}.

(** The number of timeout events among the events of a stream. *)
Definition is_timeout (event : sse_event) : bool :=
  match event with
  | TimedOut => true
  | _ => false
  end.

Definition count_timeouts (events : list (nat * sse_event)) : nat :=
  length (filter (fun e => is_timeout e.2 = true) events).

(** The inputs the orchestrator rejects. *)
Definition rejected_input (configured : bool) (count_ : Z) : Prop :=
  configured = false ∨ count_ ≤ 0.

(** A table without entries. *)
Definition empty_world : world := {|
  progress_store := ∅;
  objects := fun _ => init_tracker EmptyString 1 0;
  next_object := 0;
|}.

Definition scenario_request : FlashcardRequest := {|
  rq_topic := "Photosynthesis"; rq_subject := "Biology"; rq_user_id := "u1";
  rq_difficulty := "medium"; rq_count := 5;
|}.

(** A valid request for five flashcards while the provider is not
    configured and no single agent is available. *)
Definition unconfigured_start : py service_result * world :=
  generate_flashcards_endpoint (rt := scenario_runtime) (Some 4) false
    (Failed (RuntimeError "down")) scenario_remote [] (Replied false)
    "flashcards_1a2b3c4d" 0 scenario_request empty_world.

(** A table in which no operation is ever registered. *)
Definition idle_env (n : nat) : world := empty_world.

(** ** Notions used in the further properties *)

Definition is_object (value : json) : bool :=
  match value with
  | JObj _ => true
  | _ => false
  end.

(** The values of the key [flashcards] the tagging loop accepts: a list
    of dicts, or an empty dict or string. *)
Definition taggable (value : json) : bool :=
  match value with
  | JArr items => forallb is_object items
  | JObj [] => true
  | JStr EmptyString => true
  | _ => false
  end.



(** One operation on a tracker: [set_total_agents] or
    [update_agent_status]. *)
Inductive tracker_op :=
  | SetTotal (total : Z)
  | Update (c : update_call).

Definition after_op (self : ProgressTracker) (o : tracker_op) : ProgressTracker :=
  match o with
  | SetTotal total => set_total_agents total self
  | Update c => after_call self c
  end.

(** The workers among 1 .. [total_agents] the tracker shows as completed
    or in error. *)
Definition finished_workers (self : ProgressTracker) : list Z :=
  filter (fun i => is_terminal (status_of self i) = true)
         (seqZ 1 (total_agents self)).

(** The counter is between the number of workers shown as finished and
    the total. *)
Definition balanced (self : ProgressTracker) : Prop :=
  Z.of_nat (length (finished_workers self)) ≤ completed_agents self
  ∧ completed_agents self ≤ total_agents self.

(** A slot carries a completion time exactly when its status is
    completed or error. *)
Definition stamped (self : ProgressTracker) : Prop :=
  ∀ i slot, agents_status self !! i = Some slot →
    (is_Some (completed_at slot) ↔ is_terminal (slot_status slot) = true).

(** The call of [update_agent_status] the closure [handle_progress]
    makes for a call of the callback. *)
Definition to_update (now : Z) (c : progress_call) : update_call :=
  {| uc_agent := pc_agent c; uc_status := pc_status c;
     uc_subtopic := pc_subtopic c; uc_progress := pc_progress c;
     uc_now := now |}.

(** The calls of [finalize_agents] on a tracker with [total] workers. *)
Definition finalize_calls (now : Z) (topic_ st : string) (progress total : Z)
  : list update_call :=
  (fun agent_index =>
     {| uc_agent := agent_index; uc_status := st; uc_subtopic := topic_;
        uc_progress := progress; uc_now := now |}) <$> seqZ 1 total.

(** The tracker of a new operation once its callback has received
    [calls]. *)
Definition tracker_after (op : string) (estimated now : Z) (calls : list progress_call)
  : ProgressTracker :=
  let created := new_tracker op estimated now empty_world in
  objects (foldl (handle_progress created.1 now) created.2 calls) created.1.

(** The number of times a schedule resumes task [i]. *)
Definition resumes (schedule : list nat) (i : nat) : nat :=
  length (filter (fun j => j = i) schedule).

Section Replies.
Context `{rt : !PythonRuntime}.

(** The provider outcomes a worker turns into a completed batch. *)
Definition usable_reply (remote : provider_outcome) : bool :=
  match remote with
  | Replied content =>
      match json_loads (strip_code_fence content) with
      | inr (JObj fields) => taggable (default (JArr []) (dict_get "flashcards" fields))
      | _ => false
      end
  | Failed _ => false
  end.

End Replies.

(** The keys of [agents_status] are worker numbers from 1, and the
    workers 1 .. [total_agents] all have a slot. *)
Definition slots_in_place (self : ProgressTracker) : Prop :=
  (∀ i, is_Some (agents_status self !! i) → 1 ≤ i)
  ∧ (∀ i, 1 ≤ i ≤ total_agents self → is_Some (agents_status self !! i)).


(** Three tasks of which the last is done and the others wait for the
    provider. *)
Definition last_done_only : list nat := [0; 1; 2; 2]%nat.

(** Four tasks, each resumed twice. *)
Definition four_tasks_twice : list nat := [0; 1; 2; 3; 3; 2; 1; 0]%nat.

(** A request for five flashcards served by a pool of four agents. *)
Definition scenario_service : py service_result * world :=
  start_flashcard_generation (rt := scenario_runtime) (Some 4) true
    (Failed (RuntimeError "down")) scenario_remote four_tasks_twice
    (Replied false) "flashcards_1a2b3c4d" 0 scenario_request empty_world.

Definition scenario_service_result : service_result :=
  Eval vm_compute in
    match scenario_service.1 with
    | Return r => r
    | _ => ServiceFailure EmptyString
    end.

(** The events of the polling loop: progress dicts without a type. *)
Definition is_update (event : sse_event) : bool :=
  match event with
  | Progress data => bool_decide (pd_type data = None)
  | _ => false
  end.

(** The events after which the generator ends: timeout, error, and the
    progress dict of type completed. *)
Definition is_closing (event : sse_event) : bool :=
  match event with
  | TimedOut | StreamError _ => true
  | Progress data => bool_decide (pd_type data = Some "completed")
  | Connected _ => false
  end.


(** ** [database_service.py] and [ai_service.py]: the chat and its cache *)

(** A message as the chat keeps it: [{"role": ..., "content": ...}]. *)
Record chat_message := { msg_role : string; msg_content : string }.

(** The module-level dict [conversation_cache] is a map from keys to
    lists of messages.  Its values are list objects: a list handed out
    by [dict.get] is the list the dict holds, and appending to it changes
    the cache. *)

(** [f"{user_id}_{conversation_id}"] *)
Definition cache_key (user_id_ conversation_id : string) : string :=
  user_id_ +:+ "_" +:+ conversation_id.

(** [l[-k:]] for a positive [k] *)
Definition last_items {A} (k : nat) (l : list A) : list A :=
  drop (length l - k) l.

(** [get_conversation_history].  [database] is [None] when there is no
    Supabase client, otherwise the outcome of the query, every row
    reduced to its role and content.  The result is the list and whether
    it is the list object held by the cache: the default [[]] of
    [dict.get] and the list built from the rows are new objects. *)
Definition get_conversation_history (database : option (reply (list chat_message)))
    (cache : gmap string (list chat_message)) (conversation_id user_id_ : string)
  : list chat_message * bool :=
  match database with
  | Some (Replied rows) => (rows, false)
  | _ =>
      match cache !! cache_key user_id_ conversation_id with
      | Some cached => (cached, true)
      | None => ([], false)
      end
  end.

(** The text returned when the provider is not configured. *)
Definition unavailable_reply (message : string) : string :=
  "Ola! Sou a Lia, sua assistente de estudos! "
  +:+ "Voce perguntou: '" +:+ message
  +:+ "'. Infelizmente, nao tenho acesso a API da OpenAI no momento, "
  +:+ "mas estou aqui para ajudar! Configure a OPENAI_API_KEY para ter acesso "
  +:+ "completo as minhas funcionalidades de IA.".

(** The text returned when the [try] block raises. *)
Definition apology : string :=
  "Desculpe, tive um problema técnico ao responder agora. "
  +:+ "Tente novamente em instantes, por favor.".

(** What a call of [chat_with_lia] leaves behind: the value returned or
    the exception raised, the messages passed to the provider when it
    was called, and the cache. *)
Record chat_run := {
  chat_returned : reply string;
  chat_sent : option (list chat_message);
  chat_cache : gmap string (list chat_message);
}.

(** [chat_with_lia].  [system_prompt] is the outcome of
    [create_personalized_system_prompt] on the profile of the user,
    [remote] the outcome of the provider request with the extraction of
    its text.  The calls that write to the database catch their own
    exceptions and touch neither the cache nor the result; they are not
    represented. *)
Definition chat_with_lia (system_prompt : reply string)
    (database : option (reply (list chat_message))) (configured : bool)
    (remote : reply string) (cache : gmap string (list chat_message))
    (message conversation_id user_id_ : string) : chat_run :=
  match system_prompt with
  | Failed e => {| chat_returned := Failed e; chat_sent := None; chat_cache := cache |}
  | Replied prompt =>
      let cache_key_ := cache_key user_id_ conversation_id in
      let user_message := {| msg_role := "user"; msg_content := message |} in
      let '(history, shared) :=
        get_conversation_history database cache conversation_id user_id_ in
      let conversation_history := history ++ [user_message] in
      let cache :=
        if shared then <[cache_key_ := conversation_history]> cache else cache in
      let messages :=
        {| msg_role := "system"; msg_content := prompt |}
        :: last_items 10 conversation_history in
      let outcome :=
        if configured then remote else Replied (unavailable_reply message) in
      let sent := if configured then Some messages else None in
      match outcome with
      | Replied lia_response =>
          let cached :=
            default [] (cache !! cache_key_)
            ++ [user_message;
                {| msg_role := "assistant"; msg_content := lia_response |}] in
          let cached :=
            if bool_decide (20 < length cached)%nat then last_items 20 cached
            else cached in
          {| chat_returned := Replied lia_response; chat_sent := sent;
             chat_cache := <[cache_key_ := cached]> cache |}
      | Failed _ =>
          {| chat_returned := Replied apology; chat_sent := sent;
             chat_cache := cache |}
      end
  end.

(** [models/responses.py], [ChatResponse], without [message_id], which
    is made of a clock reading and a random suffix. *)
Record ChatResponse := {
  cr_success : bool;
  cr_conversation_id : string;
  cr_response : option string;
  cr_error : option string;
}.

(** [handle_chat] *)
Definition handle_chat (system_prompt : reply string)
    (database : option (reply (list chat_message))) (configured : bool)
    (remote : reply string) (cache : gmap string (list chat_message))
    (message conversation_id user_id_ : string)
  : ChatResponse * gmap string (list chat_message) :=
  let run := chat_with_lia system_prompt database configured remote cache
               message conversation_id user_id_ in
  match chat_returned run with
  | Replied response_text =>
      ({| cr_success := true; cr_conversation_id := conversation_id;
          cr_response := Some response_text; cr_error := None |},
       chat_cache run)
  | Failed exc =>
      ({| cr_success := false; cr_conversation_id := conversation_id;
          cr_response := None; cr_error := Some (str_exn exc) |},
       chat_cache run)
  end.

(** *** Notions and scenarios for the chat *)

Definition user_message (message : string) : chat_message :=
  {| msg_role := "user"; msg_content := message |}.

Definition assistant_message (text : string) : chat_message :=
  {| msg_role := "assistant"; msg_content := text |}.

(** The cache after a series of chats of one conversation. *)
Definition chats (system_prompt : reply string)
    (database : option (reply (list chat_message))) (configured : bool)
    (remote : reply string) (cache : gmap string (list chat_message))
    (messages : list string) (conversation_id user_id_ : string)
  : gmap string (list chat_message) :=
  foldl (fun cache message =>
           chat_cache (chat_with_lia system_prompt database configured remote cache
                         message conversation_id user_id_))
        cache messages.

(** A cache that holds one exchange of conversation [c1] of user [u1]. *)
Definition one_exchange : gmap string (list chat_message) :=
  {[ "u1_c1" := [user_message "What is a cell?";
                 assistant_message "The unit of life."] ]}.
(** * Properties *)

(** ** The subtopic helper *)

Section Planner.
Context `{rt : !PythonRuntime}.

(** On a list the loop appends the labels of the missing parts. *)
Lemma pad_subtopics_list fuel main_topic count items :
  (count - Z.of_nat (length items) ≤ Z.of_nat fuel) →
  pad_subtopics fuel main_topic count (JArr items) =
  Return (JArr (items ++
                ((fun i => JStr (part_label main_topic (i + 1))) <$>
                   seqZ (Z.of_nat (length items)) (count - Z.of_nat (length items))))).
Proof.
  revert items. induction fuel as [|fuel IH]; intros items Hfuel.
  - simpl. rewrite bool_decide_eq_false_2 by lia.
    unfold seqZ. replace (Z.to_nat _) with 0%nat by lia. simpl.
    by rewrite app_nil_r.
  - simpl. case_bool_decide as Hlt.
    + rewrite IH by (rewrite length_app; simpl; lia).
      do 2 f_equal. rewrite <- app_assoc. f_equal.
      rewrite (seqZ_cons (Z.of_nat (length items))) by lia.
      rewrite length_app. simpl. do 3 f_equal; lia.
    + unfold seqZ. replace (Z.to_nat _) with 0%nat by lia. simpl.
      by rewrite app_nil_r.
Qed.

(** With [count] iterations allowed the loop always ends: it returns, or
    it raises on a value that has no length or cannot be appended to. *)
Lemma pad_subtopics_ends fuel main_topic count subtopics :
  count ≤ Z.of_nat fuel →
  (∃ padded, pad_subtopics fuel main_topic count subtopics = Return padded)
  ∨ (∃ message,
       pad_subtopics fuel main_topic count subtopics
       = Raise (OtherException message)).
Proof.
  intros Hfuel. destruct subtopics as [| | |s|items|fields].
  1-3: by (right; destruct fuel; eexists).
  - destruct fuel as [|fuel]; simpl; case_bool_decide; try lia;
      [left|right|left]; by eexists.
  - left. rewrite pad_subtopics_list by lia. by eexists.
  - destruct fuel as [|fuel]; simpl; case_bool_decide; try lia;
      [left|right|left]; by eexists.
Qed.

Lemma slice_to_nonneg {A} (l : list A) (stop : Z) :
  0 ≤ stop → slice_to l stop = take (Z.to_nat stop) l.
Proof. intros. unfold slice_to. by rewrite bool_decide_eq_true_2. Qed.

(** [_generate_subtopics] returns or raises, whatever the reply. *)
Lemma generate_subtopics_ends configured decomposition main_topic count :
  (∃ subtopics,
     _generate_subtopics configured decomposition main_topic count = Return subtopics)
  ∨ (∃ message,
       _generate_subtopics configured decomposition main_topic count
       = Raise (OtherException message)).
Proof.
  unfold _generate_subtopics. destruct configured; simpl; [|left; by eexists].
  destruct (pad_subtopics_ends (Z.to_nat count) main_topic count
              (try_decompose true decomposition)) as [[padded ->]|[message ->]];
    [lia| |right; by eexists].
  simpl. destruct padded; simpl; (left; by eexists) || (right; by eexists).
Qed.

(** What [_generate_subtopics] returns when the decomposition yields
    labels and the count is not negative: the first [count] labels, each
    missing position [i] (0-based) holding the label of part [i + 1]. *)
Lemma generate_subtopics_returns configured decomposition labels main_topic count :
  yields_labels configured decomposition labels →
  0 ≤ count →
  ∃ out,
    _generate_subtopics configured decomposition main_topic count
    = Return (JArr (JStr <$> out))
    ∧ length out = Z.to_nat count
    ∧ ∀ i : nat, (i < Z.to_nat count)%nat →
        out !! i =
        Some (default (part_label main_topic (Z.of_nat i + 1)) (labels !! i)).
Proof.
  intros Hlabels Hcount. unfold _generate_subtopics, yields_labels in *.
  destruct configured; simpl.
  - rewrite Hlabels, pad_subtopics_list by (rewrite length_fmap; lia). simpl.
    rewrite slice_to_nonneg, length_fmap by done.
    exists (take (Z.to_nat count)
              (labels ++ ((fun i => part_label main_topic (i + 1)) <$>
                            seqZ (Z.of_nat (length labels))
                                 (count - Z.of_nat (length labels))))).
    split; [|split].
    + by rewrite fmap_take, fmap_app, <- list_fmap_compose.
    + rewrite length_take, length_app, length_fmap, length_seqZ. lia.
    + intros i Hi. rewrite lookup_take_lt by done.
      destruct (labels !! i) as [l|] eqn:Hgot.
      * by rewrite lookup_app_l, Hgot by (by eapply lookup_lt_Some).
      * apply lookup_ge_None in Hgot.
        rewrite lookup_app_r by done. rewrite list_lookup_fmap.
        rewrite lookup_seqZ_lt by lia. simpl. do 2 f_equal. lia.
  - subst labels.
    exists ((fun i => part_label main_topic (i + 1)) <$> seqZ 0 count).
    split; [by rewrite <- list_fmap_compose|]. split.
    + by rewrite length_fmap, length_seqZ.
    + intros i Hi. rewrite list_lookup_fmap, lookup_seqZ_lt by lia.
      simpl. do 2 f_equal.
Qed.

(** ** The batch planner *)

Lemma sum_Z_app (l k : list Z) : sum_Z (l ++ k) = sum_Z l + sum_Z k.
Proof. unfold sum_Z. induction l as [|x l IH]; simpl; lia. Qed.

Lemma sum_Z_shares (base remainder : Z) (n : nat) :
  0 ≤ remainder →
  sum_Z ((fun i => base + (if bool_decide (i < remainder) then 1 else 0))
           <$> seqZ 0 (Z.of_nat n))
  = Z.of_nat n * base + Z.min (Z.of_nat n) remainder.
Proof.
  intros Hrem. induction n as [|n IH].
  - simpl. lia.
  - rewrite seqZ_S, fmap_app, sum_Z_app, IH. simpl.
    case_bool_decide; lia.
Qed.

Lemma py_index_ends subtopics index :
  (∃ subtopic_, (py_index subtopics index ≫= validate_str) = Return subtopic_)
  ∨ (∃ message, (py_index subtopics index ≫= validate_str)
                = Raise (OtherException message)).
Proof.
  assert (∀ label, (∃ s, validate_str label = Return s)
                   ∨ (∃ message, validate_str label = Raise (OtherException message)))
    as Hvalidate.
  { intros label. unfold validate_str.
    destruct label; try (left; by eexists);
      destruct (pydantic_str _); (left; by eexists) || (right; by eexists). }
  assert (∀ A (l : list A) i,
            (∃ x, list_index l i = Return x)
            ∨ list_index l i = Raise (OtherException "list index out of range"))
    as Hindex.
  { intros A l i. unfold list_index. destruct (_ ≫= _); [left; by eexists|by right]. }
  destruct subtopics as [| | |s|items|fields]; simpl;
    try (right; by eexists).
  - destruct (Hindex _ (str_chars s) index) as [[c ->] | ->]; simpl;
      [left|right]; by eexists.
  - destruct (Hindex _ items index) as [[label ->] | ->]; simpl;
      [apply Hvalidate|right; by eexists].
Qed.

(** The loop returns one batch per index, or raises at the first index
    whose label is missing or is not accepted as a string. *)
Lemma plan_batches_ends state subtopics flashcards_per_agent remaining indices acc :
  1 ≤ flashcards_per_agent → 0 ≤ remaining →
  (∃ message,
     plan_batches state subtopics flashcards_per_agent remaining indices acc
     = Raise (OtherException message))
  ∨ (∃ bs,
       plan_batches state subtopics flashcards_per_agent remaining indices acc
       = Return (acc ++ bs)
       ∧ Forall2 (planned state subtopics flashcards_per_agent remaining) indices bs).
Proof.
  intros Hfpa Hrem. revert acc.
  induction indices as [|index rest IH]; intros acc; simpl.
  - right. exists []. by rewrite app_nil_r.
  - rewrite bool_decide_eq_false_2 by (case_bool_decide; lia).
    destruct (py_index_ends subtopics index) as [[subtopic_ Hlabel]|[message Hlabel]].
    + destruct (py_index subtopics index) as [label|e|] eqn:Hindex;
        simpl in *; try done.
      rewrite Hlabel. simpl.
      edestruct IH as [[message ->]|(bs & -> & Hbs)]; [left; by eexists|].
      right. eexists (_ :: bs). rewrite <- app_assoc. split; [done|].
      constructor; [|done]. unfold planned. rewrite Hindex. by repeat split.
    + left. exists message.
      destruct (py_index subtopics index) as [label|e|]; simpl in *;
        [by rewrite Hlabel | by simplify_eq | done].
Qed.

Lemma planned_counts state subtopics flashcards_per_agent remaining indices bs :
  Forall2 (planned state subtopics flashcards_per_agent remaining) indices bs →
  count <$> bs =
  (fun i => flashcards_per_agent + (if bool_decide (i < remaining) then 1 else 0))
    <$> indices.
Proof.
  induction 1 as [|index b indices bs Hb _ IH]; [done|].
  simpl. f_equal; [apply Hb | done].
Qed.

Lemma planned_ids state subtopics flashcards_per_agent remaining indices bs :
  Forall2 (planned state subtopics flashcards_per_agent remaining) indices bs →
  agent_id <$> bs = (fun i => i + 1) <$> indices.
Proof.
  induction 1 as [|index b indices bs Hb _ IH]; [done|].
  simpl. f_equal; [apply Hb | done].
Qed.

(** [_create_batches] on any input: it raises, in the helper or at a
    label, or it returns one batch per index. *)
Lemma create_batches_ends configured decomposition max_agents state :
  let agents_to_use := Z.max 1 (Z.min max_agents (total_count state)) in
  (∃ message,
     _create_batches configured decomposition max_agents state
     = Raise (OtherException message))
  ∨ (∃ subtopics batches,
       _generate_subtopics configured decomposition (st_topic state) agents_to_use
       = Return subtopics
       ∧ _create_batches configured decomposition max_agents state
         = Return (set_agents_count state agents_to_use, batches)
       ∧ Forall2 (planned state subtopics
                    (Z.max 1 (total_count state / agents_to_use))
                    (total_count state mod agents_to_use))
                 (seqZ 0 agents_to_use) batches).
Proof.
  intros agents_to_use. unfold _create_batches. fold agents_to_use. simpl.
  destruct (generate_subtopics_ends configured decomposition (st_topic state)
              agents_to_use) as [[subtopics Hsub]|[message Hsub]]; rewrite Hsub; simpl;
    [|left; by eexists].
  destruct (plan_batches_ends (set_agents_count state agents_to_use) subtopics
              (Z.max 1 (total_count state / agents_to_use))
              (total_count state mod agents_to_use)
              (seqZ 0 agents_to_use) []) as [[message Hrun]|(bs & Hrun & Hbs)].
  - lia.
  - apply Z.mod_pos_bound. lia.
  - left. exists message. simpl in Hrun. by rewrite Hrun.
  - right. exists subtopics, bs. split; [done|]. split; [|done].
    simpl in Hrun. by rewrite Hrun.
Qed.

Lemma planned_pending state subtopics flashcards_per_agent remaining indices bs :
  Forall2 (planned state subtopics flashcards_per_agent remaining) indices bs →
  Forall (fun b => status b = "pending") bs.
Proof. induction 1 as [|index b indices bs Hb _ IH]; constructor; [apply Hb|done]. Qed.

(** The planner raises, or it returns batches numbered 1, 2, ... in
    order, all pending. *)
Lemma create_batches_ids configured decomposition max_agents state :
  let workers := Z.max 1 (Z.min max_agents (total_count state)) in
  (∃ message,
     _create_batches configured decomposition max_agents state
     = Raise (OtherException message))
  ∨ (∃ batches,
       _create_batches configured decomposition max_agents state
       = Return (set_agents_count state workers, batches)
       ∧ agent_id <$> batches = (fun i => i + 1) <$> seqZ 0 workers
       ∧ Forall (fun b => status b = "pending") batches).
Proof.
  intros workers.
  destruct (create_batches_ends configured decomposition max_agents state)
    as [Hraise|(subtopics & batches & _ & Hrun & Hplanned)]; [by left|].
  right. exists batches. split; [done|]. split.
  - by rewrite (planned_ids _ _ _ _ _ _ Hplanned).
  - by eapply planned_pending.
Qed.

(** What a plan the planner has returned looks like. *)
Lemma create_batches_plan configured decomposition max_agents state state1 bs :
  _create_batches configured decomposition max_agents state = Return (state1, bs) →
  let workers := Z.max 1 (Z.min max_agents (total_count state)) in
  state1 = set_agents_count state workers
  ∧ agent_id <$> bs = (fun i => i + 1) <$> seqZ 0 workers
  ∧ length bs = Z.to_nat workers
  ∧ Forall (fun b => status b = "pending") bs.
Proof.
  intros Hplan workers.
  destruct (create_batches_ids configured decomposition max_agents state)
    as [[message Hraise]|(batches & Hrun & Hids & Hpending)]; [congruence|].
  rewrite Hrun in Hplan. injection Hplan as <- <-.
  repeat split; try done.
  by rewrite <- (length_fmap agent_id), Hids, length_fmap, length_seqZ.
Qed.

(** When the decomposition yields labels, [_create_batches] returns: the
    helper hands back one label per index, so [subtopics[index]] is
    always in range and always a string. *)
Lemma create_batches_returns configured decomposition labels max_agents state :
  yields_labels configured decomposition labels →
  let agents_to_use := Z.max 1 (Z.min max_agents (total_count state)) in
  ∃ out batches,
    _generate_subtopics configured decomposition (st_topic state) agents_to_use
      = Return (JArr (JStr <$> out))
    ∧ _create_batches configured decomposition max_agents state
      = Return (set_agents_count state agents_to_use, batches)
    ∧ Forall2 (planned state (JArr (JStr <$> out))
                 (Z.max 1 (total_count state / agents_to_use))
                 (total_count state mod agents_to_use))
              (seqZ 0 agents_to_use) batches.
Proof.
  intros Hlabels agents_to_use.
  destruct (generate_subtopics_returns configured decomposition labels (st_topic state)
              agents_to_use Hlabels) as (out & Hsub & Hlen & _); [lia|].
  exists out.
  destruct (create_batches_ends configured decomposition max_agents state)
    as [[message Hraise]|(subtopics & bs & Hsub' & Hrun & Hplanned)].
  - exfalso. revert Hraise. unfold _create_batches. fold agents_to_use. simpl.
    rewrite Hsub. simpl.
    set (fpa := Z.max 1 _). set (remaining := _ mod _).
    assert (0 ≤ remaining) as Hrem by (apply Z.mod_pos_bound; lia).
    assert (1 ≤ fpa) as Hfpa by lia.
    generalize (@nil FlashcardBatch).
    assert (Forall (fun i => 0 ≤ i ∧ (Z.to_nat i < length out)%nat)
                   (seqZ 0 agents_to_use)) as Hin.
    { apply Forall_forall. intros i Hi%elem_of_seqZ. lia. }
    induction Hin as [|index rest [Hge Hlt] _ IH]; intros acc; simpl; [done|].
    rewrite bool_decide_eq_false_2 by (case_bool_decide; lia).
    destruct (lookup_lt_is_Some_2 out _ Hlt) as [label Hlabel].
    unfold list_index. rewrite (bool_decide_eq_true_2 (0 ≤ index)) by done. simpl.
    rewrite list_lookup_fmap, Hlabel. simpl. apply IH.
  - fold agents_to_use in Hsub', Hrun, Hplanned.
    rewrite Hsub in Hsub'. simplify_eq. by exists bs.
Qed.

(** For a positive total and at least one worker, the counts of the
    planned batches are the specification's shares, index by index. *)
Lemma create_batches_counts configured decomposition labels max_agents state :
  yields_labels configured decomposition labels →
  0 < total_count state → 1 ≤ max_agents →
  let workers_used := Z.min max_agents (total_count state) in
  ∃ batches,
    _create_batches configured decomposition max_agents state
      = Return (set_agents_count state workers_used, batches)
    ∧ count <$> batches
      = spec_share (total_count state) workers_used <$> seqZ 0 workers_used
    ∧ agent_id <$> batches = (fun i => i + 1) <$> seqZ 0 workers_used.
Proof.
  intros Hlabels Htotal Hmax workers_used.
  destruct (create_batches_returns configured decomposition labels max_agents state
              Hlabels) as (out & batches & _ & Hrun & Hplanned).
  replace (Z.max 1 (Z.min max_agents (total_count state)))
    with workers_used in * by (unfold workers_used; lia).
  assert (1 ≤ workers_used ≤ total_count state) as Hk by (unfold workers_used; lia).
  assert (1 ≤ total_count state / workers_used) as Hbase.
  { apply Z.div_le_lower_bound; lia. }
  exists batches. split; [done|]. split.
  - rewrite (planned_counts _ _ _ _ _ _ Hplanned).
    apply list_fmap_ext. intros _ i _. unfold spec_share.
    rewrite Z.max_r by lia. case_bool_decide; lia.
  - by rewrite (planned_ids _ _ _ _ _ _ Hplanned).
Qed.

(** X19. Whenever the decomposition yields labels (provider not
    configured, request or decoding failed, or a reply that decodes to a
    list of strings), for every topic, every totalCount > 0 and every
    maxWorkers >= 1 the planner returns batches whose counts sum to
    totalCount; there are at most min(maxWorkers, totalCount) of them;
    the batch at position i holds the integer-division base, plus one
    when i is below totalCount mod workersUsed; and no returned batch has
    a count of 0. *)
Theorem create_batches_sum_and_shares configured decomposition labels max_agents state :
  yields_labels configured decomposition labels →
  0 < total_count state → 1 ≤ max_agents →
  let workers_used := Z.max 1 (Z.min max_agents (total_count state)) in
  ∃ batches,
    _create_batches configured decomposition max_agents state
      = Return (set_agents_count state workers_used, batches)
    ∧ sum_Z (count <$> batches) = total_count state
    ∧ Z.of_nat (length batches) ≤ Z.min max_agents (total_count state)
    ∧ (∀ (i : nat) batch, batches !! i = Some batch →
         agent_id batch = Z.of_nat i + 1
         ∧ count batch = spec_share (total_count state) workers_used (Z.of_nat i))
    ∧ Forall (fun batch => 0 < count batch) batches.
Proof.
  intros Hlabels Htotal Hmax workers_used.
  destruct (create_batches_counts configured decomposition labels max_agents state)
    as (batches & Hrun & Hcounts & Hids); [done..|].
  replace (Z.min max_agents (total_count state)) with workers_used in *
    by (unfold workers_used; lia).
  assert (1 ≤ workers_used ≤ total_count state) as Hk by (unfold workers_used; lia).
  assert (length batches = Z.to_nat workers_used) as Hlen.
  { by rewrite <- (length_fmap count), Hcounts, length_fmap, length_seqZ. }
  assert (1 ≤ total_count state / workers_used) as Hbase
    by (apply Z.div_le_lower_bound; lia).
  exists batches. split; [done|]. split; [|split; [lia|split]].
  - rewrite Hcounts. unfold spec_share.
    rewrite (list_fmap_ext _
      (fun i => total_count state / workers_used
                + (if bool_decide (i < total_count state mod workers_used)
                   then 1 else 0)) (seqZ 0 workers_used))
      by (intros; simpl; case_bool_decide; lia).
    pose proof (Z.mod_pos_bound (total_count state) workers_used).
    pose proof (Z.div_mod (total_count state) workers_used).
    destruct (Z_of_nat_complete workers_used) as [n Hn]; [lia|].
    rewrite Hn in *. rewrite sum_Z_shares by lia. lia.
  - intros i batch Hi.
    assert ((count <$> batches) !! i = Some (count batch)) as Hc
      by (by rewrite list_lookup_fmap, Hi).
    assert ((agent_id <$> batches) !! i = Some (agent_id batch)) as Ha
      by (by rewrite list_lookup_fmap, Hi).
    apply lookup_lt_Some in Hi.
    rewrite Hcounts, list_lookup_fmap, lookup_seqZ_lt in Hc by lia.
    rewrite Hids, list_lookup_fmap, lookup_seqZ_lt in Ha by lia.
    simpl in *. by simplify_eq.
  - apply Forall_forall. intros b Hb.
    apply (list_elem_of_fmap_2 count) in Hb. rewrite Hcounts in Hb.
    apply list_elem_of_fmap in Hb as (i & -> & _).
    unfold spec_share. case_bool_decide; lia.
Qed.

(** X20. Whenever the decomposition yields labels, for every
    totalCount > 0 and maxWorkers >= 1 two planned batches differ by at
    most one item; and totalCount = 10 with maxWorkers = 4 gives exactly
    four batches with counts 3, 3, 2, 2 in batch order. *)
Theorem create_batches_balanced configured decomposition labels max_agents state :
  yields_labels configured decomposition labels →
  0 < total_count state → 1 ≤ max_agents →
  ∃ state' batches,
    _create_batches configured decomposition max_agents state
      = Return (state', batches)
    ∧ (∀ b1 b2, b1 ∈ batches → b2 ∈ batches → count b1 - count b2 ≤ 1)
    ∧ (total_count state = 10 → max_agents = 4 →
       count <$> batches = [3; 3; 2; 2]).
Proof.
  intros Hlabels Htotal Hmax.
  destruct (create_batches_counts configured decomposition labels max_agents state)
    as (batches & Hrun & Hcounts & _); [done..|].
  eexists _, batches. split; [done|]. split.
  - assert (∀ b, b ∈ batches →
              total_count state / Z.min max_agents (total_count state) ≤ count b
              ≤ total_count state / Z.min max_agents (total_count state) + 1) as Hb.
    { intros b Hin. apply (list_elem_of_fmap_2 count) in Hin.
      rewrite Hcounts in Hin. apply list_elem_of_fmap in Hin as (i & -> & _).
      unfold spec_share. case_bool_decide; lia. }
    intros b1 b2 H1%Hb H2%Hb. lia.
  - intros H10 H4. rewrite Hcounts, H10, H4. reflexivity.
Qed.

(** X21. Whenever the decomposition yields labels, for every topic and
    every count >= 0 the subtopic helper returns exactly count labels:
    position i holds the i-th label of the decomposition when there is
    one (surplus labels are cut off) and the synthesized label of part
    i + 1 otherwise.  The planner, which asks for one label per index,
    then returns without an out-of-range access, and every batch carries
    the label of its index. *)
Theorem generate_subtopics_exact_count configured decomposition labels main_topic count :
  yields_labels configured decomposition labels →
  0 ≤ count →
  (∃ out,
     _generate_subtopics configured decomposition main_topic count
     = Return (JArr (JStr <$> out))
     ∧ Z.of_nat (length out) = count
     ∧ ∀ i : nat, Z.of_nat i < count →
         out !! i =
         Some (default (part_label main_topic (Z.of_nat i + 1)) (labels !! i)))
  ∧ (∀ max_agents state,
       ∃ out state' batches,
         _generate_subtopics configured decomposition (st_topic state)
             (Z.max 1 (Z.min max_agents (total_count state)))
         = Return (JArr (JStr <$> out))
         ∧ _create_batches configured decomposition max_agents state
           = Return (state', batches)
         ∧ ∀ batch, batch ∈ batches →
             out !! Z.to_nat (agent_id batch - 1) = Some (subtopic batch)).
Proof.
  intros Hlabels Hcount. split.
  - destruct (generate_subtopics_returns configured decomposition labels main_topic
                count Hlabels) as (out & Hrun & Hlen & Hout); [done|].
    exists out. split; [done|]. split; [lia|].
    intros i Hi. apply Hout. lia.
  - intros max_agents state.
    destruct (create_batches_returns configured decomposition labels max_agents state
                Hlabels) as (out & batches & Hsub & Hrun & Hplanned).
    eexists out, _, batches. split; [done|]. split; [done|].
    intros batch Hin. apply list_elem_of_lookup_1 in Hin as [i Hi].
    destruct (Forall2_lookup_r _ _ _ _ _ Hplanned Hi) as (index & Hindex & Hb).
    destruct Hb as (_ & -> & Hlabel & _).
    replace (index + 1 - 1) with index by lia.
    apply lookup_seqZ in Hindex as [-> Hindex].
    revert Hlabel. simpl. unfold list_index.
    rewrite bool_decide_eq_true_2 by lia. simpl.
    rewrite list_lookup_fmap.
    replace (Z.to_nat (0 + Z.of_nat i)) with i by lia.
    destruct (out !! i) as [label|]; simpl; [|done]. by intros [= ->].
Qed.

(** X22. With the provider configured, a reply that decodes to anything
    but a list never gives a list of labels: the subtopic helper raises
    on null, a boolean, a number and an object, for every count; on a
    string it raises when the string has fewer than count characters and
    otherwise returns the first count characters as one string, which
    the planner then reads character by character. *)
Theorem subtopics_need_a_list decomposition main_topic count :
  (∀ items, try_decompose true decomposition ≠ JArr items) →
  (∃ message,
     _generate_subtopics true decomposition main_topic count
     = Raise (OtherException message))
  ∨ (∃ s,
       try_decompose true decomposition = JStr s
       ∧ count ≤ Z.of_nat (length (str_chars s))
       ∧ _generate_subtopics true decomposition main_topic count
         = Return (JStr (String.concat EmptyString (slice_to (str_chars s) count)))).
Proof.
  intros Hlist. unfold _generate_subtopics. simpl.
  destruct (try_decompose true decomposition) as [| | |s|items|fields] eqn:Hvalue.
  1-3: left; destruct (Z.to_nat count); by eexists.
  - destruct (decide (Z.of_nat (length (str_chars s)) < count)) as [Hshort|Hlong].
    + left. destruct (Z.to_nat count) as [|fuel] eqn:Hfuel; [lia|]. simpl.
      rewrite bool_decide_eq_true_2 by done. by eexists.
    + right. exists s. split; [done|]. split; [lia|].
      destruct (Z.to_nat count); simpl; by rewrite bool_decide_eq_false_2.
  - by destruct (Hlist items).
  - left. destruct (decide (Z.of_nat (length fields) < count)) as [Hshort|Hlong].
    + destruct (Z.to_nat count) as [|fuel] eqn:Hfuel; [lia|]. simpl.
      rewrite bool_decide_eq_true_2 by done. by eexists.
    + destruct (Z.to_nat count); simpl; rewrite bool_decide_eq_false_2 by done;
        by eexists.
Qed.

End Planner.

(** C1. With the provider configured and the decomposition reply [7],
    a JSON number, the planner raises for every topic, every
    totalCount and every maxWorkers: [len] fails in the loop that follows
    the [try] block of the subtopic helper, and no batch is planned. *)
Lemma planner_raises_on_number_reply :
  ∀ max_agents state,
    _create_batches (rt := scenario_runtime) true (Replied "7") max_agents state
    = Raise (OtherException "object of type 'int' has no len()").
Proof.
  intros max_agents state. unfold _create_batches, _generate_subtopics. simpl.
  by destruct (Z.to_nat _).
Qed.

(** C7. With the provider configured and the decomposition reply [{}],
    a JSON object, the planner raises for totalCount = 10 and
    maxWorkers = 4: the padding loop of the subtopic helper calls
    [append] on the dict, and the four batches with counts 3, 3, 2, 2 are
    not planned. *)
Lemma planner_raises_on_object_reply :
  _create_batches (rt := scenario_runtime) true (Replied "{}") 4 photosynthesis_state
  = Raise (OtherException "'dict' object has no attribute 'append'").
Proof. reflexivity. Qed.

(** C10. With the provider configured, the subtopic helper raises for
    every topic and every count when the reply is [7], a JSON number, and
    for every topic and count = 4 when the reply is [{}], a JSON object;
    it returns no label, synthesized or not. *)
Lemma subtopic_helper_raises_on_malformed_reply :
  (∀ main_topic count,
     _generate_subtopics (rt := scenario_runtime) true (Replied "7") main_topic count
     = Raise (OtherException "object of type 'int' has no len()"))
  ∧ (∀ main_topic,
       _generate_subtopics (rt := scenario_runtime) true (Replied "{}") main_topic 4
       = Raise (OtherException "'dict' object has no attribute 'append'")).
Proof.
  split; [|reflexivity].
  intros main_topic count. unfold _generate_subtopics. simpl.
  by destruct (Z.to_nat _).
Qed.

Lemma create_batches_sum_and_shares_witness :
  ∃ batches,
    _create_batches (rt := scenario_runtime) true (Failed (RuntimeError "down")) 4
        photosynthesis_state
      = Return (set_agents_count photosynthesis_state 4, batches)
    ∧ sum_Z (count <$> batches) = 10
    ∧ Z.of_nat (length batches) ≤ 4
    ∧ (∀ (i : nat) batch, batches !! i = Some batch →
         agent_id batch = Z.of_nat i + 1
         ∧ count batch = spec_share 10 4 (Z.of_nat i))
    ∧ Forall (fun batch => 0 < count batch) batches.
Proof.
  apply (create_batches_sum_and_shares (rt := scenario_runtime) true
           (Failed (RuntimeError "down")) [] 4 photosynthesis_state);
    [reflexivity | reflexivity | discriminate].
Defined.

Lemma create_batches_balanced_witness :
  ∃ state' batches,
    _create_batches (rt := scenario_runtime) true (Replied "two labels") 4
        photosynthesis_state
      = Return (state', batches)
    ∧ (∀ b1 b2, b1 ∈ batches → b2 ∈ batches → count b1 - count b2 ≤ 1)
    ∧ (total_count photosynthesis_state = 10 → 4 = 4 →
       count <$> batches = [3; 3; 2; 2]).
Proof.
  apply (create_batches_balanced (rt := scenario_runtime) true
           (Replied "two labels") ["Light reactions"; "Calvin cycle"] 4
           photosynthesis_state);
    [reflexivity | reflexivity | discriminate].
Defined.

Lemma generate_subtopics_exact_count_witness :
  (∃ out,
     _generate_subtopics (rt := scenario_runtime) true (Replied "five labels")
       "Photosynthesis" 4 = Return (JArr (JStr <$> out))
     ∧ Z.of_nat (length out) = 4
     ∧ ∀ i : nat, Z.of_nat i < 4 →
         out !! i =
         Some (default (part_label "Photosynthesis" (Z.of_nat i + 1))
                 (["Light reactions"; "Calvin cycle"; "Stomata"; "Pigments"; "C4"]
                    !! i)))
  ∧ (∀ max_agents state,
       ∃ out state' batches,
         _generate_subtopics (rt := scenario_runtime) true (Replied "five labels")
             (st_topic state) (Z.max 1 (Z.min max_agents (total_count state)))
         = Return (JArr (JStr <$> out))
         ∧ _create_batches (rt := scenario_runtime) true (Replied "five labels")
             max_agents state
           = Return (state', batches)
         ∧ ∀ batch, batch ∈ batches →
             out !! Z.to_nat (agent_id batch - 1) = Some (subtopic batch)).
Proof.
  apply (generate_subtopics_exact_count (rt := scenario_runtime) true
           (Replied "five labels")
           ["Light reactions"; "Calvin cycle"; "Stomata"; "Pigments"; "C4"]
           "Photosynthesis" 4);
    [reflexivity | discriminate].
Defined.

Lemma subtopics_need_a_list_witness :
  (∃ message,
     _generate_subtopics (rt := scenario_runtime) true (Replied "labels in an object")
       "Photosynthesis" 4
     = Raise (OtherException message))
  ∨ (∃ s,
       try_decompose (rt := scenario_runtime) true (Replied "labels in an object")
       = JStr s
       ∧ 4 ≤ Z.of_nat (length (str_chars (PythonRuntime := scenario_runtime) s))
       ∧ _generate_subtopics (rt := scenario_runtime) true
           (Replied "labels in an object") "Photosynthesis" 4
         = Return (JStr (String.concat EmptyString
                           (slice_to (str_chars (PythonRuntime := scenario_runtime) s)
                              4)))).
Proof.
  apply (subtopics_need_a_list (rt := scenario_runtime) (Replied "labels in an object")
           "Photosynthesis" 4).
  intros items. discriminate.
Defined.

(** ** One worker *)

Section Worker.
Context `{rt : !PythonRuntime}.

Lemma emit_set_error cb agent batch total message st progress :
  emit cb agent (set_error batch message) total st progress
  = emit cb agent batch total st progress.
Proof. done. Qed.

Lemma emit_set_completed cb agent batch total cards st progress :
  emit cb agent (set_completed batch cards) total st progress
  = emit cb agent batch total st progress.
Proof. done. Qed.

(** [create_chat_completion] comes back. *)
Lemma create_chat_completion_finished configured remote :
  create_chat_completion configured remote ≠ Unfinished.
Proof. unfold create_chat_completion. by destruct configured, remote. Qed.

Lemma tag_flashcards_finished agent batch index items :
  tag_flashcards agent batch index items ≠ Unfinished.
Proof.
  revert index. induction items as [|item items IH]; intros index; [done|].
  simpl. destruct item; simpl; try done.
  specialize (IH (index + 1)).
  by destruct (tag_flashcards agent batch (index + 1) items).
Qed.

Lemma try_generate_finished configured remote agent batch :
  try_generate configured remote agent batch ≠ Unfinished.
Proof.
  unfold try_generate.
  pose proof (create_chat_completion_finished configured remote) as Hreq.
  destruct (create_chat_completion configured remote) as [raw| |]; simpl; try done.
  destruct (json_loads (strip_code_fence raw)) as [msg|value]; simpl; [done|].
  destruct value as [| | | |items|fields]; simpl; try done.
  destruct (default (JArr []) (dict_get "flashcards" fields))
    as [| | |s|items|fields']; simpl; try done.
  - pose proof (tag_flashcards_finished agent batch 0
      ((fun c => JStr (String c EmptyString)) <$> list_ascii_of_string s)) as Hs.
    by destruct (tag_flashcards _ _ _ _).
  - pose proof (tag_flashcards_finished agent batch 0 items) as Hs.
    unfold fmap, py_fmap. by destruct (tag_flashcards _ _ _ _).
  - pose proof (tag_flashcards_finished agent batch 0 (JStr ∘ fst <$> fields')) as Hs.
    by destruct (tag_flashcards _ _ _ _).
Qed.

(** The worker always hands back a batch, whose status is completed or
    error, after one call to the callback with that status at 100. *)
Lemma finish_batch_returns configured remote cb agent batch total :
  ∃ batch',
    finish_batch configured remote cb agent batch total
    = (Return batch', emit cb agent batch total (status batch') 100)
    ∧ ((∃ cards, try_generate configured remote agent batch = Return cards
                 ∧ batch' = set_completed batch cards)
       ∨ (∃ e message, try_generate configured remote agent batch = Raise e
                       ∧ batch' = set_error batch message)).
Proof.
  unfold finish_batch.
  pose proof (try_generate_finished configured remote agent batch) as Hfin.
  destruct (try_generate configured remote agent batch) as [cards|e|]; [| |done].
  - exists (set_completed batch cards). split; [reflexivity|]. left. eauto.
  - destruct e as [msg|msg|msg];
      [exists (set_error batch ("Erro ao parsear resposta JSON: " +:+ msg))
      |exists (set_error batch msg)..];
      (split; [reflexivity|]; right; eauto).
Qed.

Lemma generate_flashcards_batch_returns configured remote cb agent batch total :
  ∃ batch',
    generate_flashcards_batch configured remote cb agent batch total
    = (Return batch',
       emit cb agent batch total "processing" 5
       ++ emit cb agent batch total (status batch') 100)
    ∧ (status batch' = "completed" ∨ status batch' = "error").
Proof.
  destruct (finish_batch_returns configured remote cb agent batch total)
    as (batch' & Hrun & Hcase).
  exists batch'. unfold generate_flashcards_batch. rewrite Hrun. split; [done|].
  destruct Hcase as [(? & _ & ->)|(? & ? & _ & ->)]; auto.
Qed.


End Worker.

(** ** Concurrent tasks *)

Section Tasks.
Context `{rt : !PythonRuntime}.



(** [gather] returns exactly when every task is done. *)
Lemma gather_Return states results :
  gather states = Return results ↔ states = Done <$> results.
Proof.
  unfold gather. revert results.
  induction states as [|s states IH]; intros results; simpl.
  - split; [intros [= <-]|intros ?%eq_sym%fmap_nil_inv; subst]; done.
  - destruct s as [| |r]; simpl;
      try (split; [done|by destruct results]).
    destruct (mapM _ states) as [rs| |] eqn:Hrs; simpl.
    + split.
      * intros [= <-]. simpl. f_equal. by apply IH.
      * destruct results as [|r' results]; [done|]. intros [= -> Hstates].
        apply IH in Hstates. by simplify_eq.
    + split; [done|]. destruct results as [|r' results]; [done|].
      intros [= -> Hstates]. by apply IH in Hstates.
    + split; [done|]. destruct results as [|r' results]; [done|].
      intros [= -> Hstates]. by apply IH in Hstates.
Qed.

(** Resuming a task keeps the number of tasks, and a task that is done
    holds the batch its own worker hands back. *)
Lemma resume_task_done configured remote cb total tasks now i :
  (length now.1 = length tasks
   ∧ ∀ k r, now.1 !! k = Some (Done r) →
       ∃ t, tasks !! k = Some t
            ∧ r = Replied (batch_after configured remote cb total t)) →
  let next := resume_task configured remote cb total tasks now i in
  length next.1 = length tasks
  ∧ ∀ k r, next.1 !! k = Some (Done r) →
      ∃ t, tasks !! k = Some t
           ∧ r = Replied (batch_after configured remote cb total t).
Proof.
  destruct now as [states calls]. intros [Hlen Hdone]. simpl in Hlen, Hdone.
  unfold resume_task.
  destruct (tasks !! i) as [t|] eqn:Ht; [|done].
  destruct (states !! i) as [[| |r]|] eqn:Hsi; simpl; try done.
  - split; [by rewrite length_insert|].
    intros k r Hk. destruct (decide (i = k)) as [->|Hne].
    + apply lookup_lt_Some in Hsi. by rewrite list_lookup_insert_eq in Hk.
    + rewrite list_lookup_insert_ne in Hk by done. eauto.
  - destruct (finish_batch_returns configured (remote (task_agent t)) cb
                (task_agent t) (task_batch t) total) as (b & Hb & _).
    assert (batch_after configured remote cb total t = b) as Hafter
      by (unfold batch_after; by rewrite Hb).
    rewrite Hb. simpl.
    split; [by rewrite length_insert|].
    intros k r Hk. destruct (decide (i = k)) as [->|Hne].
    + apply lookup_lt_Some in Hsi. rewrite list_lookup_insert_eq in Hk by done.
      simplify_eq. eauto.
    + rewrite list_lookup_insert_ne in Hk by done. eauto.
Qed.

Lemma run_tasks_done configured remote cb total tasks schedule :
  let states := (run_tasks configured remote cb total tasks schedule).1 in
  length states = length tasks
  ∧ ∀ i r, states !! i = Some (Done r) →
      ∃ t, tasks !! i = Some t
           ∧ r = Replied (batch_after configured remote cb total t).
Proof.
  unfold run_tasks.
  assert (∀ now : list task_state * list progress_call,
    (length now.1 = length tasks
     ∧ ∀ k r, now.1 !! k = Some (Done r) →
         ∃ t, tasks !! k = Some t
              ∧ r = Replied (batch_after configured remote cb total t)) →
    let final := foldl (resume_task configured remote cb total tasks) now schedule in
    length final.1 = length tasks
    ∧ ∀ k r, final.1 !! k = Some (Done r) →
        ∃ t, tasks !! k = Some t
             ∧ r = Replied (batch_after configured remote cb total t)) as Hgen.
  { induction schedule as [|i schedule IH]; intros now Hnow; [done|].
    cbn [foldl]. apply IH. by apply resume_task_done. }
  apply Hgen. simpl. split; [by rewrite length_replicate|].
  intros i r [? _]%lookup_replicate. done.
Qed.

Lemma resume_task_other configured remote cb total tasks now j i :
  j ≠ i →
  (resume_task configured remote cb total tasks now j).1 !! i = now.1 !! i.
Proof.
  intros Hne. destruct now as [states calls]. unfold resume_task.
  destruct (tasks !! j) as [t|]; [|done].
  destruct (states !! j) as [[| |r]|]; simpl; try done.
  - by rewrite list_lookup_insert_ne.
  - destruct (finish_batch _ _ _ _ _ _) as [[b|e|] made]; simpl;
      by rewrite ?list_lookup_insert_ne.
Qed.

(** The state of a task after a schedule is told by the number of times
    the schedule resumes it. *)
Lemma run_tasks_state configured remote cb total tasks schedule i t :
  tasks !! i = Some t →
  (run_tasks configured remote cb total tasks schedule).1 !! i
  = Some (match length (filter (fun j => j = i) schedule) with
          | 0%nat => Created
          | 1%nat => Awaiting
          | _ => Done (Replied (batch_after configured remote cb total t))
          end).
Proof.
  intros Ht. unfold run_tasks.
  induction schedule as [|j schedule IH] using rev_ind.
  - simpl. apply lookup_replicate_2. by eapply lookup_lt_Some.
  - rewrite foldl_app, filter_app, length_app. cbn [foldl].
    destruct (decide (j = i)) as [->|Hne].
    + rewrite filter_cons, decide_True by done. simpl.
      destruct (foldl _ _ schedule) as [states calls]. simpl in IH.
      unfold resume_task. rewrite Ht, IH.
      apply lookup_lt_Some in IH as Hlt.
      destruct (length (filter (fun j => j = i) schedule)) as [|[|n]]; simpl.
      * by rewrite list_lookup_insert_eq.
      * destruct (finish_batch_returns configured (remote (task_agent t)) cb
                    (task_agent t) (task_batch t) total) as (b & Hb & _).
        unfold batch_after. rewrite Hb. simpl.
        by rewrite list_lookup_insert_eq.
      * replace (n + 1)%nat with (S n) by lia. done.
    + rewrite resume_task_other by done. rewrite IH.
      rewrite filter_cons, decide_False by done. simpl.
      by rewrite Nat.add_0_r.
Qed.

(** Under a schedule that resumes every task twice, [gather] returns. *)
Lemma gather_returns configured remote cb total tasks schedule :
  resumed_twice (length tasks) schedule →
  gather (run_tasks configured remote cb total tasks schedule).1
  = Return ((fun t => Replied (batch_after configured remote cb total t)) <$> tasks).
Proof.
  intros Hfair. apply gather_Return.
  destruct (run_tasks_done configured remote cb total tasks schedule) as [Hlen _].
  apply list_eq. intros i. rewrite !list_lookup_fmap.
  destruct (tasks !! i) as [t|] eqn:Ht; simpl.
  - rewrite (run_tasks_state _ _ _ _ _ _ _ t) by done.
    specialize (Hfair i (lookup_lt_Some _ _ _ Ht)).
    by destruct (length (filter (fun j => j = i) schedule)) as [|[|n]]; [lia..|].
  - apply lookup_ge_None in Ht. apply lookup_ge_None. lia.
Qed.

(** The outcomes reported by [gather] are the batches of the workers in
    the order of the tasks, whatever the order of completion. *)
Lemma gather_in_task_order configured remote cb total tasks schedule results :
  gather (run_tasks configured remote cb total tasks schedule).1 = Return results →
  results = (fun t => Replied (batch_after configured remote cb total t)) <$> tasks.
Proof.
  intros Hg%gather_Return.
  destruct (run_tasks_done configured remote cb total tasks schedule) as [Hlen Hdone].
  rewrite Hg in Hlen, Hdone. rewrite length_fmap in Hlen.
  apply list_eq. intros i. rewrite list_lookup_fmap.
  destruct (results !! i) as [r|] eqn:Hr.
  - destruct (Hdone i r) as (t & -> & ->); [by rewrite list_lookup_fmap, Hr|done].
  - apply lookup_ge_None in Hr. rewrite lookup_ge_None_2; [done|lia].
Qed.

End Tasks.

(** ** Aggregation *)

Section Aggregation.
Context `{rt : !PythonRuntime}.

Lemma dict_get_set_eq key value fields :
  dict_get key (dict_set key value fields) = Some value.
Proof.
  induction fields as [|[k v] fields IH]; simpl.
  - by rewrite decide_True.
  - destruct (decide (k = key)) as [->|Hne]; simpl.
    + by rewrite decide_True.
    + by rewrite decide_False.
Qed.

Lemma dict_get_set_ne key key' value fields :
  key ≠ key' → dict_get key' (dict_set key value fields) = dict_get key' fields.
Proof.
  intros Hne. induction fields as [|[k v] fields IH]; simpl.
  - by rewrite decide_False.
  - destruct (decide (k = key)) as [->|Hk]; simpl.
    + by rewrite !decide_False.
    + destruct (decide (k = key')); [done|apply IH].
Qed.

Lemma tag_flashcard_tagged agent batch index item out :
  tag_flashcard agent batch index item = Return out →
  (∃ fields, item = JObj fields) ∧ tagged_by out agent.
Proof.
  destruct item as [| | | | |fields]; simpl; try done.
  intros [= <-]. split; [by eexists|]. eexists. split; [done|].
  rewrite dict_get_set_ne by done. apply dict_get_set_eq.
Qed.

Lemma tag_flashcards_tagged agent batch index items out :
  tag_flashcards agent batch index items = Return out →
  Forall (fun item => ∃ fields, item = JObj fields) items
  ∧ Forall (fun o => tagged_by o agent) out.
Proof.
  revert index out. induction items as [|item items IH]; intros index out; simpl.
  - intros [= <-]. by split.
  - destruct (tag_flashcard agent batch index item) as [o| |] eqn:Ho; simpl; try done.
    destruct (tag_flashcards agent batch (index + 1) items) as [os| |] eqn:Hos;
      simpl; try done.
    intros [= <-]. apply tag_flashcard_tagged in Ho as [Hitem Ho].
    apply IH in Hos as [Hitems Hos]. split; by constructor.
Qed.

(** An iterable of strings survives the tagging loop only when empty. *)
Lemma tag_flashcards_strings {X} agent batch index (f : X → json) (xs : list X) out :
  (∀ x, ∃ s, f x = JStr s) →
  tag_flashcards agent batch index (f <$> xs) = Return out → xs = [].
Proof.
  intros Hf Hrun. destruct xs as [|x xs]; [done|].
  simpl in Hrun. destruct (Hf x) as [s Hs]. by rewrite Hs in Hrun.
Qed.

Lemma tagged_value_items agent batch value cards :
  tagged_value agent batch value = Return cards →
  ∃ items, py_iter cards = Return items
           ∧ Forall (fun item => tagged_by item agent) items.
Proof.
  destruct value as [| | |s|items|fields]; simpl; try done.
  - destruct (tag_flashcards _ _ _ _) as [out| |] eqn:Hout; simpl; try done.
    intros [= <-]. simpl.
    apply tag_flashcards_strings in Hout as Hnil; [|by eexists].
    rewrite Hnil. by eexists.
  - unfold fmap at 1, py_fmap.
    destruct (tag_flashcards _ _ _ _) as [out| |] eqn:Hout; simpl; try done.
    intros [= <-]. simpl. eexists. split; [done|].
    by apply tag_flashcards_tagged in Hout as [_ ?].
  - destruct (tag_flashcards _ _ _ _) as [out| |] eqn:Hout; simpl; try done.
    intros [= <-]. simpl.
    apply tag_flashcards_strings in Hout as Hnil; [|by eexists].
    rewrite Hnil. by eexists.
Qed.

Lemma try_generate_items configured remote agent batch cards :
  try_generate configured remote agent batch = Return cards →
  ∃ items, py_iter cards = Return items
           ∧ Forall (fun item => tagged_by item agent) items.
Proof.
  unfold try_generate.
  destruct (create_chat_completion configured remote) as [raw| |]; simpl; try done.
  destruct (json_loads (strip_code_fence raw)) as [msg|value]; simpl; [done|].
  destruct value as [| | | |items|fields]; simpl; try done.
  apply tagged_value_items.
Qed.

(** The batch a worker hands back is completed with flashcards that all
    carry the worker's number, or is in error with a message. *)
Lemma batch_after_cases configured remote cb total t :
  let batch' := batch_after configured remote cb total t in
  (status batch' = "completed"
   ∧ ∃ items, py_iter (flashcards batch') = Return items
              ∧ Forall (fun item => tagged_by item (task_agent t)) items)
  ∨ (status batch' = "error" ∧ is_Some (error_message batch')).
Proof.
  unfold batch_after.
  destruct (finish_batch_returns configured (remote (task_agent t)) cb (task_agent t)
              (task_batch t) total) as (b & -> & Hcase). simpl.
  destruct Hcase as [(cards & Hgen & ->)|(e & message & _ & ->)].
  - left. split; [done|]. by eapply try_generate_items.
  - right. split; [done|]. by eexists.
Qed.



End Aggregation.

(** ** The orchestrator *)

Section Orchestrator.
Context `{rt : !PythonRuntime}.

Lemma extend_completed_twice state cards cards' :
  extend_completed (extend_completed state cards) cards'
  = extend_completed state (cards ++ cards').
Proof. unfold extend_completed. simpl. by rewrite app_assoc. Qed.

Lemma extend_completed_nil state : extend_completed state [] = state.
Proof. destruct state. unfold extend_completed. simpl. by rewrite app_nil_r. Qed.

(** The loop over the results when every task handed back a batch whose
    flashcards can be iterated: the batches in order, and their
    flashcards appended in order. *)
Lemma collect_replied cb total (bs rs : list FlashcardBatch) acc state calls :
  length bs = length rs →
  Forall (fun r => status r = "completed" →
                   ∃ items, py_iter (flashcards r) = Return items) rs →
  collect cb total (zip bs (Replied <$> rs)) acc state calls
  = (Return (acc ++ rs), extend_completed state (rs ≫= cards_of), calls).
Proof.
  revert bs acc state. induction rs as [|r rs IH]; intros bs acc state Hlen Hiter.
  - destruct bs; [|done]. simpl. by rewrite app_nil_r, extend_completed_nil.
  - destruct bs as [|b bs]; [done|]. simpl in Hlen.
    apply Forall_cons in Hiter as [Hr Hiter].
    cbn [fmap list_fmap zip zip_with collect]. rewrite bind_cons.
    unfold cards_of at 1.
    destruct (decide (status r = "completed")) as [Hc|Hc].
    + destruct (Hr Hc) as [items ->].
      rewrite IH by (done || lia).
      by rewrite extend_completed_twice, <- app_assoc.
    + rewrite IH by (done || lia). by rewrite <- app_assoc.
Qed.

Lemma length_filter_status (rs : list FlashcardBatch) :
  Forall (fun r => status r = "completed" ∨ status r = "error") rs →
  (length (filter (fun b => status b = "completed") rs)
   + length (filter (fun b => status b = "error") rs) = length rs)%nat.
Proof.
  induction 1 as [|r rs Hr _ IH]; [done|].
  rewrite !filter_cons.
  destruct Hr as [Hr|Hr]; rewrite Hr; simpl; lia.
Qed.

Lemma conclude_replied cb total topic_ difficulty_ bs rs state :
  length bs = length rs →
  Forall (fun r => status r = "completed" →
                   ∃ items, py_iter (flashcards r) = Return items) rs →
  completed_flashcards state = [] →
  ∃ r st,
    (∀ calls, conclude cb total topic_ difficulty_ bs (Replied <$> rs) state calls
              = (Return r, st, calls))
    ∧ concluded rs r st.
Proof.
  intros Hlen Hiter Hempty. unfold conclude.
  destruct (rs ≫= cards_of) as [|card cards] eqn:Hcards.
  - eexists _, _. split.
    + intros calls. rewrite collect_replied by done. simpl.
      rewrite Hempty, Hcards. simpl. reflexivity.
    + unfold concluded. simpl. rewrite Hempty, Hcards. simpl.
      repeat split; done.
  - eexists _, _. split.
    + intros calls. rewrite collect_replied by done. simpl.
      rewrite Hempty, Hcards. simpl. reflexivity.
    + unfold concluded. simpl. rewrite Hempty, Hcards. simpl.
      repeat split; done.
Qed.

Lemma gather_not_Raise states e : gather states ≠ Raise e.
Proof.
  unfold gather. induction states as [|s states IH]; [done|].
  simpl. destruct s as [| |r]; simpl; try done.
  destruct (mapM _ states); simpl; done.
Qed.

Lemma list_index_agents max_agents i agent :
  0 ≤ i → list_index (agents max_agents) i = Return agent → agent = i + 1.
Proof.
  intros Hi. unfold list_index, agents.
  rewrite bool_decide_eq_true_2 by done. simpl.
  rewrite list_lookup_fmap.
  destruct (seqZ 0 max_agents !! Z.to_nat i) as [k|] eqn:Hk; simpl; [|done].
  apply lookup_seqZ in Hk as [-> _]. intros [= <-]. lia.
Qed.

Lemma create_tasks_raise max_agents bs e :
  create_tasks max_agents bs = Raise e →
  e = OtherException "list index out of range".
Proof.
  unfold create_tasks. induction bs as [|b bs IH]; [done|]. simpl.
  destruct (list_index (agents max_agents) (agent_id b - 1)) as [agent|e'|] eqn:Hagent;
    simpl; try done.
  - destruct (mapM _ bs) as [ts|e'|]; simpl; try done.
  - intros [= <-]. unfold list_index in Hagent.
    destruct (_ ≫= _); by simplify_eq.
Qed.

(** Every task is run by the agent whose number its batch carries. *)
Lemma create_tasks_in_pool max_agents bs :
  Forall (fun b => 1 ≤ agent_id b ≤ max_agents) bs →
  create_tasks max_agents bs = Return (tasks_of bs).
Proof.
  unfold create_tasks, tasks_of. induction 1 as [|b bs Hb _ IH]; [done|].
  simpl. rewrite IH. unfold list_index, agents.
  rewrite bool_decide_eq_true_2 by lia. simpl.
  rewrite list_lookup_fmap, lookup_seqZ_lt by lia. simpl.
  by replace (0 + Z.of_nat (Z.to_nat (agent_id b - 1)) + 1) with (agent_id b) by lia.
Qed.

Lemma create_tasks_empty_pool max_agents b bs :
  max_agents ≤ 0 →
  create_tasks max_agents (b :: bs)
  = Raise (OtherException "list index out of range").
Proof.
  intros Hmax. unfold create_tasks. simpl. unfold list_index, agents.
  rewrite seqZ_nil by done. simpl.
  by repeat case_bool_decide.
Qed.

(** The batches of a plan are in the pool when the pool has an agent. *)
Lemma plan_in_pool max_agents total (bs : list FlashcardBatch) :
  1 ≤ max_agents →
  agent_id <$> bs = (fun i => i + 1) <$> seqZ 0 (Z.max 1 (Z.min max_agents total)) →
  Forall (fun b => 1 ≤ agent_id b ≤ max_agents) bs.
Proof.
  intros Hpool Hids. apply Forall_forall. intros b Hb.
  apply (list_elem_of_fmap_2 agent_id) in Hb. rewrite Hids in Hb.
  apply list_elem_of_fmap in Hb as (i & -> & Hi%elem_of_seqZ). lia.
Qed.













End Orchestrator.


(** The order of completion shows in the calls to the callback and
    nowhere else. *)
Example completion_order_is_seen_by_callback_only :
  returned (scenario_run [0; 1; 2; 0; 1; 2]%nat)
  = returned (scenario_run last_finishes_first)
  ∧ pc_agent <$> calls_made (scenario_run [0; 1; 2; 0; 1; 2]%nat)
    = [1; 2; 3; 1; 2; 3; 1; 2; 3]
  ∧ pc_agent <$> calls_made (scenario_run last_finishes_first)
    = [1; 2; 3; 1; 2; 3; 3; 2; 1].
Proof. vm_compute. repeat split; reflexivity. Qed.


(** A JSON object without the key [flashcards] is not a failure: the
    batch is completed with no flashcard. *)
Example object_without_flashcards_completes :
  (generate_flashcards_batch (rt := scenario_runtime) true (Replied "no cards")
     true 2 scenario_batch 3).1
  = Return (set_completed scenario_batch (JArr [])).
Proof. reflexivity. Qed.


(** ** The progress counter *)

Section Tracker.

Lemma lookup_ensure_slots_list (indices : list Z) (slots : gmap Z agent_slot) i :
  foldl (fun slots i =>
           match slots !! i with
           | Some _ => slots
           | None => <[i := waiting_slot]> slots
           end) slots indices !! i
  = match slots !! i with
    | Some slot => Some slot
    | None => if decide (i ∈ indices) then Some waiting_slot else None
    end.
Proof.
  revert slots. induction indices as [|k indices IH]; intros slots; simpl.
  - by destruct (slots !! i).
  - rewrite IH. destruct (decide (k = i)) as [->|Hne].
    + destruct (slots !! i) as [slot|] eqn:Hi.
      * by rewrite Hi.
      * rewrite lookup_insert_eq. rewrite decide_True by left. done.
    + assert (match slots !! k with
              | Some _ => slots
              | None => <[k:=waiting_slot]> slots
              end !! i = slots !! i) as ->.
      { destruct (slots !! k); [done|]. by rewrite lookup_insert_ne. }
      destruct (slots !! i); [done|].
      destruct (decide (i ∈ indices)) as [Hin|Hin].
      * rewrite decide_True by (by right). done.
      * rewrite decide_False; [done|]. intros [?|?]%elem_of_cons; congruence.
Qed.

Lemma lookup_ensure_agent_slots total (slots : gmap Z agent_slot) i :
  _ensure_agent_slots total slots !! i
  = match slots !! i with
    | Some slot => Some slot
    | None => if decide (1 ≤ i ≤ total) then Some waiting_slot else None
    end.
Proof.
  unfold _ensure_agent_slots. rewrite lookup_ensure_slots_list.
  destruct (slots !! i); [done|].
  destruct (decide (i ∈ seqZ 1 total)) as [Hin|Hin];
    rewrite elem_of_seqZ in Hin.
  - rewrite decide_True by lia. done.
  - rewrite decide_False by lia. done.
Qed.

(** A call for a worker numbered from 1 goes through: the counter moves
    only on a step from a status that is not terminal to a terminal one,
    and only the status of that worker changes. *)
Lemma after_call_effect self c :
  1 ≤ uc_agent c →
  total_agents (after_call self c) = total_agents self
  ∧ completed_agents (after_call self c)
    = (if is_terminal (uc_status c) && negb (is_terminal (status_of self (uc_agent c)))
       then Z.min (total_agents self) (completed_agents self + 1)
       else completed_agents self)
  ∧ ∀ b, status_of (after_call self c) b
         = if decide (b = uc_agent c) then uc_status c else status_of self b.
Proof.
  intros Hagent. unfold after_call, update_agent_status, status_of.
  destruct (agents_status self !! uc_agent c) as [slot|] eqn:Hslot.
  - rewrite Hslot. simpl. split; [done|]. split; [done|].
    intros b. destruct (decide (b = uc_agent c)) as [->|Hne].
    + by rewrite lookup_insert_eq.
    + by rewrite lookup_insert_ne.
  - rewrite lookup_ensure_agent_slots, Hslot.
    rewrite decide_True by lia. simpl. split; [done|]. split; [done|].
    intros b. destruct (decide (b = uc_agent c)) as [->|Hne].
    + by rewrite lookup_insert_eq.
    + rewrite lookup_insert_ne by done. rewrite lookup_ensure_agent_slots.
      destruct (agents_status self !! b); [done|]. by case_decide.
Qed.

(** No call moves the counter past the number of workers. *)
Lemma after_call_bounded self c :
  completed_agents self ≤ total_agents self →
  completed_agents (after_call self c) ≤ total_agents (after_call self c).
Proof.
  intros Hle. unfold after_call, update_agent_status.
  destruct (match agents_status self !! uc_agent c with
            | Some _ => agents_status self
            | None => _ensure_agent_slots (uc_agent c) (agents_status self)
            end !! uc_agent c); simpl; [|done].
  destruct (is_terminal (uc_status c) && _); lia.
Qed.

Lemma after_calls_bounded self calls :
  completed_agents self ≤ total_agents self →
  completed_agents (after_calls self calls) ≤ total_agents (after_calls self calls).
Proof.
  unfold after_calls. revert self.
  induction calls as [|c calls IH]; intros self Hle; [done|].
  simpl. apply IH. by apply after_call_bounded.
Qed.

(** A call for a worker whose status is already terminal leaves the
    counter alone, whatever status it reports. *)
Lemma after_call_terminal_again self c :
  is_terminal (status_of self (uc_agent c)) = true →
  completed_agents (after_call self c) = completed_agents self.
Proof.
  unfold after_call, update_agent_status, status_of.
  destruct (agents_status self !! uc_agent c) as [slot|] eqn:Hslot; [|done].
  rewrite Hslot. simpl. intros ->. by rewrite andb_false_r.
Qed.

Lemma terminal_workers_snoc calls c :
  terminal_workers (calls ++ [c])
  = terminal_workers calls
    ∪ (if is_terminal (uc_status c) then {[uc_agent c]} else ∅).
Proof.
  unfold terminal_workers. rewrite filter_app, fmap_app, list_to_set_app_L.
  f_equal. rewrite filter_cons, filter_nil.
  destruct (is_terminal (uc_status c)) eqn:Hc; case_decide; try done.
  simpl. set_solver.
Qed.

Lemma elem_of_terminal_workers calls a :
  a ∈ terminal_workers calls ↔
  ∃ (i : nat) c, calls !! i = Some c ∧ uc_agent c = a ∧ is_terminal (uc_status c) = true.
Proof.
  unfold terminal_workers. rewrite elem_of_list_to_set, list_elem_of_fmap.
  split.
  - intros (c & -> & [Hc Hin]%list_elem_of_filter).
    apply list_elem_of_lookup_1 in Hin as [i Hi]. eauto.
  - intros (i & c & Hi & <- & Hc). exists c. split; [done|].
    apply list_elem_of_filter. split; [done|]. by eapply list_elem_of_lookup_2.
Qed.

Lemma size_terminal_workers_bounded total calls :
  Forall (fun c => 1 ≤ uc_agent c ≤ total) calls →
  Z.of_nat (size (terminal_workers calls)) ≤ Z.max 0 total.
Proof.
  intros Hall.
  assert (terminal_workers calls ⊆ list_to_set (seqZ 1 total)) as Hsub.
  { intros a (i & c & Hi & <- & _)%elem_of_terminal_workers.
    rewrite elem_of_list_to_set, elem_of_seqZ.
    rewrite Forall_forall in Hall.
    specialize (Hall c (list_elem_of_lookup_2 _ _ _ Hi)). lia. }
  apply subseteq_size in Hsub.
  rewrite size_list_to_set in Hsub by apply NoDup_seqZ.
  rewrite length_seqZ in Hsub. lia.
Qed.

(** In a sequence that never reopens a worker and names workers 1 to
    the number of workers only, the counter is the number of workers
    reported as completed or in error so far. *)
Lemma after_calls_counts op total now calls :
  Forall (fun c => 1 ≤ uc_agent c ≤ Z.max 1 total) calls →
  never_reopened calls →
  let tracker := after_calls (init_tracker op total now) calls in
  total_agents tracker = Z.max 1 total
  ∧ (∀ b, is_terminal (status_of tracker b) = true ↔ b ∈ terminal_workers calls)
  ∧ completed_agents tracker = Z.of_nat (size (terminal_workers calls)).
Proof.
  induction calls as [|c calls IH] using rev_ind; intros Hall Hforward.
  - simpl. split; [done|]. split; [|done].
    intros b. unfold status_of, init_tracker. simpl.
    rewrite lookup_ensure_agent_slots, lookup_empty.
    split; [by case_decide|]. intros Hb. by apply elem_of_empty in Hb.
  - apply Forall_app in Hall as [Hall Hc]. rewrite Forall_singleton in Hc.
    assert (never_reopened calls) as Hprefix.
    { intros i j ci cj Hij Hi Hj. apply (Hforward i j); [done|..].
      - by apply lookup_app_l_Some.
      - by apply lookup_app_l_Some. }
    destruct (IH Hall Hprefix) as (Htotal & Hstatus & Hcount). clear IH.
    unfold after_calls in *. rewrite foldl_app. simpl.
    set (tracker := foldl after_call (init_tracker op total now) calls) in *.
    destruct (after_call_effect tracker c) as (Ht & Hn & Hs); [lia|].
    rewrite terminal_workers_snoc.
    split; [by rewrite Ht|].
    destruct (is_terminal (uc_status c)) eqn:Hterm.
    + destruct (is_terminal (status_of tracker (uc_agent c))) eqn:Hprev.
      * apply Hstatus in Hprev as Hin.
        replace (terminal_workers calls ∪ {[uc_agent c]})
          with (terminal_workers calls) by set_solver.
        split; [|by rewrite Hn].
        intros b. rewrite Hs. case_decide as Hb; [|done].
        subst b. by rewrite Hterm.
      * assert (uc_agent c ∉ terminal_workers calls) as Hnotin.
        { intros Hin%Hstatus. congruence. }
        split.
        -- intros b. rewrite Hs. case_decide as Hb.
           ++ subst b. rewrite Hterm. set_solver.
           ++ rewrite Hstatus. set_solver.
        -- rewrite Hn. simpl. rewrite size_union by set_solver.
           rewrite size_singleton.
           pose proof (size_terminal_workers_bounded (Z.max 1 total) (calls ++ [c])) as Hb.
           rewrite terminal_workers_snoc, Hterm in Hb.
           rewrite size_union, size_singleton in Hb by set_solver.
           specialize (Hb ltac:(apply Forall_app; split; [done|by apply Forall_singleton])).
           lia.
    + replace (terminal_workers calls ∪ ∅) with (terminal_workers calls)
        by set_solver.
      simpl in Hn. split; [|by rewrite Hn].
      intros b. rewrite Hs. case_decide as Hb; [|done].
      subst b. rewrite Hterm. split; [done|].
      intros (i & ci & Hi & Hagent & Hci)%elem_of_terminal_workers.
      rewrite <- Hterm.
      apply (Hforward i (length calls) ci c); try done.
      * by eapply lookup_lt_Some.
      * by apply lookup_app_l_Some.
      * by rewrite lookup_app_r, Nat.sub_diag.
Qed.

(** C5, as written, fails: a worker that completes, is set back to
    processing and completes again is counted twice. *)
Lemma reopened_worker_counted_twice :
  ¬ counted_once_per_worker 3 reopening_calls.
Proof. unfold counted_once_per_worker. vm_compute. discriminate. Qed.

(** C5, amended. After every sequence of UpdateWorker calls on a new
    tracker the counter does not exceed the number of workers, and a call
    for a worker whose status is already completed or error does not move
    it.  In every sequence that names workers 1 to totalWorkers only and
    never reports a worker as not terminal after reporting it as
    completed or error, the counter is the number of workers reported as
    completed or error: each is counted once, when its status first
    enters that set. *)
Theorem completed_count_once_per_worker op total now calls :
  let tracker := after_calls (init_tracker op total now) calls in
  completed_agents tracker ≤ total_agents tracker
  ∧ (∀ c, is_terminal (status_of tracker (uc_agent c)) = true →
          completed_agents (after_call tracker c) = completed_agents tracker)
  ∧ (Forall (fun c => 1 ≤ uc_agent c ≤ total_agents tracker) calls →
     never_reopened calls →
     completed_agents tracker = Z.of_nat (size (terminal_workers calls))).
Proof.
  intros tracker. split; [|split].
  - apply after_calls_bounded. simpl. lia.
  - intros c. apply after_call_terminal_again.
  - intros Hall Hforward.
    assert (total_agents tracker = Z.max 1 total) as Htotal.
    { unfold tracker, after_calls. clear.
      induction calls as [|c calls IH] using rev_ind; [done|].
      rewrite foldl_app. simpl. rewrite <- IH.
      unfold after_call, update_agent_status.
      by destruct (_ !! uc_agent c). }
    rewrite Htotal in Hall.
    by destruct (after_calls_counts op total now calls Hall Hforward) as (_ & _ & ?).
Qed.

End Tracker.

Lemma completed_count_once_per_worker_witness :
  completed_agents (after_calls (init_tracker "op" 3 0) forward_calls)
  = Z.of_nat (size (terminal_workers forward_calls)).
Proof.
  apply (completed_count_once_per_worker "op" 3 0 forward_calls).
  - vm_compute. repeat constructor; discriminate.
  - intros i j ci cj Hij Hi Hj.
    destruct i as [|[|[|[|[|i]]]]]; destruct j as [|[|[|[|[|j]]]]];
      try lia; simpl in Hi, Hj; try done; simplify_eq; vm_compute; done.
Defined.

(** ** The service entry point *)

Section ServiceProperties.
Context `{rt : !PythonRuntime}.

Lemma progress_store_handle_progress l now w call :
  progress_store (handle_progress l now w call) = progress_store w.
Proof. done. Qed.

Lemma progress_store_handle_all l now w calls :
  progress_store (foldl (handle_progress l now) w calls) = progress_store w.
Proof.
  revert w. induction calls as [|call calls IH]; intros w; [done|].
  simpl. by rewrite IH.
Qed.

Lemma progress_store_finalize_agents l now request st progress w :
  progress_store (finalize_agents l now request st progress w) = progress_store w.
Proof. done. Qed.

Ltac store_unchanged :=
  cbn [snd progress_store finalize_agents handle_progress set_object];
  rewrite ?progress_store_handle_all;
  cbn [progress_store];
  by rewrite lookup_insert_eq.

(** The tracker entry is in the table when [start_flashcard_generation]
    is over, whatever the request and whatever happened. *)
Lemma start_registers_tracker generator configured decomposition remote schedule
    single_agent op now request w :
  progress_store
    (start_flashcard_generation generator configured decomposition remote schedule
       single_agent op now request w).2 !! op
  = Some (next_object w).
Proof.
  unfold start_flashcard_generation, new_tracker.
  destruct generator as [max_agents|].
  - destruct (returned _) as [result|e|]; [destruct (success result)|..];
      try destruct single_agent; store_unchanged.
  - destruct single_agent; store_unchanged.
Qed.

(** C4, amended. When the requested count is not positive or the
    provider is not configured, [generate_flashcards_parallel] returns a
    failure at once: no state is built, no batch is planned and the
    progress callback is not called.  A body whose count is not positive
    is refused by the validation of the request and leaves the table as
    it was.  A request that reaches the service entry point, however, has
    its tracker entry created before the generator is called, and the
    entry is in the table when the entry point is over: this is what
    happens when the provider is not configured. *)
Theorem rejected_before_planning configured count_ :
  rejected_input configured count_ →
  (∃ message,
     ∀ decomposition remote schedule max_agents topic_ difficulty_ subject_
       user_id_ cb,
       generate_flashcards_parallel configured decomposition remote schedule
         max_agents topic_ count_ difficulty_ subject_ user_id_ cb
       = {| returned := Return (failure message); final_state := None;
            calls_made := [] |})
  ∧ (∀ generator decomposition remote schedule single_agent op now body w,
       rq_count body = count_ → count_ ≤ 0 →
       ∃ e, generate_flashcards_endpoint generator configured decomposition
              remote schedule single_agent op now body w
            = (Raise e, w))
  ∧ (∀ generator decomposition remote schedule single_agent op now request w,
       rq_count request = count_ →
       progress_store
         (start_flashcard_generation generator configured decomposition remote
            schedule single_agent op now request w).2 !! op
       = Some (next_object w)).
Proof.
  intros Hrejected. split; [|split].
  - unfold generate_flashcards_parallel.
    destruct configured; simpl; [|by eexists].
    destruct Hrejected as [?|Hcount]; [done|].
    rewrite bool_decide_eq_true_2 by done. by eexists.
  - intros * Hbody Hcount.
    unfold generate_flashcards_endpoint, validate_flashcard_request.
    rewrite bool_decide_eq_false_2 by lia. by eexists.
  - intros. apply start_registers_tracker.
Qed.

End ServiceProperties.

(** C4, as written, fails: a request made while the provider is not
    configured leaves a tracker entry in the table. *)
Lemma tracker_entry_despite_rejection :
  ¬ (rejected_input false (rq_count scenario_request) →
     progress_store unconfigured_start.2 !! "flashcards_1a2b3c4d" = None).
Proof.
  intros Hclaim. specialize (Hclaim (or_introl eq_refl)).
  vm_compute in Hclaim. discriminate.
Qed.


Lemma rejected_before_planning_witness :
  (∃ message,
     ∀ decomposition remote schedule max_agents topic_ difficulty_ subject_
       user_id_ cb,
       generate_flashcards_parallel (rt := scenario_runtime) true decomposition
         remote schedule max_agents topic_ 0 difficulty_ subject_ user_id_ cb
       = {| returned := Return (failure message); final_state := None;
            calls_made := [] |})
  ∧ (∀ generator decomposition remote schedule single_agent op now body w,
       rq_count body = 0 → 0 ≤ 0 →
       ∃ e, generate_flashcards_endpoint (rt := scenario_runtime) generator true
              decomposition remote schedule single_agent op now body w
            = (Raise e, w))
  ∧ (∀ generator decomposition remote schedule single_agent op now request w,
       rq_count request = 0 →
       progress_store
         (start_flashcard_generation (rt := scenario_runtime) generator true
            decomposition remote schedule single_agent op now request w).2 !! op
       = Some (next_object w)).
Proof.
  apply (rejected_before_planning (rt := scenario_runtime) true 0).
  right. discriminate.
Defined.

(** ** The progress stream *)

Section StreamProperties.
Variable env : nat → world.
Variable op : string.

(** While the operation is missing from the table the first loop runs
    to its bound. *)
Lemma wait_for_operation_missing fuel wait_count :
  0 ≤ wait_count ≤ max_wait →
  max_wait - wait_count ≤ Z.of_nat fuel →
  (∀ t : nat, (t ≤ Z.to_nat max_wait)%nat → progress_store (env t) !! op = None) →
  wait_for_operation env op fuel wait_count = Return max_wait.
Proof.
  intros Hrange Hfuel Hmissing. revert wait_count Hrange Hfuel.
  induction fuel as [|fuel IH]; intros wait_count Hrange Hfuel; simpl.
  - assert (wait_count = max_wait) as -> by lia.
    rewrite (bool_decide_eq_false_2 (max_wait < max_wait)) by lia.
    by rewrite andb_false_r.
  - rewrite bool_decide_eq_true_2 by (apply Hmissing; lia).
    case_bool_decide as Hlt; simpl.
    + apply IH; lia.
    + f_equal. lia.
Qed.

(** The first loop always comes to an end within [max_wait]
    iterations. *)
Lemma wait_for_operation_returns fuel wait_count :
  0 ≤ wait_count →
  max_wait - wait_count ≤ Z.of_nat fuel →
  ∃ final, wait_for_operation env op fuel wait_count = Return final.
Proof.
  revert wait_count. induction fuel as [|fuel IH]; intros wait_count Hge Hfuel; simpl.
  - rewrite (bool_decide_eq_false_2 (wait_count < max_wait)) by lia.
    rewrite andb_false_r. by eexists.
  - destruct (_ && _); [|by eexists]. apply IH; lia.
Qed.

Lemma stream_progress_timeout fuel :
  (∀ t : nat, (t ≤ 30)%nat → progress_store (env t) !! op = None) →
  stream_progress env op fuel
  = {| emitted := [(0%nat, Connected op); (30%nat, TimedOut)];
       ending := Ended false |}.
Proof.
  intros Hmissing. unfold stream_progress.
  rewrite wait_for_operation_missing; [|done|done|done].
  change (Z.to_nat max_wait) with 30%nat.
  by rewrite Hmissing.
Qed.

(** C8. For every operation id that is not in the table at any of the
    31 looks the generator takes at it (before each of the 30 sleeps and
    after the last), the stream holds exactly one timeout event, which is
    its last event, and the generator has ended; the table entry is not
    touched. *)
Theorem stream_single_timeout fuel :
  (∀ t : nat, (t ≤ 30)%nat → progress_store (env t) !! op = None) →
  let s := stream_progress env op fuel in
  ending s = Ended false
  ∧ last (emitted s) = Some (30%nat, TimedOut)
  ∧ count_timeouts (emitted s) = 1%nat
  ∧ emitted s = [(0%nat, Connected op); (30%nat, TimedOut)].
Proof.
  intros Hmissing s. unfold s. rewrite stream_progress_timeout by done.
  simpl. repeat split; done.
Qed.

(** C9. The first event of the stream is always the connected event
    with the operation id, yielded before any sleep; so a stream that
    times out consists of the connected event followed by the timeout
    event. *)
Theorem stream_starts_connected fuel :
  (∃ rest,
     emitted (stream_progress env op fuel) = (0%nat, Connected op) :: rest)
  ∧ ((∀ t : nat, (t ≤ 30)%nat → progress_store (env t) !! op = None) →
     emitted (stream_progress env op fuel)
     = [(0%nat, Connected op); (30%nat, TimedOut)]).
Proof.
  split.
  - unfold stream_progress.
    destruct (wait_for_operation env op (Z.to_nat max_wait) 0) as [w| |];
      [|by eexists..].
    destruct (progress_store (env (Z.to_nat w)) !! op); by eexists.
  - intros Hmissing. by rewrite stream_progress_timeout.
Qed.

End StreamProperties.

(** Once the operation is found the stream follows the tracker; the
    clock reading stored under [completed_at] when a worker finishes
    makes the serialization of the next progress dict raise, and the
    stream ends with an error event. *)
Example stream_after_first_completion :
  let tracker := after_calls (init_tracker "op" 2 0)
                   [ {| uc_agent := 1; uc_status := "completed"; uc_subtopic := "Light";
                        uc_progress := 100; uc_now := 7 |} ] in
  let found (n : nat) :=
    {| progress_store := {["op" := 0%nat]}; objects := fun _ => tracker;
       next_object := 1 |} in
  stream_progress found "op" 5
  = {| emitted := [(0%nat, Connected "op");
                   (1%nat, StreamError "Object of type datetime is not JSON serializable")];
       ending := Ended false |}.
Proof. vm_compute. reflexivity. Qed.

Lemma stream_single_timeout_witness :
  let s := stream_progress idle_env "flashcards_1a2b3c4d" 5 in
  ending s = Ended false
  ∧ last (emitted s) = Some (30%nat, TimedOut)
  ∧ count_timeouts (emitted s) = 1%nat
  ∧ emitted s = [(0%nat, Connected "flashcards_1a2b3c4d"); (30%nat, TimedOut)].
Proof.
  apply (stream_single_timeout idle_env "flashcards_1a2b3c4d" 5).
  intros t _. reflexivity.
Defined.

Lemma stream_starts_connected_witness :
  emitted (stream_progress idle_env "flashcards_1a2b3c4d" 5)
  = [(0%nat, Connected "flashcards_1a2b3c4d"); (30%nat, TimedOut)].
Proof.
  apply (stream_starts_connected idle_env "flashcards_1a2b3c4d" 5).
  intros t _. reflexivity.
Defined.

(** * Further properties *)

(** ** The planner on every input *)

Section PlannerAnyInput.
Context `{rt : !PythonRuntime}.

(** X1. Whenever the decomposition yields labels, whatever the pool
    size and the requested total, also when they are zero or negative,
    the planner returns exactly max(1, min(max_agents, total_count))
    batches, numbered 1, 2, ... in order; every batch asks for at least
    one flashcard and the counts add up to max(1, total_count).  The test
    that skips a batch without flashcards never succeeds. *)
Theorem create_batches_never_drops configured decomposition labels max_agents state :
  yields_labels configured decomposition labels →
  let workers := Z.max 1 (Z.min max_agents (total_count state)) in
  ∃ batches,
    _create_batches configured decomposition max_agents state
      = Return (set_agents_count state workers, batches)
    ∧ agent_id <$> batches = (fun i => i + 1) <$> seqZ 0 workers
    ∧ Forall (fun b => 1 ≤ count b) batches
    ∧ sum_Z (count <$> batches) = Z.max 1 (total_count state).
Proof.
  intros Hlabels workers.
  destruct (create_batches_returns configured decomposition labels max_agents state
              Hlabels) as (subtopics & batches & _ & Hrun & Hplanned).
  fold workers in Hrun, Hplanned.
  exists batches. split; [done|].
  pose proof (planned_counts _ _ _ _ _ _ Hplanned) as Hcounts.
  assert (1 ≤ workers) as Hworkers by (unfold workers; lia).
  pose proof (Z.mod_pos_bound (total_count state) workers ltac:(lia)) as Hmod.
  split; [|split].
  - by rewrite (planned_ids _ _ _ _ _ _ Hplanned).
  - apply Forall_forall. intros b Hb.
    apply (list_elem_of_fmap_2 count) in Hb. rewrite Hcounts in Hb.
    apply list_elem_of_fmap in Hb as (i & -> & _). case_bool_decide; lia.
  - rewrite Hcounts.
    destruct (Z_of_nat_complete workers) as [n Hn]; [lia|].
    rewrite Hn. rewrite sum_Z_shares by (rewrite <- Hn; lia). rewrite <- Hn.
    pose proof (Z.div_mod (total_count state) workers ltac:(lia)) as Hdiv.
    destruct (decide (1 ≤ Z.min max_agents (total_count state))) as [Hbig|Hsmall].
    + assert (workers ≤ total_count state) by (unfold workers; lia).
      assert (1 ≤ total_count state / workers)
        by (apply Z.div_le_lower_bound; lia).
      rewrite (Z.max_r 1 (total_count state / workers)) by lia. lia.
    + assert (workers = 1) as Hone by (unfold workers; lia).
      rewrite Hone. rewrite Z.div_1_r, Z.mod_1_r. lia.
Qed.

(** X2. Whenever the decomposition yields labels and the pool has at
    least one agent, the number of batches the planner returns is the
    number [estimate_batches] announces for the same request, for every
    requested count; so the tracker created from the estimate already
    has the final number of workers. *)
Theorem estimate_batches_is_plan_size configured decomposition labels max_agents state
    op now :
  yields_labels configured decomposition labels →
  1 ≤ max_agents →
  ∃ state' batches,
    _create_batches configured decomposition max_agents state
      = Return (state', batches)
    ∧ Z.of_nat (length batches) = estimate_batches max_agents (total_count state)
    ∧ total_agents
        (init_tracker op (estimate_batches max_agents (total_count state)) now)
      = Z.of_nat (length batches).
Proof.
  intros Hlabels Hmax.
  destruct (create_batches_returns configured decomposition labels max_agents state
              Hlabels) as (subtopics & batches & _ & Hrun & _).
  eexists _, batches. split; [done|].
  destruct (create_batches_plan _ _ _ _ _ _ Hrun) as (_ & _ & Hlen & _).
  unfold estimate_batches, init_tracker. simpl.
  case_bool_decide; lia.
Qed.

End PlannerAnyInput.

Lemma create_batches_never_drops_witness :
  ∃ batches,
    _create_batches (rt := scenario_runtime) true (Replied "five labels") 4
        (new_state "Photosynthesis" 0 "medium" None "default")
      = Return (set_agents_count (new_state "Photosynthesis" 0 "medium" None "default") 1,
                batches)
    ∧ agent_id <$> batches = (fun i => i + 1) <$> seqZ 0 1
    ∧ Forall (fun b => 1 ≤ count b) batches
    ∧ sum_Z (count <$> batches) = 1.
Proof.
  apply (create_batches_never_drops (rt := scenario_runtime) true
           (Replied "five labels")
           ["Light reactions"; "Calvin cycle"; "Stomata"; "Pigments"; "C4"] 4
           (new_state "Photosynthesis" 0 "medium" None "default")).
  reflexivity.
Defined.

Lemma estimate_batches_is_plan_size_witness :
  ∃ state' batches,
    _create_batches (rt := scenario_runtime) true (Failed (RuntimeError "down")) 4
        photosynthesis_state
      = Return (state', batches)
    ∧ Z.of_nat (length batches) = estimate_batches 4 (total_count photosynthesis_state)
    ∧ total_agents
        (init_tracker "op" (estimate_batches 4 (total_count photosynthesis_state)) 0)
      = Z.of_nat (length batches).
Proof.
  apply (estimate_batches_is_plan_size (rt := scenario_runtime) true
           (Failed (RuntimeError "down")) [] 4 photosynthesis_state "op" 0);
    [reflexivity | discriminate].
Defined.

(** ** What the orchestrator can answer *)

Section Outcomes.
Context `{rt : !PythonRuntime}.

Lemma conclude_outcome cb total topic_ difficulty_ bs results state calls r st calls' :
  conclude cb total topic_ difficulty_ bs results state calls = (Return r, st, calls') →
  (success r = true ∧ error r = None)
  ∨ (success r = false ∧ error r = Some "Falha na geração de flashcards").
Proof.
  unfold conclude.
  destruct (collect cb total (zip bs results) [] state calls)
    as [[[finished|e|] st0] calls0]; simpl; try done.
  destruct (completed_flashcards st0); intros [= <- _ _]; simpl; auto.
Qed.

(** The loop over the results of the workers never raises. *)
Lemma conclude_workers configured remote cb total topic_ difficulty_ bs state :
  completed_flashcards state = [] →
  ∃ r st,
    ∀ calls,
      conclude cb total topic_ difficulty_ bs
        ((fun t => Replied (batch_after configured remote cb total t)) <$> tasks_of bs)
        state calls
      = (Return r, st, calls).
Proof.
  intros Hempty.
  destruct (conclude_replied cb total topic_ difficulty_ bs
              (batch_after configured remote cb total <$> tasks_of bs) state)
    as (r & st & Hconclude & _); [| |done|].
  - unfold tasks_of. by rewrite !length_fmap.
  - apply Forall_forall. intros r' (t & -> & _)%list_elem_of_fmap Hcompleted.
    destruct (batch_after_cases configured remote cb total t)
      as [(_ & items & Hitems & _)|(Herr & _)]; [by eexists|].
    rewrite Herr in Hcompleted. done.
  - exists r, st. intros calls. rewrite <- Hconclude.
    by rewrite <- list_fmap_compose.
Qed.

(** X3. Every answer of [generate_flashcards_parallel] is one of six:
    the provider is not configured; the count is not positive; the
    planner raises, which is reported as a critical error with the text
    of the exception and count 0; the pool is empty and the lookup of the
    first agent fails, which is reported as a critical error with count
    0; the aggregate has flashcards and the answer is a success; or no
    flashcard was produced.  The answers for an empty plan and for a
    runtime error inside the [try] block are never given. *)
Theorem generation_outcomes configured decomposition remote schedule max_agents
    topic_ count_ difficulty_ subject_ user_id_ cb r :
  returned (generate_flashcards_parallel configured decomposition remote schedule
              max_agents topic_ count_ difficulty_ subject_ user_id_ cb)
  = Return r →
  (configured = false ∧ r = failure "Serviço de IA indisponível no momento")
  ∨ (configured = true ∧ count_ ≤ 0
     ∧ r = failure "Quantidade de flashcards deve ser positiva")
  ∨ (configured = true ∧ 0 < count_
     ∧ ∃ message,
         _create_batches configured decomposition max_agents
           (new_state topic_ count_ difficulty_ subject_ user_id_)
         = Raise (OtherException message)
         ∧ success r = false
         ∧ error r = Some ("Erro crítico: " +:+ message)
         ∧ res_count r = Some 0)
  ∨ (configured = true ∧ 0 < count_ ∧ max_agents ≤ 0
     ∧ success r = false
     ∧ error r = Some "Erro crítico: list index out of range"
     ∧ res_count r = Some 0)
  ∨ (configured = true ∧ 0 < count_ ∧ 1 ≤ max_agents
     ∧ ((success r = true ∧ error r = None)
        ∨ (success r = false ∧ error r = Some "Falha na geração de flashcards"))).
Proof.
  unfold generate_flashcards_parallel.
  destruct configured; simpl; [|intros [= <-]; by left].
  case_bool_decide as Hcount; [intros [= <-]; right; by left|].
  set (state := new_state topic_ count_ difficulty_ subject_ user_id_).
  destruct (create_batches_ids true decomposition max_agents state)
    as [[message Hraise]|(bs & Hplan & Hids & _)].
  { unfold parallel_body. rewrite Hraise. simpl. intros [= <-].
    do 2 right. left. split; [done|]. split; [lia|]. by exists message. }
  unfold parallel_body. rewrite Hplan.
  assert (bs ≠ []) as Hne.
  { intros ->. apply (f_equal length) in Hids.
    rewrite !length_fmap, length_seqZ in Hids. simpl in Hids. lia. }
  destruct bs as [|b bs']; [done|]. set (bs := b :: bs') in *.
  destruct (decide (1 ≤ max_agents)) as [Hpool|Hpool].
  - rewrite create_tasks_in_pool by (by eapply plan_in_pool).
    destruct (run_tasks true remote cb (Z.of_nat (length bs)) (tasks_of bs) schedule)
      as [states made] eqn:Hrun.
    destruct (gather states) as [results|e|] eqn:Hgather; simpl; try done.
    + assert (gather (run_tasks true remote cb (Z.of_nat (length bs)) (tasks_of bs)
                        schedule).1 = Return results) as Hg by (by rewrite Hrun).
      apply gather_in_task_order in Hg. subst results.
      destruct (conclude_workers true remote cb (Z.of_nat (length bs)) topic_
                  difficulty_ bs (set_batches (set_agents_count state
                    (Z.max 1 (Z.min max_agents (total_count state)))) bs))
        as (r0 & st & Hconclude); [done|].
      rewrite Hconclude. simpl. intros [= <-]. do 4 right.
      repeat split; try done; try lia.
      exact (conclude_outcome _ _ _ _ _ _ _ _ _ _ _ (Hconclude [])).
    + by apply gather_not_Raise in Hgather.
  - unfold bs. rewrite create_tasks_empty_pool by lia. simpl.
    intros [= <-]. do 3 right. left. repeat split; try done; lia.
Qed.

End Outcomes.

Lemma generation_outcomes_witness :
  (true = false ∧ scenario_result = failure "Serviço de IA indisponível no momento")
  ∨ (true = true ∧ 3 ≤ 0
     ∧ scenario_result = failure "Quantidade de flashcards deve ser positiva")
  ∨ (true = true ∧ 0 < 3
     ∧ ∃ message,
         _create_batches (rt := scenario_runtime) true (Failed (RuntimeError "down")) 4
           (new_state "Photosynthesis" 3 "medium" None "default")
         = Raise (OtherException message)
         ∧ success scenario_result = false
         ∧ error scenario_result = Some ("Erro crítico: " +:+ message)
         ∧ res_count scenario_result = Some 0)
  ∨ (true = true ∧ 0 < 3 ∧ 4 ≤ 0
     ∧ success scenario_result = false
     ∧ error scenario_result = Some "Erro crítico: list index out of range"
     ∧ res_count scenario_result = Some 0)
  ∨ (true = true ∧ 0 < 3 ∧ 1 ≤ 4
     ∧ ((success scenario_result = true ∧ error scenario_result = None)
        ∨ (success scenario_result = false
           ∧ error scenario_result = Some "Falha na geração de flashcards"))).
Proof.
  apply (generation_outcomes (rt := scenario_runtime) true
           (Failed (RuntimeError "down")) scenario_remote last_finishes_first 4
           "Photosynthesis" 3 "medium" None "default" true scenario_result).
  reflexivity.
Defined.

(** A reply that decodes to an object holding the labels is answered as a
    critical error, whatever the schedule. *)
Example object_reply_is_critical_error :
  ∀ schedule,
    returned (generate_flashcards_parallel (rt := scenario_runtime) true
                (Replied "labels in an object") scenario_remote schedule 4
                "Photosynthesis" 10 "medium" None "default" true)
    = Return {| success := false;
                error := Some "Erro crítico: 'dict' object has no attribute 'append'";
                res_flashcards := None; res_topic := Some "Photosynthesis";
                res_count := Some 0; res_difficulty := None; agents_used := None;
                batches_completed := None; batches_failed := None;
                failed_batches := None; details := None |}.
Proof. intros schedule. reflexivity. Qed.

(** ** What a worker does to a reply *)

Section WorkerReplies.
Context `{rt : !PythonRuntime}.

Lemma tag_flashcards_returns_iff agent batch index items :
  (∃ out, tag_flashcards agent batch index items = Return out)
  ↔ forallb is_object items = true.
Proof.
  revert index. induction items as [|item items IH]; intros index; simpl.
  - split; [done|by eexists].
  - rewrite andb_true_iff, <- (IH (index + 1)).
    destruct item as [| | | | |fields]; simpl;
      try (split; [by intros [? ?]|by intros [? ?]]).
    split.
    + intros [out Hout].
      destruct (tag_flashcards agent batch (index + 1) items); [|done..].
      split; [done|by eexists].
    + intros [_ [out ->]]. by eexists.
Qed.

Lemma tagged_value_returns_iff agent batch value :
  (∃ cards, tagged_value agent batch value = Return cards)
  ↔ taggable value = true.
Proof.
  destruct value as [| | |s|items|fields]; simpl;
    try (split; [by intros [? ?]|done]).
  - destruct s as [|c s]; simpl; [split; [done|by eexists]|].
    split; [by intros [? ?]|done].
  - rewrite <- (tag_flashcards_returns_iff agent batch 0).
    unfold fmap, py_fmap. split.
    + intros [cards Hcards].
      destruct (tag_flashcards agent batch 0 items); [by eexists|done..].
    + intros [out ->]. by eexists.
  - destruct fields as [|[k v] fields]; simpl; [split; [done|by eexists]|].
    split; [by intros [? ?]|done].
Qed.

(** X5. The worker always hands its batch back, with the fields that
    identify it untouched and status completed or error; the callback,
    when there is one, is called with processing at 5 and then with that
    status at 100.  The batch is completed exactly when the provider is
    configured and answers with text that decodes to a JSON object whose
    [flashcards] entry, an empty list when absent, is a list of dicts or
    an empty dict or string.  A batch in error keeps its flashcards and
    carries a message. *)
Theorem worker_completes_iff configured remote cb agent batch total :
  ∃ batch',
    generate_flashcards_batch configured remote cb agent batch total
    = (Return batch',
       emit cb agent batch total "processing" 5
       ++ emit cb agent batch total (status batch') 100)
    ∧ (batch_id batch', topic batch', subtopic batch', count batch',
       difficulty batch', agent_id batch')
      = (batch_id batch, topic batch, subtopic batch, count batch,
         difficulty batch, agent_id batch)
    ∧ (status batch' = "completed" ∨ status batch' = "error")
    ∧ (status batch' = "completed" ↔
       configured = true
       ∧ ∃ content fields,
           remote = Replied content
           ∧ json_loads (strip_code_fence content) = inr (JObj fields)
           ∧ taggable (default (JArr []) (dict_get "flashcards" fields)) = true)
    ∧ (status batch' = "error" →
       flashcards batch' = flashcards batch ∧ is_Some (error_message batch')).
Proof.
  destruct (finish_batch_returns configured remote cb agent batch total)
    as (batch' & Hrun & Hcase).
  exists batch'. unfold generate_flashcards_batch. rewrite Hrun.
  split; [done|].
  assert ((∃ cards, try_generate configured remote agent batch = Return cards) ↔
          configured = true
          ∧ ∃ content fields,
              remote = Replied content
              ∧ json_loads (strip_code_fence content) = inr (JObj fields)
              ∧ taggable (default (JArr []) (dict_get "flashcards" fields)) = true)
    as Hiff.
  { unfold try_generate, create_chat_completion.
    destruct configured; simpl; [|split; [by intros [? ?]|by intros [? _]]].
    destruct remote as [content|e]; simpl.
    - destruct (json_loads (strip_code_fence content)) as [msg|value] eqn:Hjson; simpl.
      + split; [by intros [? ?]|].
        intros (_ & ? & ? & [= <-] & ? & _). congruence.
      + destruct value as [| | | | |fields]; simpl;
          try (split; [by intros [? ?]|intros (_ & ? & ? & [= <-] & ? & _); congruence]).
        rewrite tagged_value_returns_iff. split.
        * intros Htag. split; [done|]. by exists content, fields.
        * intros (_ & ? & ? & [= <-] & Hfields & ?). congruence.
    - split; [by intros [? ?]|]. by intros (_ & ? & ? & ? & _). }
  destruct Hcase as [(cards & Hgen & ->)|(e & message & Hgen & ->)]; simpl.
  - split; [done|]. split; [by left|]. split; [|done].
    split; [intros _|done]. apply Hiff. by eexists.
  - split; [done|]. split; [by right|]. split; [|intros _; split; [done|by eexists]].
    split; [done|]. intros Hok. apply Hiff in Hok as [cards Hcards].
    rewrite Hcards in Hgen. done.
Qed.




End WorkerReplies.


(** ** The tracker under any sequence of operations *)

Section TrackerInvariants.

Lemma total_agents_after_call self c :
  total_agents (after_call self c) = total_agents self.
Proof.
  unfold after_call, update_agent_status.
  by destruct (_ !! uc_agent c).
Qed.

Lemma total_agents_after_calls self calls :
  total_agents (after_calls self calls) = total_agents self.
Proof.
  unfold after_calls. revert self.
  induction calls as [|c calls IH]; intros self; [done|].
  simpl. by rewrite IH, total_agents_after_call.
Qed.

Lemma set_total_agents_same self :
  set_total_agents (total_agents self) self = self.
Proof. unfold set_total_agents. by repeat case_bool_decide. Qed.

Lemma update_agent_status_returns agent st subtopic_ progress now self :
  (∃ self', update_agent_status agent st subtopic_ progress now self = Return self')
  ↔ (is_Some (agents_status self !! agent) ∨ 1 ≤ agent).
Proof.
  unfold update_agent_status.
  destruct (agents_status self !! agent) as [slot|] eqn:Hslot.
  - rewrite Hslot. split; [intros _; left; by eexists|intros _; by eexists].
  - rewrite lookup_ensure_agent_slots, Hslot. case_decide as Hrange.
    + split; [intros _; right; lia|intros _; by eexists].
    + split; [by intros [? ?]|]. intros [[? ?]|?]; [done|lia].
Qed.

Lemma update_agent_status_raises agent st subtopic_ progress now self e :
  update_agent_status agent st subtopic_ progress now self = Raise e →
  e = OtherException "KeyError"
  ∧ agents_status self !! agent = None ∧ agent < 1.
Proof.
  unfold update_agent_status.
  destruct (agents_status self !! agent) as [slot|] eqn:Hslot.
  - by rewrite Hslot.
  - rewrite lookup_ensure_agent_slots, Hslot. case_decide as Hrange; [done|].
    intros [= <-]. split; [done|]. split; [done|lia].
Qed.

Lemma stamped_init op total now : stamped (init_tracker op total now).
Proof.
  intros i slot. unfold init_tracker. simpl.
  rewrite lookup_ensure_agent_slots, lookup_empty.
  case_decide; [|done]. intros [= <-]. simpl. split; [by intros [? ?]|done].
Qed.

Lemma stamped_set_total_agents total self :
  stamped self → stamped (set_total_agents total self).
Proof.
  intros Hself. unfold set_total_agents.
  repeat case_bool_decide; try done.
  intros i slot. simpl. rewrite lookup_ensure_agent_slots.
  destruct (agents_status self !! i) as [old|] eqn:Hold.
  - intros [= <-]. by eapply Hself.
  - case_decide; [|done]. intros [= <-]. simpl. split; [by intros [? ?]|done].
Qed.

Lemma stamped_after_call self c :
  stamped self → stamped (after_call self c).
Proof.
  intros Hself. unfold after_call, update_agent_status.
  set (slots := match agents_status self !! uc_agent c with
                | Some _ => agents_status self
                | None => _ensure_agent_slots (uc_agent c) (agents_status self)
                end).
  assert (∀ i slot, slots !! i = Some slot →
            (is_Some (completed_at slot) ↔ is_terminal (slot_status slot) = true))
    as Hslots.
  { intros i slot. unfold slots.
    destruct (agents_status self !! uc_agent c); [by apply Hself|].
    rewrite lookup_ensure_agent_slots.
    destruct (agents_status self !! i) as [old|] eqn:Hold.
    - intros [= <-]. by eapply Hself.
    - case_decide; [|done]. intros [= <-]. simpl. split; [by intros [? ?]|done]. }
  destruct (slots !! uc_agent c) as [previous|]; [|done].
  intros i slot. simpl.
  destruct (decide (i = uc_agent c)) as [->|Hne].
  - rewrite lookup_insert_eq. intros [= <-]. simpl.
    destruct (is_terminal (uc_status c)); (split; [|done]); [by eexists|by intros [? ?]].
  - rewrite lookup_insert_ne by done. apply Hslots.
Qed.

Lemma stamped_after_calls self calls :
  stamped self → stamped (after_calls self calls).
Proof.
  unfold after_calls. revert self.
  induction calls as [|c calls IH]; intros self Hself; [done|].
  simpl. by apply IH, stamped_after_call.
Qed.

Lemma slots_in_place_init op total now : slots_in_place (init_tracker op total now).
Proof.
  split; intros i; unfold init_tracker; simpl;
    rewrite lookup_ensure_agent_slots, lookup_empty; case_decide; try done.
  intros _. lia.
Qed.

Lemma slots_in_place_set_total_agents total self :
  slots_in_place self → slots_in_place (set_total_agents total self).
Proof.
  intros [Hkeys Hall]. unfold set_total_agents.
  repeat case_bool_decide; try done.
  split; intros i; simpl; rewrite lookup_ensure_agent_slots;
    destruct (agents_status self !! i) as [old|] eqn:Hold.
  - intros _. apply Hkeys. by rewrite Hold.
  - case_decide; [intros _; lia|by intros [? ?]].
  - by eexists.
  - intros Hi. rewrite decide_True by done. by eexists.
Qed.

Lemma slots_in_place_after_call self c :
  slots_in_place self → slots_in_place (after_call self c).
Proof.
  intros [Hkeys Hall]. unfold after_call, update_agent_status.
  set (slots := match agents_status self !! uc_agent c with
                | Some _ => agents_status self
                | None => _ensure_agent_slots (uc_agent c) (agents_status self)
                end).
  assert ((∀ i, is_Some (slots !! i) → 1 ≤ i)
          ∧ (∀ i, is_Some (agents_status self !! i) → is_Some (slots !! i)))
    as [Hslots Hkept].
  { unfold slots. destruct (agents_status self !! uc_agent c); [done|].
    split; intros i; rewrite lookup_ensure_agent_slots;
      destruct (agents_status self !! i) as [old|] eqn:Hold; try done.
    - intros _. apply Hkeys. by rewrite Hold.
    - case_decide; [intros _; lia|by intros [? ?]]. }
  destruct (slots !! uc_agent c) as [previous|] eqn:Hprevious; [|done].
  split; intros i; simpl.
  - destruct (decide (i = uc_agent c)) as [->|Hne].
    + intros _. apply Hslots. by rewrite Hprevious.
    + rewrite lookup_insert_ne by done. apply Hslots.
  - intros Hi. destruct (decide (i = uc_agent c)) as [->|Hne].
    + rewrite lookup_insert_eq. by eexists.
    + rewrite lookup_insert_ne by done. by apply Hkept, Hall.
Qed.

Lemma after_ops_kept op total now ops :
  let tracker := foldl after_op (init_tracker op total now) ops in
  slots_in_place tracker ∧ stamped tracker.
Proof.
  induction ops as [|o ops IH] using rev_ind.
  - split; [apply slots_in_place_init|apply stamped_init].
  - rewrite foldl_app. cbn [foldl]. cbv zeta in IH. destruct IH as [Hplace Hstamped].
    destruct o as [n|c]; simpl.
    + by split; [apply slots_in_place_set_total_agents|apply stamped_set_total_agents].
    + by split; [apply slots_in_place_after_call|apply stamped_after_call].
Qed.

(** X6. However a tracker is used after its construction, by calls of
    [set_total_agents] and [update_agent_status] in any order and with
    any arguments, it keeps its operation id and start time, its total is
    at least 1, its counter is not negative, the workers 1 .. total all
    have a slot, no slot has a number below 1, and a slot carries a
    completion time exactly when its status is completed or error. *)
Theorem tracker_well_formed op total now ops :
  let tracker := foldl after_op (init_tracker op total now) ops in
  operation_id tracker = op
  ∧ start_time tracker = now
  ∧ 1 ≤ total_agents tracker
  ∧ 0 ≤ completed_agents tracker
  ∧ (∀ i, 1 ≤ i ≤ total_agents tracker → is_Some (agents_status tracker !! i))
  ∧ (∀ i slot, agents_status tracker !! i = Some slot →
       1 ≤ i
       ∧ (is_Some (completed_at slot) ↔ is_terminal (slot_status slot) = true)).
Proof.
  intros tracker.
  destruct (after_ops_kept op total now ops) as [[Hkeys Hall] Hstamped].
  fold tracker in Hkeys, Hall, Hstamped.
  assert (operation_id tracker = op ∧ start_time tracker = now
          ∧ 1 ≤ total_agents tracker ∧ 0 ≤ completed_agents tracker)
    as (? & ? & ? & ?).
  { unfold tracker. clear. induction ops as [|o ops IH] using rev_ind.
    - simpl. repeat split; try done. lia.
    - rewrite foldl_app. cbn [foldl].
      destruct IH as (Hop & Hstart & Htotal & Hcount).
      destruct o as [n|c]; simpl.
      + unfold set_total_agents. repeat case_bool_decide; simpl; try done.
        repeat split; try done. lia.
      + unfold after_call, update_agent_status.
        destruct (_ !! uc_agent c); simpl; [|done].
        repeat split; try done. destruct (_ && _); lia. }
  repeat split; try done.
  - apply Hkeys. by eexists.
  - by apply (Hstamped i slot).
  - by apply (Hstamped i slot).
Qed.

(** X7. On a tracker used in any way since its construction, a progress
    report is refused, with a [KeyError] and without any change, exactly
    when the worker number is below 1.  A report for a worker from 1
    upwards is accepted even beyond the total: the total stays as it is,
    the slot of the worker takes the reported status, the slots that were
    there keep their content, and the workers below it that had no slot
    get a waiting one. *)
Theorem update_refused_below_one op total now ops agent st subtopic_ progress at_ :
  let tracker := foldl after_op (init_tracker op total now) ops in
  let outcome := update_agent_status agent st subtopic_ progress at_ tracker in
  (agent < 1 → outcome = Raise (OtherException "KeyError"))
  ∧ (1 ≤ agent →
     ∃ tracker',
       outcome = Return tracker'
       ∧ total_agents tracker' = total_agents tracker
       ∧ (slot_status <$> agents_status tracker' !! agent) = Some st
       ∧ ∀ i, i ≠ agent →
           agents_status tracker' !! i
           = match agents_status tracker !! i with
             | Some slot => Some slot
             | None =>
                 if decide (1 ≤ i < agent ∧ agents_status tracker !! agent = None)
                 then Some waiting_slot else None
             end).
Proof.
  intros tracker outcome.
  destruct (after_ops_kept op total now ops) as [[Hkeys _] _].
  fold tracker in Hkeys. unfold outcome, update_agent_status. split.
  - intros Hlow.
    destruct (agents_status tracker !! agent) as [slot|] eqn:Hslot.
    + assert (1 ≤ agent) by (apply Hkeys; by rewrite Hslot). lia.
    + rewrite lookup_ensure_agent_slots, Hslot. by rewrite decide_False by lia.
  - intros Hagent.
    destruct (agents_status tracker !! agent) as [slot|] eqn:Hslot.
    + rewrite Hslot. eexists. split; [done|]. simpl. split; [done|].
      rewrite lookup_insert_eq. split; [done|].
      intros i Hne. rewrite lookup_insert_ne by done.
      destruct (agents_status tracker !! i); [done|].
      rewrite decide_False; [done|]. by intros [_ ?].
    + rewrite lookup_ensure_agent_slots, Hslot, decide_True by lia.
      eexists. split; [done|]. simpl. split; [done|].
      rewrite lookup_insert_eq. split; [done|].
      intros i Hne. rewrite lookup_insert_ne by done.
      rewrite lookup_ensure_agent_slots.
      destruct (agents_status tracker !! i); [done|].
      repeat case_decide; try done; exfalso; naive_solver lia.
Qed.

End TrackerInvariants.

(** ** The counter and the statuses *)

Section TrackerCounting.

Lemma finished_count_change (f g : Z → string) (l : list Z) a :
  NoDup l →
  (∀ x, x ≠ a → g x = f x) →
  Z.of_nat (length (filter (fun i => is_terminal (g i) = true) l))
  + (if decide (a ∈ l) then if is_terminal (f a) then 1 else 0 else 0)
  = Z.of_nat (length (filter (fun i => is_terminal (f i) = true) l))
    + (if decide (a ∈ l) then if is_terminal (g a) then 1 else 0 else 0).
Proof.
  intros Hnodup Hsame. induction Hnodup as [|x l Hx Hnodup IH]; [done|].
  rewrite !filter_cons. destruct (decide (x = a)) as [->|Hne].
  - rewrite !(decide_True (P := a ∈ a :: l)) by set_solver.
    rewrite !(decide_False (P := a ∈ l)) in IH by done.
    destruct (is_terminal (f a)), (is_terminal (g a)); simpl;
      repeat case_decide; simpl; try done; lia.
  - rewrite (Hsame x Hne).
    destruct (decide (a ∈ l)) as [Hin|Hin].
    + rewrite !(decide_True (P := a ∈ x :: l)) by set_solver.
      case_decide; simpl; lia.
    + rewrite !(decide_False (P := a ∈ x :: l)) by set_solver.
      case_decide; simpl; lia.
Qed.

Lemma length_filter_all {A} (P : A → Prop) `{!∀ x, Decision (P x)} (l : list A) :
  Forall P l → length (filter P l) = length l.
Proof.
  induction 1 as [|x l Hx _ IH]; [done|].
  rewrite filter_cons, decide_True by done. simpl. by rewrite IH.
Qed.

Lemma length_finished_workers self :
  0 ≤ total_agents self →
  Z.of_nat (length (finished_workers self)) ≤ total_agents self.
Proof.
  intros Htotal. unfold finished_workers.
  pose proof (length_filter (fun i => is_terminal (status_of self i) = true)
                (seqZ 1 (total_agents self))) as Hle.
  rewrite length_seqZ in Hle. lia.
Qed.

Lemma after_call_finished self c :
  1 ≤ uc_agent c ≤ total_agents self →
  Z.of_nat (length (finished_workers (after_call self c)))
  + (if is_terminal (status_of self (uc_agent c)) then 1 else 0)
  = Z.of_nat (length (finished_workers self))
    + (if is_terminal (uc_status c) then 1 else 0).
Proof.
  intros Hagent.
  destruct (after_call_effect self c) as (Htotal & _ & Hstatus); [lia|].
  unfold finished_workers. rewrite Htotal.
  pose proof (finished_count_change (status_of self) (status_of (after_call self c))
                (seqZ 1 (total_agents self)) (uc_agent c)
                (NoDup_seqZ _ _)) as Hcount.
  rewrite !(decide_True (P := uc_agent c ∈ seqZ 1 (total_agents self))) in Hcount
    by (apply elem_of_seqZ; lia).
  rewrite (Hstatus (uc_agent c)), (decide_True (P := uc_agent c = uc_agent c)) in Hcount
    by done.
  apply Hcount. intros x Hx. by rewrite Hstatus, decide_False.
Qed.

Lemma balanced_after_call self c :
  1 ≤ uc_agent c ≤ total_agents self →
  balanced self → balanced (after_call self c).
Proof.
  intros Hagent [Hlow Hhigh]. unfold balanced.
  pose proof (after_call_finished self c Hagent) as Hcount.
  pose proof (length_finished_workers (after_call self c)) as Hle.
  destruct (after_call_effect self c) as (Htotal & Hcompleted & _); [lia|].
  rewrite Htotal in *. rewrite Hcompleted.
  destruct (is_terminal (status_of self (uc_agent c))),
           (is_terminal (uc_status c)); simpl; lia.
Qed.

Lemma balanced_after_calls self calls :
  Forall (fun c => 1 ≤ uc_agent c ≤ total_agents self) calls →
  balanced self → balanced (after_calls self calls).
Proof.
  unfold after_calls. revert self.
  induction calls as [|c calls IH]; intros self Hall Hself; [done|].
  apply Forall_cons in Hall as [Hc Hall]. simpl. apply IH.
  - by rewrite total_agents_after_call.
  - by apply balanced_after_call.
Qed.

(** As long as no worker shown as finished is set back, the counter is
    the number of workers shown as finished. *)
Lemma counted_after_call self c :
  1 ≤ uc_agent c ≤ total_agents self →
  completed_agents self = Z.of_nat (length (finished_workers self)) →
  (is_terminal (status_of self (uc_agent c)) = true →
   is_terminal (uc_status c) = true) →
  completed_agents (after_call self c)
  = Z.of_nat (length (finished_workers (after_call self c))).
Proof.
  intros Hagent Hself Hforward.
  pose proof (after_call_finished self c Hagent) as Hcount.
  pose proof (length_finished_workers (after_call self c)) as Hle.
  destruct (after_call_effect self c) as (Htotal & Hcompleted & _); [lia|].
  rewrite Htotal in *. rewrite Hcompleted.
  destruct (is_terminal (status_of self (uc_agent c))),
           (is_terminal (uc_status c)); simpl; try lia.
Qed.

Lemma balanced_complete self :
  0 ≤ total_agents self →
  balanced self →
  (∀ i, 1 ≤ i ≤ total_agents self → is_terminal (status_of self i) = true) →
  completed_agents self = total_agents self.
Proof.
  intros Htotal [Hlow Hhigh] Hall.
  assert (length (finished_workers self) = Z.to_nat (total_agents self)) as Hlen.
  { unfold finished_workers. rewrite length_filter_all; [by rewrite length_seqZ|].
    apply Forall_forall. intros i Hi%elem_of_seqZ. apply Hall. lia. }
  lia.
Qed.

Lemma status_after_calls self calls st i :
  Forall (fun c => uc_status c = st ∧ 1 ≤ uc_agent c) calls →
  status_of (after_calls self calls) i
  = if decide (i ∈ uc_agent <$> calls) then st else status_of self i.
Proof.
  unfold after_calls. revert self.
  induction calls as [|c calls IH]; intros self Hall; [done|].
  apply Forall_cons in Hall as [[Hst Hc] Hall]. simpl. rewrite IH by done.
  destruct (after_call_effect self c Hc) as (_ & _ & Hstatus).
  rewrite Hstatus, Hst.
  destruct (decide (i ∈ uc_agent <$> calls)) as [Hin|Hin].
  - by rewrite decide_True by set_solver.
  - destruct (decide (i = uc_agent c)) as [->|Hne].
    + by rewrite decide_True by set_solver.
    + by rewrite decide_False by set_solver.
Qed.

Lemma objects_handle_progress l now w call :
  objects (handle_progress l now w call) l
  = after_call (match pc_total call with
                | Some total => set_total_agents total (objects w l)
                | None => objects w l
                end) (to_update now call).
Proof. unfold handle_progress, set_object. simpl. by rewrite decide_True. Qed.

Lemma objects_handle_progress_all l now w calls :
  Forall (fun c => pc_total c = Some (total_agents (objects w l))) calls →
  objects (foldl (handle_progress l now) w calls) l
  = after_calls (objects w l) (to_update now <$> calls).
Proof.
  unfold after_calls. revert w.
  induction calls as [|c calls IH]; intros w Hall; [done|].
  apply Forall_cons in Hall as [Hc Hall].
  assert (objects (handle_progress l now w c) l
          = after_call (objects w l) (to_update now c)) as Hstep.
  { rewrite objects_handle_progress, Hc. by rewrite set_total_agents_same. }
  simpl. rewrite IH.
  - by rewrite Hstep.
  - by rewrite Hstep, total_agents_after_call.
Qed.

Lemma objects_finalize_agents l now request st progress w :
  objects (finalize_agents l now request st progress w) l
  = after_calls (objects w l)
      (finalize_calls now (rq_topic request) st progress (total_agents (objects w l))).
Proof.
  unfold finalize_agents, set_object, after_calls, finalize_calls. simpl.
  by rewrite decide_True, foldl_fmap.
Qed.

(** After [finalize_agents] with a final status the tracker is
    complete. *)
Lemma finalize_completes self now topic_ st progress :
  1 ≤ total_agents self →
  balanced self →
  is_terminal st = true →
  let self' := after_calls self
                 (finalize_calls now topic_ st progress (total_agents self)) in
  total_agents self' = total_agents self
  ∧ completed_agents self' = total_agents self
  ∧ ∀ i, 1 ≤ i ≤ total_agents self → status_of self' i = st.
Proof.
  intros Htotal Hbalanced Hst self'.
  assert (total_agents self' = total_agents self) as Hsame
    by apply total_agents_after_calls.
  assert (∀ i, 1 ≤ i ≤ total_agents self → status_of self' i = st) as Hall.
  { intros i Hi. unfold self'. rewrite (status_after_calls _ _ st).
    - rewrite decide_True; [done|]. unfold finalize_calls.
      rewrite <- list_fmap_compose. apply list_elem_of_fmap. exists i.
      split; [done|]. apply elem_of_seqZ. lia.
    - unfold finalize_calls. apply Forall_fmap, Forall_forall.
      intros k Hk%elem_of_seqZ. simpl. split; [done|lia]. }
  split; [done|]. split; [|done].
  rewrite <- Hsame. apply balanced_complete.
  - lia.
  - apply balanced_after_calls; [|done]. unfold finalize_calls.
    apply Forall_fmap, Forall_forall. intros k Hk%elem_of_seqZ. simpl. lia.
  - intros i Hi. rewrite Hall by lia. done.
Qed.

Lemma filter_none {A} (P : A → Prop) `{!∀ x, Decision (P x)} (l : list A) :
  Forall (fun x => ¬ P x) l → filter P l = [].
Proof.
  induction 1 as [|x l Hx _ IH]; [done|].
  by rewrite filter_cons, decide_False.
Qed.

Lemma status_of_init op total now i : status_of (init_tracker op total now) i = "waiting".
Proof.
  unfold status_of, init_tracker. simpl.
  rewrite lookup_ensure_agent_slots, lookup_empty. by case_decide.
Qed.

Lemma balanced_init op total now : balanced (init_tracker op total now).
Proof.
  unfold balanced, finished_workers.
  rewrite filter_none; [simpl; lia|].
  apply Forall_forall. intros i _. by rewrite status_of_init.
Qed.

End TrackerCounting.

(** ** The tracker during and after a run *)

Section RunAndTracker.
Context `{rt : !PythonRuntime}.

Lemma emit_calls cb agent batch total st progress :
  Forall (fun c => pc_total c = Some total ∧ pc_agent c = agent ∧ pc_status c = st)
         (emit cb agent batch total st progress).
Proof. unfold emit. destruct cb; by repeat constructor. Qed.

(** Every call made by the tasks carries the number of batches and the
    number of the agent of one of the tasks. *)
Lemma run_tasks_calls configured remote cb total tasks schedule :
  Forall (fun c => pc_total c = Some total
                   ∧ ∃ t, t ∈ tasks ∧ pc_agent c = task_agent t)
         (run_tasks configured remote cb total tasks schedule).2.
Proof.
  unfold run_tasks. induction schedule as [|j schedule IH] using rev_ind; [done|].
  rewrite foldl_app. cbn [foldl].
  destruct (foldl _ _ schedule) as [states made]. simpl in IH.
  unfold resume_task.
  destruct (tasks !! j) as [t|] eqn:Ht; [|done].
  assert (t ∈ tasks) as Hin by (by eapply list_elem_of_lookup_2).
  destruct (states !! j) as [[| |r]|]; simpl; try done.
  - apply Forall_app. split; [done|].
    eapply Forall_impl; [apply emit_calls|].
    intros c (? & ? & _). eauto.
  - destruct (finish_batch_returns configured (remote (task_agent t)) cb
                (task_agent t) (task_batch t) total) as (b & -> & _). simpl.
    apply Forall_app. split; [done|].
    eapply Forall_impl; [apply emit_calls|].
    intros c (? & ? & _). eauto.
Qed.

(** The calls of a run that builds its state.  When the planner raises
    there is none and the run fails; otherwise there is one queued call
    per batch, then the calls of the tasks, and the run has returned
    exactly when every task is done. *)
Lemma run_calls_shape decomposition remote schedule max_agents
    topic_ count_ difficulty_ subject_ user_id_ cb :
  0 < count_ →
  let n := Z.max 1 (Z.min max_agents count_) in
  let run := generate_flashcards_parallel true decomposition remote schedule
               max_agents topic_ count_ difficulty_ subject_ user_id_ cb in
  (∃ message,
     _create_batches true decomposition max_agents
       (new_state topic_ count_ difficulty_ subject_ user_id_)
     = Raise (OtherException message)
     ∧ calls_made run = []
     ∧ ∃ r, returned run = Return r ∧ success r = false)
  ∨ ∃ state1 bs,
      _create_batches true decomposition max_agents
        (new_state topic_ count_ difficulty_ subject_ user_id_)
      = Return (state1, bs)
      ∧ agent_id <$> bs = (fun i => i + 1) <$> seqZ 0 n
      ∧ let queued := bs ≫= (fun b => emit cb (agent_id b) b n "queued" 0) in
        (max_agents ≤ 0 ∧ calls_made run = queued
         ∧ ∃ r, returned run = Return r ∧ success r = false)
        ∨ (1 ≤ max_agents
           ∧ calls_made run
             = queued ++ (run_tasks true remote cb n (tasks_of bs) schedule).2
           ∧ ((returned run = Unfinished
               ∧ gather (run_tasks true remote cb n (tasks_of bs) schedule).1
                 = Unfinished)
              ∨ (∃ r results,
                   returned run = Return r
                   ∧ gather (run_tasks true remote cb n (tasks_of bs) schedule).1
                     = Return results))).
Proof.
  intros Hcount n run. unfold run, generate_flashcards_parallel. simpl.
  rewrite bool_decide_eq_false_2 by lia.
  set (state := new_state topic_ count_ difficulty_ subject_ user_id_).
  destruct (create_batches_ids true decomposition max_agents state)
    as [[message Hraise]|(bs & Hplan & Hids & _)].
  { left. exists message. split; [done|].
    unfold parallel_body. rewrite Hraise. simpl. split; [done|]. by eexists. }
  change (total_count state) with count_ in Hplan, Hids. fold n in Hplan, Hids.
  right. exists (set_agents_count state n), bs. split; [done|]. split; [done|].
  assert (Z.of_nat (length bs) = n) as Hlen.
  { apply (f_equal length) in Hids.
    rewrite !length_fmap, length_seqZ in Hids. unfold n in *. lia. }
  unfold parallel_body. rewrite Hplan.
  destruct bs as [|b bs']; [simpl in Hlen; unfold n in Hlen; lia|].
  set (bs := b :: bs') in *. rewrite Hlen.
  destruct (decide (1 ≤ max_agents)) as [Hpool|Hpool].
  - right. split; [done|].
    rewrite create_tasks_in_pool by (by eapply plan_in_pool).
    destruct (run_tasks true remote cb n (tasks_of bs) schedule)
      as [states made] eqn:Hrun.
    destruct (gather states) as [results|e|] eqn:Hgather; simpl.
    + assert (gather (run_tasks true remote cb n (tasks_of bs) schedule).1
              = Return results) as Hg by (by rewrite Hrun).
      apply gather_in_task_order in Hg. subst results.
      destruct (conclude_workers true remote cb n topic_ difficulty_ bs
                  (set_batches (set_agents_count state n) bs))
        as (r0 & st & Hconclude); [done|].
      rewrite Hconclude. simpl. split; [done|]. right. by eexists _, _.
    + by apply gather_not_Raise in Hgather.
    + split; [done|]. by left.
  - left. split; [lia|]. unfold bs. rewrite create_tasks_empty_pool by lia. simpl.
    split; [done|]. by eexists.
Qed.

Lemma tasks_of_lookup bs n (i : nat) t :
  agent_id <$> bs = (fun k => k + 1) <$> seqZ 0 n →
  tasks_of bs !! i = Some t →
  task_agent t = Z.of_nat i + 1 ∧ Z.of_nat i < n.
Proof.
  intros Hids Ht. unfold tasks_of in Ht. rewrite list_lookup_fmap in Ht.
  destruct (bs !! i) as [b|] eqn:Hb; [|done]. simpl in Ht. simplify_eq. simpl.
  assert ((agent_id <$> bs) !! i = Some (agent_id b)) as Hi
    by (by rewrite list_lookup_fmap, Hb).
  rewrite Hids, list_lookup_fmap in Hi.
  destruct (seqZ 0 n !! i) as [k|] eqn:Hk; [|done].
  apply lookup_seqZ in Hk as [-> Hk]. simpl in Hi. simplify_eq. lia.
Qed.

Lemma resumes_snoc schedule j i :
  resumes (schedule ++ [j]) i
  = (resumes schedule i + if decide (j = i) then 1 else 0)%nat.
Proof.
  unfold resumes. rewrite filter_app, length_app, filter_cons, filter_nil.
  by case_decide.
Qed.

Lemma after_calls_app self calls calls' :
  after_calls self (calls ++ calls') = after_calls (after_calls self calls) calls'.
Proof. unfold after_calls. by rewrite foldl_app. Qed.

(** While the tasks run, the tracker shows every worker as queued,
    processing or with the final status of its batch, according to how
    far its task has got, and the counter is the number of workers shown
    as finished. *)
Lemma run_tasks_tracker remote total tasks now self schedule :
  (∀ (i : nat) t, tasks !! i = Some t →
     task_agent t = Z.of_nat i + 1 ∧ Z.of_nat i + 1 ≤ total_agents self) →
  completed_agents self = Z.of_nat (length (finished_workers self)) →
  (∀ (i : nat) t, tasks !! i = Some t → status_of self (Z.of_nat i + 1) = "queued") →
  let tracker :=
    after_calls self
      (to_update now <$> (run_tasks true remote true total tasks schedule).2) in
  completed_agents tracker = Z.of_nat (length (finished_workers tracker))
  ∧ ∀ (i : nat) t, tasks !! i = Some t →
      status_of tracker (Z.of_nat i + 1)
      = match resumes schedule i with
        | 0%nat => "queued"
        | 1%nat => "processing"
        | _ => status (batch_after true remote true total t)
        end.
Proof.
  intros Htasks Hcounted Hqueued.
  induction schedule as [|j schedule IH] using rev_ind; [by split|].
  cbv zeta in IH. destruct IH as [Hcount Hstatus].
  pose proof (total_agents_after_calls self
                (to_update now <$> (run_tasks true remote true total tasks schedule).2))
    as Htotal.
  assert (∀ i : nat, is_Some (tasks !! i) → j ≠ i →
            resumes (schedule ++ [j]) i = resumes schedule i) as Hother.
  { intros i _ Hne. rewrite resumes_snoc, decide_False by done. lia. }
  unfold run_tasks in *. rewrite foldl_app. cbn [foldl].
  destruct (tasks !! j) as [tj|] eqn:Htj.
  - pose proof (run_tasks_state true remote true total tasks schedule j tj Htj)
      as Hstate.
    unfold run_tasks in Hstate. fold (resumes schedule j) in Hstate.
    specialize (Hstatus j tj Htj) as Hj.
    destruct (Htasks j tj Htj) as [Hagent Hrange].
    destruct (foldl _ _ schedule) as [states made]. simpl in *.
    unfold resume_task. rewrite Htj, Hstate.
    set (tracker := after_calls self (to_update now <$> made)) in *.
    assert (∀ st progress,
              (is_terminal (status_of tracker (Z.of_nat j + 1)) = true →
               is_terminal st = true) →
              let c := {| pc_agent := task_agent tj; pc_status := st;
                          pc_subtopic := subtopic (task_batch tj);
                          pc_progress := progress; pc_total := Some total |} in
              let tracker' := after_calls self (to_update now <$> made ++ [c]) in
              completed_agents tracker' = Z.of_nat (length (finished_workers tracker'))
              ∧ ∀ (i : nat), status_of tracker' (Z.of_nat i + 1)
                  = if decide (i = j) then st else status_of tracker (Z.of_nat i + 1))
      as Hstep.
    { intros st progress Hforward c tracker'. unfold tracker'.
      rewrite fmap_app, after_calls_app. fold tracker. simpl.
      change (after_calls tracker [to_update now c])
        with (after_call tracker (to_update now c)).
      split.
      - apply counted_after_call; simpl; rewrite ?Hagent; [lia|done|done].
      - intros i. destruct (after_call_effect tracker (to_update now c))
          as (_ & _ & Heffect); [simpl; lia|].
        rewrite Heffect. simpl. rewrite Hagent.
        destruct (decide (i = j)) as [->|Hne].
        + by rewrite decide_True.
        + rewrite decide_False; [done|lia]. }
    destruct (resumes schedule j) as [|[|k]] eqn:Hres; simpl.
    + destruct (Hstep "processing" 5) as [Hcount' Hstatus'];
        [by rewrite Hj|].
      split; [done|]. intros i t Ht. rewrite Hstatus'.
      destruct (decide (i = j)) as [->|Hne].
      * by rewrite resumes_snoc, Hres, decide_True.
      * rewrite Hother by (done || by eexists). by apply (Hstatus i t).
    + destruct (finish_batch_returns true (remote (task_agent tj)) true
                  (task_agent tj) (task_batch tj) total) as (b & Hb & _).
      assert (batch_after true remote true total tj = b) as Hafter
        by (unfold batch_after; by rewrite Hb).
      rewrite Hb. simpl.
      destruct (Hstep (status b) 100) as [Hcount' Hstatus'].
      { intros _. rewrite <- Hafter.
        by destruct (batch_after_cases true remote true total tj)
          as [[-> _]|[-> _]]. }
      split; [done|]. intros i t Ht. rewrite Hstatus'.
      destruct (decide (i = j)) as [->|Hne].
      * rewrite resumes_snoc, Hres, decide_True by done. simpl.
        by simplify_eq.
      * rewrite Hother by (done || by eexists). by apply (Hstatus i t).
    + split; [done|]. intros i t Ht.
      destruct (decide (i = j)) as [->|Hne].
      * rewrite resumes_snoc, Hres, decide_True by done. simpl.
        by simplify_eq.
      * rewrite Hother by (done || by eexists). by apply (Hstatus i t).
  - destruct (foldl _ _ schedule) as [states made]. simpl in *.
    unfold resume_task. rewrite Htj. simpl.
    split; [done|]. intros i t Ht.
    rewrite Hother; [by apply (Hstatus i t)|by eexists|].
    intros ->. by rewrite Htj in Ht.
Qed.

Lemma try_generate_usable remote agent batch :
  (∃ cards, try_generate true remote agent batch = Return cards)
  ↔ usable_reply remote = true.
Proof.
  unfold try_generate, create_chat_completion, usable_reply. simpl.
  destruct remote as [content|e]; simpl; [|split; [by intros [? ?]|done]].
  destruct (json_loads (strip_code_fence content)) as [msg|value]; simpl;
    [split; [by intros [? ?]|done]|].
  destruct value as [| | | | |fields]; simpl;
    try (split; [by intros [? ?]|done]).
  apply tagged_value_returns_iff.
Qed.

Lemma batch_after_status remote cb total t :
  status (batch_after true remote cb total t)
  = if usable_reply (remote (task_agent t)) then "completed" else "error".
Proof.
  unfold batch_after.
  destruct (finish_batch_returns true (remote (task_agent t)) cb (task_agent t)
              (task_batch t) total) as (b & -> & Hcase). simpl.
  destruct Hcase as [(cards & Hgen & ->)|(e & message & Hgen & ->)]; simpl.
  - rewrite (proj1 (try_generate_usable (remote (task_agent t)) (task_agent t)
                     (task_batch t))); [done|by eexists].
  - destruct (usable_reply (remote (task_agent t))) eqn:Husable; [|done].
    apply try_generate_usable with (agent := task_agent t) (batch := task_batch t)
      in Husable as [cards Hcards].
    by rewrite Hcards in Hgen.
Qed.

Lemma completed_after_open_calls self calls :
  Forall (fun c => is_terminal (uc_status c) = false ∧ 1 ≤ uc_agent c) calls →
  completed_agents (after_calls self calls) = completed_agents self.
Proof.
  unfold after_calls. revert self.
  induction calls as [|c calls IH]; intros self Hall; [done|].
  apply Forall_cons in Hall as [[Hst Hc] Hall]. simpl. rewrite IH by done.
  destruct (after_call_effect self c Hc) as (_ & -> & _). by rewrite Hst.
Qed.

Lemma queued_calls (bs : list FlashcardBatch) total :
  (bs ≫= fun b => emit true (agent_id b) b total "queued" 0)
  = (fun b => {| pc_agent := agent_id b; pc_status := "queued";
                 pc_subtopic := subtopic b; pc_progress := 0;
                 pc_total := Some total |}) <$> bs.
Proof. induction bs as [|b bs IH]; [done|]. simpl in *. by f_equal. Qed.

(** The tracker after the queued calls. *)
Lemma queued_tracker op estimated now bs n :
  agent_id <$> bs = (fun k => k + 1) <$> seqZ 0 n →
  Z.max 1 estimated = n →
  let tracker :=
    after_calls (init_tracker op estimated now)
      (to_update now <$> (bs ≫= fun b => emit true (agent_id b) b n "queued" 0)) in
  total_agents tracker = n
  ∧ completed_agents tracker = Z.of_nat (length (finished_workers tracker))
  ∧ ∀ a, 1 ≤ a ≤ n → status_of tracker a = "queued".
Proof.
  intros Hids Hn tracker. unfold tracker. rewrite queued_calls, <- list_fmap_compose.
  set (calls := _ <$> bs).
  assert (uc_agent <$> calls = (fun k => k + 1) <$> seqZ 0 n) as Hagents
    by (unfold calls; by rewrite <- list_fmap_compose).
  assert (Forall (fun c => uc_status c = "queued" ∧ 1 ≤ uc_agent c) calls) as Hcalls.
  { apply Forall_forall. intros c Hc. split.
    - unfold calls in Hc. by apply list_elem_of_fmap in Hc as (b & -> & _).
    - apply (list_elem_of_fmap_2 uc_agent) in Hc. rewrite Hagents in Hc.
      apply list_elem_of_fmap in Hc as (k & -> & Hk%elem_of_seqZ). lia. }
  assert (total_agents (after_calls (init_tracker op estimated now) calls) = n)
    as Htotal by (by rewrite total_agents_after_calls).
  assert (∀ a, 1 ≤ a ≤ n →
            status_of (after_calls (init_tracker op estimated now) calls) a = "queued")
    as Hstatus.
  { intros a Ha. rewrite (status_after_calls _ _ "queued") by done.
    rewrite decide_True; [done|]. rewrite Hagents.
    apply list_elem_of_fmap. exists (a - 1). split; [lia|].
    apply elem_of_seqZ. lia. }
  split; [done|]. split; [|done].
  rewrite completed_after_open_calls.
  - unfold finished_workers. rewrite filter_none; [done|].
    apply Forall_forall. intros a Ha%elem_of_seqZ. rewrite Hstatus; [done|lia].
  - eapply Forall_impl; [exact Hcalls|]. intros c [-> ?]. done.
Qed.

(** Every call a run makes carries the total announced by
    [estimate_batches] and a worker number between 1 and that total. *)
Lemma calls_made_range configured decomposition remote schedule max_agents
    topic_ count_ difficulty_ subject_ user_id_ cb :
  let total := Z.max 1 (estimate_batches max_agents count_) in
  Forall (fun c => pc_total c = Some total ∧ 1 ≤ pc_agent c ≤ total)
         (calls_made (generate_flashcards_parallel configured decomposition remote
                        schedule max_agents topic_ count_ difficulty_ subject_
                        user_id_ cb)).
Proof.
  intros total. destruct configured; [|done].
  destruct (decide (0 < count_)) as [Hcount|Hcount].
  - destruct (run_calls_shape decomposition remote schedule max_agents
                topic_ count_ difficulty_ subject_ user_id_ cb Hcount)
      as [(message & _ & -> & _)|(state1 & bs & _ & Hids & Hshape)]; [done|].
    assert (total = Z.max 1 (Z.min max_agents count_)) as Htotal.
    { unfold total, estimate_batches. by rewrite bool_decide_eq_false_2 by lia. }
    rewrite <- Htotal in Hids, Hshape. cbv zeta in Hshape.
    assert (Forall (fun c => pc_total c = Some total ∧ 1 ≤ pc_agent c ≤ total)
                   (bs ≫= fun b => emit cb (agent_id b) b total "queued" 0))
      as Hqueued.
    { apply Forall_bind, Forall_forall. intros b Hb.
      eapply Forall_impl; [apply emit_calls|]. intros c (? & -> & _).
      split; [done|].
      apply (list_elem_of_fmap_2 agent_id) in Hb. rewrite Hids in Hb.
      apply list_elem_of_fmap in Hb as (k & -> & Hk%elem_of_seqZ). lia. }
    destruct Hshape as [(_ & -> & _)|(_ & -> & _)]; [done|].
    apply Forall_app. split; [done|].
    eapply Forall_impl; [apply run_tasks_calls|].
    intros c (? & t & Ht & ->). split; [done|].
    apply list_elem_of_lookup_1 in Ht as [i Hi].
    destruct (tasks_of_lookup bs total i t Hids Hi). lia.
  - unfold generate_flashcards_parallel. simpl.
    by rewrite bool_decide_eq_true_2 by lia.
Qed.

(** The tracker while a run with a pool of at least one agent is under
    way. *)
Lemma run_tracker decomposition remote schedule max_agents
    topic_ count_ difficulty_ subject_ user_id_ op now plan :
  0 < count_ → 1 ≤ max_agents →
  _create_batches true decomposition max_agents
    (new_state topic_ count_ difficulty_ subject_ user_id_) = Return plan →
  let n := Z.min max_agents count_ in
  let run := generate_flashcards_parallel true decomposition remote schedule
               max_agents topic_ count_ difficulty_ subject_ user_id_ true in
  let tracker := after_calls (init_tracker op n now)
                   (to_update now <$> calls_made run) in
  total_agents tracker = n
  ∧ completed_agents tracker = Z.of_nat (length (finished_workers tracker))
  ∧ (∀ i : nat, Z.of_nat i < n →
       status_of tracker (Z.of_nat i + 1)
       = match resumes schedule i with
         | 0%nat => "queued"
         | 1%nat => "processing"
         | _ => if usable_reply (remote (Z.of_nat i + 1))
                then "completed" else "error"
         end)
  ∧ (returned run = Unfinished ↔ ∃ i : nat, Z.of_nat i < n ∧ (resumes schedule i < 2)%nat).
Proof.
  intros Hcount Hpool Hplan n run tracker.
  destruct (run_calls_shape decomposition remote schedule max_agents
              topic_ count_ difficulty_ subject_ user_id_ true Hcount)
    as [(message & Hraise & _)|(state1 & bs & _ & Hids & Hshape)]; [congruence|].
  replace (Z.max 1 (Z.min max_agents count_)) with n in Hids, Hshape
    by (unfold n; lia).
  cbv zeta in Hshape. fold run in Hshape.
  destruct Hshape as [(? & _)|(_ & Hcalls & Hreturned)]; [lia|].
  destruct (queued_tracker op n now bs n Hids) as (Htotal & Hcounted & Hqueued);
    [unfold n; lia|].
  assert (length (tasks_of bs) = Z.to_nat n) as Hlen.
  { unfold tasks_of. rewrite length_fmap. apply (f_equal length) in Hids.
    by rewrite !length_fmap, length_seqZ in Hids. }
  assert (∀ i : nat, Z.of_nat i < n → is_Some (tasks_of bs !! i)) as Htask.
  { intros i Hi. apply lookup_lt_is_Some. lia. }
  destruct (run_tasks_tracker remote n (tasks_of bs) now
              (after_calls (init_tracker op n now)
                 (to_update now <$>
                    (bs ≫= fun b => emit true (agent_id b) b n "queued" 0)))
              schedule)
    as [Hcounted' Hstatus].
  { intros i t Ht. destruct (tasks_of_lookup bs n i t Hids Ht). rewrite Htotal. lia. }
  { done. }
  { intros i t Ht. destruct (tasks_of_lookup bs n i t Hids Ht). apply Hqueued. lia. }
  rewrite <- after_calls_app, <- fmap_app, <- Hcalls in Hcounted', Hstatus.
  fold tracker in Hcounted', Hstatus.
  split; [unfold tracker; rewrite total_agents_after_calls; simpl; lia|].
  split; [done|]. split.
  - intros i Hi. destruct (Htask i Hi) as [t Ht].
    rewrite (Hstatus i t Ht), batch_after_status.
    by destruct (tasks_of_lookup bs n i t Hids Ht) as [-> _].
  - split.
    + intros Hunfinished.
      destruct (decide (Forall (fun i => 2 ≤ resumes schedule i)%nat
                               (seq 0 (Z.to_nat n)))) as [Hall|Hsome].
      * assert (resumed_twice (length (tasks_of bs)) schedule) as Hfair.
        { intros i Hi. rewrite Forall_forall in Hall. apply Hall.
          apply elem_of_seq. lia. }
        apply (gather_returns true remote true n) in Hfair.
        destruct Hreturned as [[_ Hg]|(r & results & Hr & _)]; congruence.
      * apply not_Forall_Exists in Hsome; [|apply _].
        apply Exists_exists in Hsome as (i & Hi%elem_of_seq & Hlt).
        exists i. simpl in Hlt. split; lia.
    + intros (i & Hi & Hlt).
      destruct Hreturned as [[? _]|(r & results & _ & Hg)]; [done|].
      apply gather_Return in Hg.
      destruct (Htask i Hi) as [t Ht].
      pose proof (run_tasks_state true remote true n (tasks_of bs) schedule i t Ht)
        as Hstate.
      rewrite Hg, list_lookup_fmap in Hstate. fold (resumes schedule i) in Hstate.
      destruct (resumes schedule i) as [|[|k]]; [| |lia];
        by destruct (results !! i).
Qed.

End RunAndTracker.

(** ** The tracker of an operation *)

Section ServiceTracker.
Context `{rt : !PythonRuntime}.

Lemma finalize_calls_range now topic_ st progress total :
  Forall (fun c => 1 ≤ uc_agent c ≤ total)
         (finalize_calls now topic_ st progress total).
Proof.
  unfold finalize_calls. apply Forall_fmap, Forall_forall.
  intros k Hk%elem_of_seqZ. simpl. lia.
Qed.

Lemma handled_world l now w calls :
  Forall (fun c => pc_total c = Some (total_agents (objects w l))
                   ∧ 1 ≤ pc_agent c ≤ total_agents (objects w l)) calls →
  balanced (objects w l) →
  let w' := foldl (handle_progress l now) w calls in
  objects w' l = after_calls (objects w l) (to_update now <$> calls)
  ∧ total_agents (objects w' l) = total_agents (objects w l)
  ∧ balanced (objects w' l)
  ∧ (stamped (objects w l) → stamped (objects w' l)).
Proof.
  intros Hcalls Hbalanced w'. unfold w'.
  rewrite objects_handle_progress_all
    by (eapply Forall_impl; [exact Hcalls|]; by intros c [? _]).
  split; [done|]. split; [apply total_agents_after_calls|].
  split; [|apply stamped_after_calls].
  apply balanced_after_calls; [|done].
  apply Forall_fmap. eapply Forall_impl; [exact Hcalls|]. by intros c [_ ?].
Qed.

Lemma finalize_world_balanced l now request st progress w :
  balanced (objects w l) →
  let w' := finalize_agents l now request st progress w in
  total_agents (objects w' l) = total_agents (objects w l)
  ∧ balanced (objects w' l)
  ∧ (stamped (objects w l) → stamped (objects w' l)).
Proof.
  intros Hbalanced w'. unfold w'. rewrite objects_finalize_agents.
  split; [apply total_agents_after_calls|].
  split; [|apply stamped_after_calls].
  apply balanced_after_calls; [apply finalize_calls_range|done].
Qed.

Lemma finalize_world_complete l now request st progress w :
  1 ≤ total_agents (objects w l) →
  balanced (objects w l) →
  stamped (objects w l) →
  is_terminal st = true →
  let tracker := objects (finalize_agents l now request st progress w) l in
  (completed_agents tracker = total_agents tracker
   ∧ ∀ i, 1 ≤ i ≤ total_agents tracker → is_terminal (status_of tracker i) = true)
  ∧ stamped tracker ∧ 1 ≤ total_agents tracker.
Proof.
  intros Htotal Hbalanced Hstamped Hst tracker. unfold tracker.
  rewrite objects_finalize_agents.
  destruct (finalize_completes (objects w l) now (rq_topic request) st progress
              Htotal Hbalanced Hst) as (Hsame & Hcompleted & Hstatus).
  rewrite Hsame. split; [|split; [by apply stamped_after_calls|done]].
  split; [done|]. intros i Hi. by rewrite Hstatus.
Qed.

Lemma run_tracker_complete decomposition remote schedule max_agents
    topic_ count_ difficulty_ subject_ user_id_ op now plan :
  0 < count_ → 1 ≤ max_agents →
  _create_batches true decomposition max_agents
    (new_state topic_ count_ difficulty_ subject_ user_id_) = Return plan →
  let run := generate_flashcards_parallel true decomposition remote schedule
               max_agents topic_ count_ difficulty_ subject_ user_id_ true in
  let tracker := after_calls (init_tracker op (Z.min max_agents count_) now)
                   (to_update now <$> calls_made run) in
  (returned run ≠ Unfinished →
   completed_agents tracker = total_agents tracker
   ∧ ∀ a, 1 ≤ a ≤ total_agents tracker → is_terminal (status_of tracker a) = true)
  ∧ (returned run = Unfinished → completed_agents tracker < total_agents tracker).
Proof.
  intros Hcount Hpool Hplan run tracker.
  destruct (run_tracker decomposition remote schedule max_agents topic_ count_
              difficulty_ subject_ user_id_ op now plan Hcount Hpool Hplan)
    as (Htotal & Hcounted & Hstatus & Hunfinished).
  set (n := Z.min max_agents count_) in *.
  change (total_agents tracker = n) in Htotal.
  change (completed_agents tracker = Z.of_nat (length (finished_workers tracker)))
    in Hcounted.
  change (returned run = Unfinished
          ↔ ∃ i : nat, Z.of_nat i < n ∧ (resumes schedule i < 2)%nat) in Hunfinished.
  change (∀ i : nat, Z.of_nat i < n →
            status_of tracker (Z.of_nat i + 1)
            = match resumes schedule i with
              | 0%nat => "queued"
              | 1%nat => "processing"
              | _ => if usable_reply (remote (Z.of_nat i + 1))
                     then "completed" else "error"
              end) in Hstatus.
  split.
  - intros Hreturned.
    assert (∀ a, 1 ≤ a ≤ n → is_terminal (status_of tracker a) = true) as Hall.
    { intros a Ha.
      replace a with (Z.of_nat (Z.to_nat (a - 1)) + 1) by lia.
      rewrite Hstatus by lia.
      destruct (resumes schedule (Z.to_nat (a - 1))) as [|[|k]] eqn:Hres.
      - destruct Hreturned. apply Hunfinished. exists (Z.to_nat (a - 1)).
        rewrite Hres. split; lia.
      - destruct Hreturned. apply Hunfinished. exists (Z.to_nat (a - 1)).
        rewrite Hres. split; lia.
      - by destruct (usable_reply _). }
    rewrite Htotal. split; [|done].
    rewrite Hcounted. unfold finished_workers.
    rewrite length_filter_all, Htotal, length_seqZ; [lia|].
    apply Forall_forall. intros a Ha%elem_of_seqZ. apply Hall. lia.
  - intros (i & Hi & Hlt)%Hunfinished.
    rewrite Hcounted, Htotal. unfold finished_workers. rewrite Htotal.
    pose proof (length_filter_lt (fun a => is_terminal (status_of tracker a) = true)
                  (seqZ 1 n) (Z.of_nat i + 1)) as Hless.
    rewrite length_seqZ in Hless.
    assert (length (filter (fun a => is_terminal (status_of tracker a) = true)
                      (seqZ 1 n)) < Z.to_nat n)%nat; [|lia].
    apply Hless; [apply elem_of_seqZ; lia|].
    rewrite Hstatus by done.
    by destruct (resumes schedule i) as [|[|k]]; [| |lia].
Qed.

Lemma tracker_after_calls op estimated now calls :
  Forall (fun c => pc_total c = Some (Z.max 1 estimated)) calls →
  tracker_after op estimated now calls
  = after_calls (init_tracker op estimated now) (to_update now <$> calls).
Proof.
  intros Hcalls. unfold tracker_after, new_tracker. simpl.
  rewrite objects_handle_progress_all; simpl; done.
Qed.

(** X8. While a run whose planner has returned, with a pool of at least
    one agent, is under way and after it, under every schedule, the
    tracker of the operation shows each worker as queued when its task
    has not started, as processing when it waits for the provider, and as
    completed or in error, by the reply the provider gave it, when it is
    done.  Its counter is the number of workers it shows as finished, and
    it reaches the total exactly when the run has returned. *)
Theorem tracker_follows_tasks decomposition remote schedule max_agents
    topic_ count_ difficulty_ subject_ user_id_ op now plan :
  0 < count_ → 1 ≤ max_agents →
  _create_batches true decomposition max_agents
    (new_state topic_ count_ difficulty_ subject_ user_id_) = Return plan →
  let run := generate_flashcards_parallel true decomposition remote schedule
               max_agents topic_ count_ difficulty_ subject_ user_id_ true in
  let tracker := tracker_after op (estimate_batches max_agents count_) now
                   (calls_made run) in
  total_agents tracker = Z.min max_agents count_
  ∧ (∀ i : nat, Z.of_nat i < Z.min max_agents count_ →
       status_of tracker (Z.of_nat i + 1)
       = match resumes schedule i with
         | 0%nat => "queued"
         | 1%nat => "processing"
         | _ => if usable_reply (remote (Z.of_nat i + 1))
                then "completed" else "error"
         end)
  ∧ completed_agents tracker = Z.of_nat (length (finished_workers tracker))
  ∧ (completed_agents tracker = total_agents tracker ↔ returned run ≠ Unfinished).
Proof.
  intros Hcount Hpool Hplan run tracker.
  assert (estimate_batches max_agents count_ = Z.min max_agents count_) as Hestimate.
  { unfold estimate_batches. by rewrite bool_decide_eq_false_2 by lia. }
  assert (tracker = after_calls (init_tracker op (Z.min max_agents count_) now)
                      (to_update now <$> calls_made run)) as ->.
  { unfold tracker. rewrite tracker_after_calls; [by rewrite Hestimate|].
    eapply Forall_impl; [apply calls_made_range|]. by intros c [? _]. }
  destruct (run_tracker decomposition remote schedule max_agents topic_ count_
              difficulty_ subject_ user_id_ op now plan Hcount Hpool Hplan)
    as (Htotal & Hcounted & Hstatus & _).
  destruct (run_tracker_complete decomposition remote schedule max_agents topic_
              count_ difficulty_ subject_ user_id_ op now plan Hcount Hpool Hplan)
    as [Hcomplete Hincomplete].
  fold run in Hcomplete, Hincomplete.
  split; [done|]. split; [done|]. split; [done|]. split.
  - intros Hfull Hunfinished. apply Hincomplete in Hunfinished. lia.
  - intros Hreturned. by apply Hcomplete.
Qed.

(** The tracker of an operation when [start_flashcard_generation] has
    returned. *)
Lemma start_tracker_final generator configured decomposition remote
    schedule single_agent op now request w r :
  (start_flashcard_generation generator configured decomposition remote schedule
     single_agent op now request w).1 = Return r →
  let tracker :=
    objects (start_flashcard_generation generator configured decomposition remote
               schedule single_agent op now request w).2 (next_object w) in
  (completed_agents tracker = total_agents tracker
   ∧ ∀ i, 1 ≤ i ≤ total_agents tracker → is_terminal (status_of tracker i) = true)
  ∧ stamped tracker ∧ 1 ≤ total_agents tracker.
Proof.
  intros Hreturned tracker. unfold tracker. clear tracker. revert Hreturned.
  unfold start_flashcard_generation.
  set (estimated := match generator with
                    | Some max_agents => estimate_batches max_agents (rq_count request)
                    | None => 1
                    end).
  destruct (new_tracker op estimated now w) as [l w1] eqn:Hnew.
  assert (l = next_object w ∧ objects w1 l = init_tracker op estimated now)
    as [Hl Hobject].
  { unfold new_tracker in Hnew. simplify_eq. simpl. by rewrite decide_True. }
  rewrite <- Hl. clear Hnew Hl.
  assert (total_agents (objects w1 l) = Z.max 1 estimated) as Htotal
    by (by rewrite Hobject).
  assert (balanced (objects w1 l)) as Hbalanced
    by (rewrite Hobject; apply balanced_init).
  assert (stamped (objects w1 l)) as Hstamped
    by (rewrite Hobject; apply stamped_init).
  destruct generator as [max_agents|].
  - set (run := generate_flashcards_parallel configured decomposition remote schedule
                  max_agents (rq_topic request) (rq_count request)
                  (rq_difficulty request) (Some (rq_subject request))
                  (rq_user_id request) true).
    destruct (handled_world l now w1 (calls_made run))
      as (Hcalls & Hsame & Hhandled & Hstamped2).
    { rewrite Htotal. apply calls_made_range. }
    { done. }
    specialize (Hstamped2 Hstamped).
    set (w2 := foldl (handle_progress l now) w1 (calls_made run)) in *.
    destruct (returned run) as [result|e|] eqn:Hrun; [|cbn [fst snd]; intros _|done].
    + destruct (success result) eqn:Hsuccess; cbn [fst snd].
      * intros _.
        assert (configured = true ∧ 0 < rq_count request ∧ 1 ≤ max_agents
                ∧ ∃ plan,
                    _create_batches configured decomposition max_agents
                      (new_state (rq_topic request) (rq_count request)
                         (rq_difficulty request) (Some (rq_subject request))
                         (rq_user_id request)) = Return plan)
          as (-> & Hcount & Hpool & plan & Hplan).
        { destruct configured.
          2:{ unfold run, generate_flashcards_parallel in Hrun. simpl in Hrun.
              by simplify_eq. }
          destruct (decide (0 < rq_count request)) as [Hpos|Hneg].
          2:{ unfold run, generate_flashcards_parallel in Hrun. simpl in Hrun.
              rewrite bool_decide_eq_true_2 in Hrun by lia. simpl in Hrun.
              by simplify_eq. }
          split; [done|]. split; [done|].
          destruct (run_calls_shape decomposition remote schedule max_agents
                      (rq_topic request) (rq_count request) (rq_difficulty request)
                      (Some (rq_subject request)) (rq_user_id request) true Hpos)
            as [(message & _ & _ & r' & Hr' & Hfail)
               |(state1 & bs & Hplan & _ & [(_ & _ & r' & Hr' & Hfail)|(? & _)])];
            [| |split; [done|]; by eexists];
            (change (returned run = Return r') in Hr';
             rewrite Hrun in Hr'; simplify_eq; congruence). }
        assert (estimated = Z.min max_agents (rq_count request)) as Hestimated.
        { unfold estimated, estimate_batches.
          by rewrite bool_decide_eq_false_2 by lia. }
        split; [|split; [done|lia]].
        rewrite Hcalls, Hobject, Hestimated.
        apply (run_tracker_complete decomposition remote schedule max_agents
                 (rq_topic request) (rq_count request) (rq_difficulty request)
                 (Some (rq_subject request)) (rq_user_id request) op now plan
                 Hcount Hpool Hplan).
        fold run. by rewrite Hrun.
      * destruct (finalize_world_balanced l now request "processing" 10 w2 Hhandled)
          as (Hsame' & Hbalanced' & Hstamped').
        specialize (Hstamped' Hstamped2).
        destruct single_agent as [[|]|e]; cbn [fst snd]; intros _;
          (apply finalize_world_complete; [lia|done|done|done]).
    + apply finalize_world_complete; [lia|done|done|done].
  - destruct (handled_world l now w1
                [{| pc_agent := 1; pc_status := "processing";
                    pc_subtopic := rq_topic request; pc_progress := 10;
                    pc_total := Some 1 |}]) as (_ & Hsame & Hhandled & Hstamped2).
    { rewrite Htotal. by repeat constructor. }
    { done. }
    specialize (Hstamped2 Hstamped).
    cbn [foldl] in Hsame, Hhandled, Hstamped2.
    destruct single_agent as [[|]|e]; cbn [fst snd]; [| |done]; intros _;
      (apply finalize_world_complete; [lia|done|done|done]).
Qed.

(** X9. Whenever [start_flashcard_generation] returns, with a generator
    or without, after a success, a fallback or a failure, the tracker it
    registered under the operation id is complete: its counter equals its
    total, every worker up to the total is shown as completed or in
    error, and [get_progress_data] reports the status completed. *)
Theorem service_leaves_tracker_complete generator configured decomposition remote
    schedule single_agent op now request w r :
  (start_flashcard_generation generator configured decomposition remote schedule
     single_agent op now request w).1 = Return r →
  let w' := (start_flashcard_generation generator configured decomposition remote
               schedule single_agent op now request w).2 in
  let tracker := objects w' (next_object w) in
  progress_store w' !! op = Some (next_object w)
  ∧ completed_agents tracker = total_agents tracker
  ∧ (∀ i, 1 ≤ i ≤ total_agents tracker → is_terminal (status_of tracker i) = true)
  ∧ pd_status (get_progress_data tracker) = "completed".
Proof.
  intros Hreturned w' tracker.
  split; [apply start_registers_tracker|].
  destruct (start_tracker_final generator configured decomposition remote schedule
              single_agent op now request w r Hreturned) as [[Hfull Hall] _].
  split; [done|]. split; [done|]. unfold get_progress_data. simpl.
  by rewrite bool_decide_eq_true_2.
Qed.

End ServiceTracker.

Lemma tracker_follows_tasks_witness :
  let run := scenario_run last_done_only in
  let tracker := tracker_after "flashcards_1a2b3c4d" (estimate_batches 4 3) 0
                   (calls_made run) in
  total_agents tracker = Z.min 4 3
  ∧ (∀ i : nat, Z.of_nat i < Z.min 4 3 →
       status_of tracker (Z.of_nat i + 1)
       = match resumes last_done_only i with
         | 0%nat => "queued"
         | 1%nat => "processing"
         | _ => if usable_reply (rt := scenario_runtime)
                     (scenario_remote (Z.of_nat i + 1))
                then "completed" else "error"
         end)
  ∧ completed_agents tracker = Z.of_nat (length (finished_workers tracker))
  ∧ (completed_agents tracker = total_agents tracker ↔ returned run ≠ Unfinished).
Proof.
  apply (tracker_follows_tasks (rt := scenario_runtime) (Failed (RuntimeError "down"))
           scenario_remote last_done_only 4 "Photosynthesis" 3 "medium" None
           "default" "flashcards_1a2b3c4d" 0 scenario_plan);
    [lia | lia | reflexivity].
Defined.

Lemma service_leaves_tracker_complete_witness :
  let w' := scenario_service.2 in
  let tracker := objects w' (next_object empty_world) in
  progress_store w' !! "flashcards_1a2b3c4d" = Some (next_object empty_world)
  ∧ completed_agents tracker = total_agents tracker
  ∧ (∀ i, 1 ≤ i ≤ total_agents tracker → is_terminal (status_of tracker i) = true)
  ∧ pd_status (get_progress_data tracker) = "completed".
Proof.
  apply (service_leaves_tracker_complete (rt := scenario_runtime) (Some 4) true
           (Failed (RuntimeError "down")) scenario_remote four_tasks_twice
           (Replied false) "flashcards_1a2b3c4d" 0 scenario_request empty_world
           scenario_service_result).
  reflexivity.
Defined.

(** ** The shape of the progress stream *)

Section StreamShape.
Variable env : nat → world.
Variable op : string.

(** The first loop ends at the first look that finds the operation, or
    at the last look. *)
Lemma wait_for_operation_first fuel wait_count :
  0 ≤ wait_count ≤ max_wait →
  max_wait - wait_count ≤ Z.of_nat fuel →
  ∃ final,
    wait_for_operation env op fuel wait_count = Return final
    ∧ wait_count ≤ final ≤ max_wait
    ∧ (∀ t, wait_count ≤ t < final → progress_store (env (Z.to_nat t)) !! op = None)
    ∧ (is_Some (progress_store (env (Z.to_nat final)) !! op) ∨ final = max_wait).
Proof.
  revert wait_count.
  induction fuel as [|fuel IH]; intros wait_count Hrange Hfuel; simpl.
  - assert (wait_count = max_wait) as -> by lia.
    rewrite (bool_decide_eq_false_2 (max_wait < max_wait)) by lia.
    rewrite andb_false_r. exists max_wait.
    split; [done|]. split; [lia|]. split; [intros; lia|by right].
  - case_bool_decide as Hmissing; simpl.
    + case_bool_decide as Hlt.
      * destruct (IH (wait_count + 1)) as (final & -> & Hfinal & Hbefore & Hat);
          [lia..|].
        exists final. split; [done|]. split; [lia|]. split; [|done].
        intros t Ht. destruct (decide (t = wait_count)) as [->|Hne]; [done|].
        apply Hbefore. lia.
      * exists wait_count. split; [done|]. split; [lia|].
        split; [intros; lia|right; lia].
    + exists wait_count. split; [done|]. split; [lia|]. split; [intros; lia|].
      left. by destruct (progress_store (env (Z.to_nat wait_count)) !! op); [eexists|].
Qed.

Lemma json_dumps_cases data :
  json_dumps data = Return data
  ∨ json_dumps data
    = Raise (OtherException "Object of type datetime is not JSON serializable").
Proof. unfold json_dumps. destruct (forallb _ _); auto. Qed.

(** The events of the second loop: progress dicts, then at most one
    closing event; the table entry is released only after the dict of
    type completed, sent for a tracker whose counter has reached its
    total. *)
Lemma poll_shape l fuel slept :
  ∃ updates closing,
    emitted (poll env op l fuel slept) = updates ++ closing
    ∧ Forall (fun e => is_update e.2 = true) updates
    ∧ match ending (poll env op l fuel slept) with
      | StillPolling => closing = []
      | Ended released =>
          ∃ e, closing = [e]
               ∧ is_closing e.2 = true
               ∧ e.2 ≠ TimedOut
               ∧ (released = true →
                  ∃ data, e.2 = Progress data
                          ∧ pd_type data = Some "completed"
                          ∧ pd_total_agents data ≤ pd_completed_agents data
                          ∧ is_Some (progress_store (env e.1) !! op))
      end.
Proof.
  revert slept. induction fuel as [|fuel IH]; intros slept; simpl.
  - case_bool_decide as Hopen; [by exists [], []|].
    destruct (json_dumps_cases
                (set_type (get_progress_data (objects (env slept) l)) "completed"))
      as [-> | ->]; simpl.
    + exists [], [(slept, Progress (set_type (get_progress_data
                                         (objects (env slept) l)) "completed"))].
      split; [done|]. split; [done|]. eexists. split; [done|]. simpl.
      split; [done|]. split; [done|]. intros Hreleased%bool_decide_eq_true.
      eexists. split; [done|]. simpl. split; [done|]. split; [lia|done].
    + exists [], [(slept, StreamError
                            "Object of type datetime is not JSON serializable")].
      split; [done|]. split; [done|]. eexists. split; [done|]. simpl.
      split; [done|]. split; [done|]. done.
  - case_bool_decide as Hopen.
    + destruct (json_dumps_cases (get_progress_data (objects (env (S slept)) l)))
        as [-> | ->]; simpl.
      * destruct (IH (S slept)) as (updates & closing & -> & Hupdates & Hend).
        exists ((S slept, Progress (get_progress_data (objects (env (S slept)) l)))
                :: updates), closing.
        split; [done|]. split; [|done]. by constructor.
      * exists [], [(S slept, StreamError
                                "Object of type datetime is not JSON serializable")].
        split; [done|]. split; [done|]. eexists. split; [done|]. simpl.
        split; [done|]. split; [done|]. done.
    + destruct (json_dumps_cases
                  (set_type (get_progress_data (objects (env slept) l)) "completed"))
        as [-> | ->]; simpl.
      * exists [], [(slept, Progress (set_type (get_progress_data
                                           (objects (env slept) l)) "completed"))].
        split; [done|]. split; [done|]. eexists. split; [done|]. simpl.
        split; [done|]. split; [done|]. intros Hreleased%bool_decide_eq_true.
        eexists. split; [done|]. simpl. split; [done|]. split; [lia|done].
      * exists [], [(slept, StreamError
                              "Object of type datetime is not JSON serializable")].
        split; [done|]. split; [done|]. eexists. split; [done|]. simpl.
        split; [done|]. split; [done|]. done.
Qed.

(** X10. Whatever the table and the trackers do while the generator
    sleeps: the stream is the connected event, then progress dicts
    without a type, then at most one closing event (timeout, error, or
    the dict of type completed), after which the generator has ended.
    The generator removes the table entry only after it has sent the
    dict of type completed, for a tracker whose counter has reached its
    total and whose operation is still in the table. *)
Theorem stream_closes_once fuel :
  ∃ updates closing,
    emitted (stream_progress env op fuel) = (0%nat, Connected op) :: updates ++ closing
    ∧ Forall (fun e => is_update e.2 = true) updates
    ∧ match ending (stream_progress env op fuel) with
      | StillPolling => closing = []
      | Ended released =>
          ∃ e, closing = [e]
               ∧ is_closing e.2 = true
               ∧ (released = true →
                  ∃ data, e.2 = Progress data
                          ∧ pd_type data = Some "completed"
                          ∧ pd_total_agents data ≤ pd_completed_agents data
                          ∧ is_Some (progress_store (env e.1) !! op))
      end.
Proof.
  unfold stream_progress.
  destruct (wait_for_operation_first (Z.to_nat max_wait) 0)
    as (final & -> & _); [done..|].
  destruct (progress_store (env (Z.to_nat final)) !! op) as [l|]; simpl.
  - destruct (poll_shape l fuel (Z.to_nat final))
      as (updates & closing & -> & Hupdates & Hend).
    exists updates, closing. split; [done|]. split; [done|].
    destruct (ending _) as [released|]; [|done].
    destruct Hend as (e & ? & ? & _ & ?). eauto.
  - exists [], [(Z.to_nat final, TimedOut)]. split; [done|]. split; [done|].
    eexists. split; [done|]. by split.
Qed.

(** X11. The stream holds a timeout event exactly when the operation is
    missing from the table at each of the 31 looks of the first loop:
    once the operation has been seen, no timeout is sent, however long
    the operation takes. *)
Theorem timeout_only_when_never_registered fuel :
  (∃ t, (t, TimedOut) ∈ emitted (stream_progress env op fuel))
  ↔ (∀ t : nat, (t ≤ 30)%nat → progress_store (env t) !! op = None).
Proof.
  split.
  - intros [t Ht]. revert Ht. unfold stream_progress.
    destruct (wait_for_operation_first (Z.to_nat max_wait) 0)
      as (final & -> & Hfinal & Hbefore & Hat); [done..|].
    destruct (progress_store (env (Z.to_nat final)) !! op) as [l|] eqn:Hl; simpl.
    + intros [[=]|Hin]%elem_of_cons.
      destruct (poll_shape l fuel (Z.to_nat final))
        as (updates & closing & Hemitted & Hupdates & Hend).
      rewrite Hemitted in Hin. apply elem_of_app in Hin as [Hin|Hin].
      * rewrite Forall_forall in Hupdates. by specialize (Hupdates _ Hin).
      * destruct (ending _) as [released|]; [|subst; by apply elem_of_nil in Hin].
        destruct Hend as (e & -> & _ & Hne & _).
        apply list_elem_of_singleton in Hin. by subst.
    + intros _ t' Ht'. destruct Hat as [[? ?]|Hlast]; [done|].
      destruct (decide (Z.of_nat t' = final)) as [<-|Hne].
      * by rewrite Nat2Z.id in Hl.
      * specialize (Hbefore (Z.of_nat t')). rewrite Nat2Z.id in Hbefore.
        apply Hbefore. unfold max_wait in *. lia.
  - intros Hmissing. exists 30%nat.
    rewrite stream_progress_timeout by done. set_solver.
Qed.

End StreamShape.

(** ** The stream of an operation that is over *)

Section StreamOfService.
Context `{rt : !PythonRuntime}.

Lemma wait_found_at_once env op :
  is_Some (progress_store (env 0%nat) !! op) →
  wait_for_operation env op (Z.to_nat max_wait) 0 = Return 0.
Proof.
  intros [l Hl].
  destruct (wait_for_operation_first env op (Z.to_nat max_wait) 0)
    as (final & -> & Hfinal & Hbefore & _); [done..|].
  destruct (decide (final = 0)) as [->|Hne]; [done|].
  pose proof (Hbefore 0 ltac:(lia)) as Hzero.
  change (Z.to_nat 0) with 0%nat in Hzero. congruence.
Qed.

Lemma json_dumps_raises data i slot :
  pd_agents_status data !! i = Some slot →
  is_Some (completed_at slot) →
  json_dumps data
  = Raise (OtherException "Object of type datetime is not JSON serializable").
Proof.
  intros Hslot [at_ Hat]. unfold json_dumps.
  destruct (forallb _ _) eqn:Hall; [|done].
  rewrite forallb_forall in Hall.
  specialize (Hall (i, slot)). simpl in Hall.
  rewrite Hat in Hall. discriminate Hall.
  apply list_elem_of_In, elem_of_map_to_list. done.
Qed.


(** X12. A client that opens the progress stream of an operation after
    [start_flashcard_generation] has returned for it gets the connected
    event and then an error event: the tracker is complete, so the
    generator does not poll, and the completion times stored in the
    slots make the serialization of the final progress dict raise.  The
    dict of type completed is not sent and the table entry is not
    removed. *)
Theorem finished_operation_streams_error generator configured decomposition remote
    schedule single_agent op now request w r env fuel :
  (start_flashcard_generation generator configured decomposition remote schedule
     single_agent op now request w).1 = Return r →
  env 0%nat
  = (start_flashcard_generation generator configured decomposition remote schedule
       single_agent op now request w).2 →
  stream_progress env op fuel
  = {| emitted :=
         [(0%nat, Connected op);
          (0%nat, StreamError "Object of type datetime is not JSON serializable")];
       ending := Ended false |}.
Proof.
  intros Hreturned Henv.
  pose proof (start_registers_tracker generator configured decomposition remote
                schedule single_agent op now request w) as Hstore.
  destruct (start_tracker_final generator configured decomposition remote schedule
              single_agent op now request w r Hreturned)
    as ((Hfull & Hall) & Hstamped & Htotal).
  rewrite <- Henv in Hstore, Hfull, Hall, Hstamped, Htotal.
  set (tracker := objects (env 0%nat) (next_object w)) in *.
  assert (json_dumps (set_type (get_progress_data tracker) "completed")
          = Raise (OtherException "Object of type datetime is not JSON serializable"))
    as Hdumps.
  { specialize (Hall 1 ltac:(lia)). unfold status_of in Hall.
    destruct (agents_status tracker !! 1) as [slot|] eqn:Hslot; [|done].
    apply (json_dumps_raises _ 1 slot); [done|]. by apply (Hstamped 1 slot). }
  unfold stream_progress. rewrite wait_found_at_once by (by rewrite Hstore).
  change (Z.to_nat 0) with 0%nat. rewrite Hstore.
  assert (poll env op (next_object w) fuel 0
          = {| emitted :=
                 [(0%nat,
                   StreamError "Object of type datetime is not JSON serializable")];
               ending := Ended false |}) as ->; [|done].
  destruct fuel; simpl; fold tracker;
    rewrite bool_decide_eq_false_2 by lia; by rewrite Hdumps.
Qed.


End StreamOfService.

Lemma finished_operation_streams_error_witness :
  stream_progress (fun _ => scenario_service.2) "flashcards_1a2b3c4d" 5
  = {| emitted :=
         [(0%nat, Connected "flashcards_1a2b3c4d");
          (0%nat, StreamError "Object of type datetime is not JSON serializable")];
       ending := Ended false |}.
Proof.
  apply (finished_operation_streams_error (rt := scenario_runtime) (Some 4) true
           (Failed (RuntimeError "down")) scenario_remote four_tasks_twice
           (Replied false) "flashcards_1a2b3c4d" 0 scenario_request empty_world
           scenario_service_result (fun _ => scenario_service.2) 5);
    reflexivity.
Defined.


(** ** The chat and its cache *)

Section Chat.

Lemma last_items_snoc {A} (k : nat) (l : list A) x :
  last_items (S k) (l ++ [x]) = last_items k l ++ [x].
Proof.
  unfold last_items. rewrite length_app. simpl.
  replace (length l + 1 - S k)%nat with (length l - k)%nat by lia.
  rewrite drop_app_le by lia. done.
Qed.

Lemma length_last_items {A} (k : nat) (l : list A) :
  (length (last_items k l) ≤ k)%nat.
Proof. unfold last_items. rewrite length_drop. lia. Qed.

Lemma last_items_short {A} (k : nat) (l : list A) :
  (length l ≤ k)%nat → last_items k l = l.
Proof.
  intros Hle. unfold last_items.
  by replace (length l - k)%nat with 0%nat by lia.
Qed.

(** X14. Whenever the provider is called, it receives the system prompt
    first, then the last nine messages of the history (all of them when
    there are fewer), oldest first, and last the message of the user: at
    most eleven messages, whatever the length of the history. *)
Theorem chat_prompt_window prompt database remote cache message conversation_id user_id_ :
  let history :=
    (get_conversation_history database cache conversation_id user_id_).1 in
  let sent :=
    chat_sent (chat_with_lia (Replied prompt) database true remote cache
                 message conversation_id user_id_) in
  sent = Some ({| msg_role := "system"; msg_content := prompt |}
               :: last_items 9 history ++ [user_message message])
  ∧ (∀ messages, sent = Some messages → (length messages ≤ 11)%nat).
Proof.
  intros history sent.
  assert (sent = Some ({| msg_role := "system"; msg_content := prompt |}
                       :: last_items 9 history ++ [user_message message])) as Hsent.
  { unfold sent, history, chat_with_lia.
    destruct (get_conversation_history _ _ _ _) as [h shared]. simpl.
    rewrite (last_items_snoc 9). by destruct remote. }
  split; [done|]. intros messages. rewrite Hsent. intros [= <-]. simpl.
  rewrite length_app. simpl.
  pose proof (length_last_items 9 history). lia.
Qed.

(** X15. After a chat that got an answer, from the provider or the
    canned one, the cache entry of the conversation holds at most twenty
    messages and ends with the message of the user and the answer; the
    other entries are untouched.  When the history was served by the
    cache from an existing entry, the message of the user is in the entry
    twice, once by the append to the history, which is the cached list
    itself, and once by the update of the cache. *)
Theorem chat_answer_in_cache prompt database (configured : bool)
    (remote : reply string) cache message conversation_id user_id_ text :
  (if configured then remote else Replied (unavailable_reply message)) = Replied text →
  let key := cache_key user_id_ conversation_id in
  let shared := (get_conversation_history database cache conversation_id user_id_).2 in
  let run := chat_with_lia (Replied prompt) database configured remote cache
               message conversation_id user_id_ in
  chat_returned run = Replied text
  ∧ chat_cache run !! key
    = Some (last_items 20
              (default [] (cache !! key)
               ++ (if shared then [user_message message] else [])
               ++ [user_message message; assistant_message text]))
  ∧ (∃ entry before,
       chat_cache run !! key = Some entry
       ∧ (length entry ≤ 20)%nat
       ∧ entry = before ++ [user_message message; assistant_message text])
  ∧ ∀ other, other ≠ key → chat_cache run !! other = cache !! other.
Proof.
  intros Houtcome key shared run.
  set (entry := default [] (cache !! key)
                ++ (if shared then [user_message message] else [])
                ++ [user_message message; assistant_message text]).
  assert (chat_returned run = Replied text
          ∧ chat_cache run !! key = Some (last_items 20 entry)
          ∧ ∀ other, other ≠ key → chat_cache run !! other = cache !! other)
    as (Hreturned & Hentry & Hother).
  { unfold run, entry, shared, chat_with_lia, user_message, assistant_message.
    destruct (get_conversation_history database cache conversation_id user_id_)
      as [history sh] eqn:Hhistory.
    fold key. cbn [fst snd]. rewrite Houtcome.
    assert (sh = true → cache !! key = Some history) as Hshared.
    { unfold get_conversation_history in Hhistory. fold key in Hhistory.
      destruct database as [[rows|e]|]; destruct (cache !! key);
        by simplify_eq. }
    set (cache1 := if sh then _ else cache).
    assert (default [] (cache1 !! key)
            = default [] (cache !! key)
              ++ (if sh then [{| msg_role := "user"; msg_content := message |}]
                  else [])) as Hdefault.
    { unfold cache1. destruct sh.
      - by rewrite lookup_insert_eq, (Hshared eq_refl).
      - by rewrite app_nil_r. }
    cbn [chat_returned chat_cache]. split; [done|].
    rewrite lookup_insert_eq. split.
    - f_equal. rewrite Hdefault, <- app_assoc.
      case_bool_decide as Hlong; [done|].
      rewrite last_items_short; [done|lia].
    - intros other Hne. rewrite lookup_insert_ne by done.
      unfold cache1. destruct sh; [by rewrite lookup_insert_ne|done]. }
  split; [done|]. split; [done|]. split; [|done].
  assert (∃ before, last_items 20 entry
                    = before ++ [user_message message; assistant_message text])
    as [before Hbefore].
  { unfold entry. rewrite app_assoc.
    set (l := default [] (cache !! key) ++ _).
    change [user_message message; assistant_message text]
      with ([user_message message] ++ [assistant_message text]).
    rewrite app_assoc, (last_items_snoc 19), (last_items_snoc 18), <- app_assoc.
    by eexists. }
  exists (last_items 20 entry), before.
  split; [done|]. split; [apply length_last_items|done].
Qed.

(** X16. A chat whose provider request raises returns the apology; when
    the history is served by the cache from an existing entry, each such
    chat still leaves the message of the user in the entry, which is not
    trimmed: after any number of failing chats the entry is the old one
    followed by all their messages, beyond twenty messages as well. *)
Theorem failing_chats_grow_cache prompt database e cache messages conversation_id
    user_id_ previous :
  (∀ rows, database ≠ Some (Replied rows)) →
  cache !! cache_key user_id_ conversation_id = Some previous →
  let after := chats (Replied prompt) database true (Failed e) cache messages
                 conversation_id user_id_ in
  after !! cache_key user_id_ conversation_id
  = Some (previous ++ (user_message <$> messages))
  ∧ (∀ other, other ≠ cache_key user_id_ conversation_id →
       after !! other = cache !! other)
  ∧ ∀ message,
      chat_returned (chat_with_lia (Replied prompt) database true (Failed e) after
                       message conversation_id user_id_) = Replied apology.
Proof.
  intros Hdatabase Hprevious after.
  assert (after !! cache_key user_id_ conversation_id
          = Some (previous ++ (user_message <$> messages))
          ∧ ∀ other, other ≠ cache_key user_id_ conversation_id →
              after !! other = cache !! other) as [Hentry Hother].
  { unfold after, chats. clear after. revert cache previous Hprevious.
    induction messages as [|message messages IH]; intros cache previous Hprevious.
    - simpl. by rewrite app_nil_r.
    - cbn [foldl fmap list_fmap].
      set (cache' := chat_cache (chat_with_lia (Replied prompt) database true
                                   (Failed e) cache message conversation_id user_id_)).
      assert (cache' = <[cache_key user_id_ conversation_id
                           := previous ++ [user_message message]]> cache) as Hcache'.
      { unfold cache', chat_with_lia, get_conversation_history.
        destruct database as [[rows|e']|]; [by destruct (Hdatabase rows)|..];
          by rewrite Hprevious. }
      destruct (IH cache' (previous ++ [user_message message])) as [Hentry Hother].
      { by rewrite Hcache', lookup_insert_eq. }
      split.
      + rewrite Hentry. by rewrite <- app_assoc.
      + intros other Hne. rewrite Hother by done.
        by rewrite Hcache', lookup_insert_ne. }
  split; [done|]. split; [done|].
  intros message. unfold chat_with_lia.
  by destruct (get_conversation_history _ _ _ _).
Qed.

(** X17. [handle_chat] answers with [success] true whenever the system
    prompt could be built: an exception of the provider is answered with
    the apology as the response, without an error, and is not told apart
    from an answer.  [success] is false only for an exception raised
    before the [try] block of [chat_with_lia], and then the cache is as
    it was. *)
Theorem handle_chat_hides_provider_failure system_prompt database configured remote
    cache message conversation_id user_id_ :
  let answer := handle_chat system_prompt database configured remote cache
                  message conversation_id user_id_ in
  cr_conversation_id answer.1 = conversation_id
  ∧ (cr_success answer.1 = true ↔ ∃ prompt, system_prompt = Replied prompt)
  ∧ (cr_success answer.1 = false →
     cr_response answer.1 = None ∧ answer.2 = cache
     ∧ ∃ exc, system_prompt = Failed exc ∧ cr_error answer.1 = Some (str_exn exc))
  ∧ (cr_success answer.1 = true →
     cr_error answer.1 = None
     ∧ cr_response answer.1
       = Some (match (if configured then remote
                      else Replied (unavailable_reply message)) with
               | Replied text => text
               | Failed _ => apology
               end)).
Proof.
  intros answer. unfold answer, handle_chat, chat_with_lia.
  destruct system_prompt as [prompt|exc]; simpl.
  - destruct (get_conversation_history _ _ _ _) as [history shared].
    destruct (if configured then remote else _) as [text|e]; simpl;
      (split; [done|]); (split; [split; [by eexists|done]|]); by split.
  - split; [done|]. split; [split; [done|by intros [? ?]]|].
    split; [|done]. intros _. split; [done|]. split; [done|]. by eexists.
Qed.

End Chat.

Lemma chat_answer_in_cache_witness :
  let key := cache_key "u1" "c1" in
  let shared := (get_conversation_history None one_exchange "c1" "u1").2 in
  let run := chat_with_lia (Replied "You are Lia.") None true
               (Replied "A membrane.") one_exchange "What surrounds it?" "c1" "u1" in
  chat_returned run = Replied "A membrane."
  ∧ chat_cache run !! key
    = Some (last_items 20
              (default [] (one_exchange !! key)
               ++ (if shared then [user_message "What surrounds it?"] else [])
               ++ [user_message "What surrounds it?";
                   assistant_message "A membrane."]))
  ∧ (∃ entry before,
       chat_cache run !! key = Some entry
       ∧ (length entry ≤ 20)%nat
       ∧ entry = before ++ [user_message "What surrounds it?";
                            assistant_message "A membrane."])
  ∧ ∀ other, other ≠ key → chat_cache run !! other = one_exchange !! other.
Proof.
  apply (chat_answer_in_cache "You are Lia." None true (Replied "A membrane.")
           one_exchange "What surrounds it?" "c1" "u1" "A membrane.").
  reflexivity.
Defined.

Lemma failing_chats_grow_cache_witness :
  let after := chats (Replied "You are Lia.") None true
                 (Failed (OtherException "timeout")) one_exchange
                 ["What surrounds it?"; "Hello?"] "c1" "u1" in
  after !! cache_key "u1" "c1"
  = Some ([user_message "What is a cell?"; assistant_message "The unit of life."]
          ++ (user_message <$> ["What surrounds it?"; "Hello?"]))
  ∧ (∀ other, other ≠ cache_key "u1" "c1" → after !! other = one_exchange !! other)
  ∧ ∀ message,
      chat_returned (chat_with_lia (Replied "You are Lia.") None true
                       (Failed (OtherException "timeout")) after
                       message "c1" "u1") = Replied apology.
Proof.
  apply (failing_chats_grow_cache "You are Lia." None (OtherException "timeout")
           one_exchange ["What surrounds it?"; "Hello?"] "c1" "u1"
           [user_message "What is a cell?"; assistant_message "The unit of life."]).
  - intros rows. discriminate.
  - reflexivity.
Defined.

(** ** The numbers in a successful answer *)

Section Accounting.
Context `{rt : !PythonRuntime}.

Lemma conclude_success cb total topic_ difficulty_ bs rs state calls r st calls' :
  length bs = length rs →
  Forall (fun r => status r = "completed" →
                   ∃ items, py_iter (flashcards r) = Return items) rs →
  Forall (fun r => status r = "completed" ∨ status r = "error") rs →
  completed_flashcards state = [] →
  conclude cb total topic_ difficulty_ bs (Replied <$> rs) state calls
  = (Return r, st, calls') →
  success r = true →
  ∃ cards completed failed,
    res_flashcards r = Some cards ∧ cards ≠ []
    ∧ res_count r = Some (Z.of_nat (length cards))
    ∧ batches_completed r = Some completed ∧ agents_used r = Some completed
    ∧ batches_failed r = Some failed
    ∧ 1 ≤ completed ∧ 0 ≤ failed
    ∧ completed + failed = Z.of_nat (length rs)
    ∧ res_topic r = Some topic_ ∧ res_difficulty r = Some difficulty_
    ∧ error r = None.
Proof.
  intros Hlen Hiter Hstatus Hempty. unfold conclude.
  rewrite collect_replied by done. simpl. rewrite Hempty. simpl.
  destruct (rs ≫= cards_of) as [|card cards] eqn:Hcards;
    intros [= <- _ _]; simpl; [done|]. intros _.
  pose proof (length_filter_status rs Hstatus) as Hsplit.
  assert (1 ≤ length (filter (fun b => status b = "completed") rs))%nat as Hone.
  { assert (∃ r', r' ∈ rs ∧ status r' = "completed") as (r' & Hin & Hr').
    { clear -Hcards. induction rs as [|r' rs IH]; [done|].
      rewrite bind_cons in Hcards.
      destruct (decide (status r' = "completed")) as [Hc|Hc].
      - exists r'. split; [set_solver|done].
      - unfold cards_of at 1 in Hcards. rewrite decide_False in Hcards by done.
        destruct (IH Hcards) as (r'' & ? & ?). exists r''. split; [set_solver|done]. }
    assert (r' ∈ filter (fun b => status b = "completed") rs) as Hfiltered
      by (by apply list_elem_of_filter).
    destruct (filter _ rs); [by apply elem_of_nil in Hfiltered|simpl; lia]. }
  eexists _, _, _. repeat split; try done; lia.
Qed.

(** X18. In every successful answer of [generate_flashcards_parallel]
    the numbers agree: [count] is the number of flashcards returned,
    which is not zero; [agents_used] equals [batches_completed], which
    is at least 1; and [batches_completed] plus [batches_failed] is the
    number of workers, min(max_agents, count).  The answer repeats the
    topic and the difficulty of the request and has no error. *)
Theorem success_accounting configured decomposition remote schedule max_agents
    topic_ count_ difficulty_ subject_ user_id_ cb r :
  returned (generate_flashcards_parallel configured decomposition remote schedule
              max_agents topic_ count_ difficulty_ subject_ user_id_ cb)
  = Return r →
  success r = true →
  ∃ cards completed failed,
    res_flashcards r = Some cards ∧ cards ≠ []
    ∧ res_count r = Some (Z.of_nat (length cards))
    ∧ batches_completed r = Some completed ∧ agents_used r = Some completed
    ∧ batches_failed r = Some failed
    ∧ 1 ≤ completed ∧ 0 ≤ failed
    ∧ completed + failed = Z.min max_agents count_
    ∧ res_topic r = Some topic_ ∧ res_difficulty r = Some difficulty_
    ∧ error r = None.
Proof.
  unfold generate_flashcards_parallel.
  destruct configured; simpl; [|by intros [= <-]].
  case_bool_decide as Hcount; [by intros [= <-]|].
  set (state := new_state topic_ count_ difficulty_ subject_ user_id_).
  destruct (create_batches_ids true decomposition max_agents state)
    as [[message Hraise]|(bs & Hplan & Hids & _)].
  { unfold parallel_body. rewrite Hraise. simpl. by intros [= <-]. }
  change (total_count state) with count_ in Hplan, Hids.
  unfold parallel_body. rewrite Hplan.
  assert (length bs = Z.to_nat (Z.max 1 (Z.min max_agents count_))) as Hlen.
  { apply (f_equal length) in Hids.
    by rewrite !length_fmap, length_seqZ in Hids. }
  destruct bs as [|b bs']; [simpl in Hlen; lia|]. set (bs := b :: bs') in *.
  destruct (decide (1 ≤ max_agents)) as [Hpool|Hpool].
  - rewrite create_tasks_in_pool.
    + destruct (run_tasks true remote cb (Z.of_nat (length bs)) (tasks_of bs) schedule)
        as [states made] eqn:Hrun.
      destruct (gather states) as [results|e|] eqn:Hgather; simpl; try done.
      * assert (gather (run_tasks true remote cb (Z.of_nat (length bs)) (tasks_of bs)
                          schedule).1 = Return results) as Hg by (by rewrite Hrun).
        apply gather_in_task_order in Hg.
        set (rs := batch_after true remote cb (Z.of_nat (length bs)) <$> tasks_of bs).
        assert (results = Replied <$> rs) as ->
          by (rewrite Hg; unfold rs; by rewrite <- list_fmap_compose).
        assert (length bs = length rs) as Hsame
          by (unfold rs, tasks_of; by rewrite !length_fmap).
        assert (Forall (fun r => status r = "completed" →
                          ∃ items, py_iter (flashcards r) = Return items) rs)
          as Hiter.
        { apply Forall_forall. intros r' (t & -> & _)%list_elem_of_fmap Hc.
          destruct (batch_after_cases true remote cb (Z.of_nat (length bs)) t)
            as [(_ & items & Hitems & _)|(Herr & _)]; [by eexists|].
          rewrite Herr in Hc. done. }
        assert (Forall (fun r => status r = "completed" ∨ status r = "error") rs)
          as Hstatus.
        { apply Forall_forall. intros r' (t & -> & _)%list_elem_of_fmap.
          destruct (batch_after_cases true remote cb (Z.of_nat (length bs)) t)
            as [(-> & _)|(-> & _)]; auto. }
        destruct (conclude_replied cb (Z.of_nat (length bs)) topic_ difficulty_ bs rs
                    (set_batches (set_agents_count state
                       (Z.max 1 (Z.min max_agents count_))) bs) Hsame Hiter)
          as (r0 & st & Hconclude & _); [done|].
        rewrite Hconclude. simpl. intros [= <-] Hsuccess.
        destruct (conclude_success cb (Z.of_nat (length bs)) topic_ difficulty_ bs rs
                    (set_batches (set_agents_count state
                       (Z.max 1 (Z.min max_agents count_))) bs)
                    [] r0 st [] Hsame Hiter Hstatus eq_refl (Hconclude []) Hsuccess)
          as (cards & completed & failed & ? & ? & ? & ? & ? & ? & ? & ? & Hsum
              & ? & ? & ?).
        exists cards, completed, failed. repeat split; try done.
        rewrite Hsum, <- Hsame, Hlen. lia.
      * by apply gather_not_Raise in Hgather.
    + apply Forall_forall. intros b' Hb'.
      apply (list_elem_of_fmap_2 agent_id) in Hb'. rewrite Hids in Hb'.
      apply list_elem_of_fmap in Hb' as (i & -> & Hi%elem_of_seqZ).
      simpl in *. lia.
  - unfold bs. rewrite create_tasks_empty_pool by lia. simpl.
    by intros [= <-].
Qed.

End Accounting.

Lemma success_accounting_witness :
  ∃ cards completed failed,
    res_flashcards scenario_result = Some cards ∧ cards ≠ []
    ∧ res_count scenario_result = Some (Z.of_nat (length cards))
    ∧ batches_completed scenario_result = Some completed
    ∧ agents_used scenario_result = Some completed
    ∧ batches_failed scenario_result = Some failed
    ∧ 1 ≤ completed ∧ 0 ≤ failed
    ∧ completed + failed = Z.min 4 3
    ∧ res_topic scenario_result = Some "Photosynthesis"
    ∧ res_difficulty scenario_result = Some "medium"
    ∧ error scenario_result = None.
Proof.
  apply (success_accounting (rt := scenario_runtime) true
           (Failed (RuntimeError "down")) scenario_remote last_finishes_first 4
           "Photosynthesis" 3 "medium" None "default" true scenario_result);
    reflexivity.
Defined.
